(** * KaspaVisualizer: the procedural DAG-growth simulator

    The repository ships two near-identical single-page simulators, one per
    visual theme.  The first theme (Kaspa, [src/unnamed/part_000]) and the
    second theme (Sui, [src/src/App.tsx]) each consist of a [Scene] component
    whose [useFrame] callback manufactures a new block every few hundred
    milliseconds, and of an [App] component that owns the selection and the
    statistics overlay.

    This development embeds both [Scene]/[App] pairs as executable state
    transformers, one module per source file, and proves the properties the
    specification states about them.

    Conventions of the embedding:
    - a JavaScript number that holds an integer (ids, millisecond clocks,
      heights) is a [Z]; a number produced by [Math.random()] or computed from
      one is a binary64 [float], compared with the kernel's own comparison;
    - [Math.random()] reads the next value of an explicit random source
      ([Rng]); [Date.now()] is the argument [now] of every frame;
    - React state and refs are fields of one record ([World]); a state update
      queued by a frame is committed before the next frame that fires reads
      it (the frames that fire are hundreds of milliseconds apart);
    - the sound played and the text written into the overlay are part of the
      world, so that "nothing happened" can be stated as an equality. *)

From Stdlib Require Import String ZArith List Bool Lia Floats Uint63 Sorted.
Import ListNotations.

Set Warnings "-inexact-float,-register-all".
Local Open Scope Z_scope.

(** ** The JavaScript runtime, as far as the two scenes use it *)

Module Js.

(** *** Numbers *)

(** The double that holds the integer [z] (exact below 2^53). *)
Definition num (z : Z) : float :=
  if z <? 0 then PrimFloat.opp (PrimFloat.of_uint63 (Uint63.of_Z (- z)))
  else PrimFloat.of_uint63 (Uint63.of_Z z).

(** [x > y] on doubles. *)
Definition gtb (x y : float) : bool := PrimFloat.ltb y x.

(** [Math.floor] of a finite double, as the integer it denotes. *)
Definition Math_floor (x : float) : Z :=
  match Prim2SF x with
  | S754_finite s m e => Z.shiftl (if s then Z.neg m else Z.pos m) e
  | _ => 0
  end.

(** *** Arrays *)

(** [arr.slice(-k)]: the last [k] elements, or all of them. *)
Definition slice_last {A : Type} (k : nat) (arr : list A) : list A :=
  skipn (length arr - k) arr.

(** [arr.push(x)]. *)
Definition push {A : Type} (arr : list A) (x : A) : list A := arr ++ [x].

(** [arr.shift()]: drops the first element. *)
Definition shift {A : Type} (arr : list A) : list A := tl arr.

(** *** The random source *)

(** [draws] is the whole sequence [Math.random()] will return, [cursor] the
    number of values already consumed. *)
Record Rng := { draws : nat -> float; cursor : nat }.

Definition Rand (A : Type) : Type := Rng -> A * Rng.

Definition ret {A : Type} (a : A) : Rand A := fun g => (a, g).

Definition bind {A B : Type} (c : Rand A) (k : A -> Rand B) : Rand B :=
  fun g => let (a, g') := c g in k a g'.

Definition Math_random : Rand float :=
  fun g => (draws g (cursor g), {| draws := draws g; cursor := S (cursor g) |}).

(** [arr.forEach(f)] where the callback updates a captured accumulator. *)
Fixpoint forEach {A S : Type} (arr : list A) (f : A -> S -> Rand S) (s : S) : Rand S :=
  match arr with
  | [] => ret s
  | a :: rest => bind (f a s) (forEach rest f)
  end.

(** *** Parsed JSON and its truthiness *)

Inductive Json : Type :=
| JNull
| JBool (b : bool)
| JNumber (x : float)
| JString (s : string)
| JArray (items : list Json)
| JObject (fields : list (string * Json)).

(** [ToBoolean]. *)
Definition truthy (v : Json) : bool :=
  match v with
  | JNull => false
  | JBool b => b
  | JNumber x => negb (PrimFloat.eqb x 0) && negb (PrimFloat.is_nan x)
  | JString s => negb (String.eqb s "")
  | JArray _ => true
  | JObject _ => true
  end.

Fixpoint lookup (key : string) (fields : list (string * Json)) : option Json :=
  match fields with
  | [] => None
  | (k, v) :: rest => if String.eqb k key then Some v else lookup key rest
  end.

(** [v.blockCount] for a non-null [v]; [None] is [undefined]. *)
Definition blockCount_of (v : Json) : option Json :=
  match v with
  | JObject fields => lookup "blockCount" fields
  | _ => None
  end.

(** *** Library functions whose text output the model does not compute *)

Class Runtime : Type := {
  (** [x.toString(radix)] *)
  Number_toString : Z -> float -> string;
  (** [x.toFixed(digits)] *)
  Number_toFixed : nat -> float -> string;
  (** [n.toLocaleString()] of an integer *)
  Number_toLocaleString : Z -> string;
  (** [parseInt(v)]; [None] is [NaN] *)
  parseInt : Json -> option Z
}.

(** [s.substring(i, j)] for [i <= j]. *)
Definition substring (i j : nat) (s : string) : string :=
  String.substring i (j - i) s.

(** *** What a scene leaves in the overlay and in the loudspeaker *)

(** The object behind [statsRefs.current]: the text of the two overlay
    elements ([None] while the element is not attached) and the base height
    ([None] is [NaN]). *)
Record StatsRefs := {
  bps : option string;
  count : option string;
  baseHeight : option Z
}.

Inductive Wave := sine | sawtooth.

(** One oscillator started by [playBlockSound]. *)
Record Tone := { wave : Wave; frequency : float; gain : float; duration : float }.

(** The fetch of the block count, as the promise chain sees it: the request
    fails, or a response of some status arrives whose body is JSON or not. *)
Inductive FetchOutcome :=
| NetworkError
| Response (status : Z) (body : option Json).

End Js.

Declare Scope rand_scope.
Delimit Scope rand_scope with rand.
Notation "x <- c ;; k" := (Js.bind c (fun x => k))
  (at level 61, c at next level, right associativity) : rand_scope.

(** ** First theme: the Kaspa scene ([src/unnamed/part_000]) *)

Module Kaspa.
Import Js.
Local Open Scope rand_scope.

Definition KASPA_CYAN : string := "#48Cca8".

Record BlockData := {
  id : Z;
  position : float * float * float;
  parents : list Z;
  color : string;
  createdAt : Z;
  hash : string;
  difficulty : Z
}.

Inductive SoundType := normal | gold | red.

(** [playBlockSound]: the oscillator it starts; only the [normal] branch
    draws a random number. *)
Definition playBlockSound (type : SoundType) : Rand Tone :=
  match type with
  | gold => ret {| wave := sine; frequency := 880; gain := 0.3; duration := 0.3 |}
  | red => ret {| wave := sawtooth; frequency := 110; gain := 0.2; duration := 0.2 |}
  | normal =>
      r <- Math_random ;;
      ret {| wave := sine; frequency := 440 + r * 100; gain := 0.1; duration := 0.1 |}
  end%float.

(** The world of the page: the state of [App], the state and refs of
    [Scene], and what the page reads from and writes to its environment. *)
Record World := {
  (* App *)
  selectedBlock : option BlockData;
  started : bool;
  statsRefs : StatsRefs;
  (* Scene *)
  blocks : list BlockData;
  lastIdRef : Z;
  lastTimeRef : Z;
  hasStartedRef : bool;
  (* environment *)
  rng : Rng;
  played : list Tone;
  fetchPending : bool
}.

(** *** The block generator (the body of the interval branch of [useFrame]) *)

(** Color logic: the category of a block from one draw. *)
Definition colorLogic (rnd : float) : string * SoundType :=
  if gtb rnd 0.95 then ("#FFD700"%string, gold)
  else if gtb rnd 0.90 then ("#FF4081"%string, red)
  else (KASPA_CYAN, normal).

(** The callback of [potentialParents.forEach]. *)
Definition linkParent (b : BlockData) (parents : list Z) : Rand (list Z) :=
  r <- Math_random ;;
  ret (if gtb r 0.6 then push parents (id b) else parents).

(** Find parents: a coin per block of the last 8, and the newest block when
    no coin came up and there is a block at all. *)
Definition findParents (blocks : list BlockData) : Rand (list Z) :=
  let potentialParents := slice_last 8 blocks in
  parents <- forEach potentialParents linkParent [] ;;
  ret (if (length parents =? 0)%nat && (0 <? length blocks)%nat
       then match nth_error blocks (length blocks - 1) with
            | Some newest => push parents (id newest)
            | None => parents
            end
       else parents).

Section WithRuntime.
Context {RT : Runtime}.

(** The new block and the sound played for it, in the order the source draws:
    x, y, one coin per potential parent, the category, the pitch of a normal
    sound, two hash halves, the difficulty. *)
Definition newBlock (now newId : Z) (blocks : list BlockData) : Rand (BlockData * Tone) :=
  let z := (num newId * 1.5)%float in
  rx <- Math_random ;;
  let x := ((rx - 0.5) * 8)%float in
  ry <- Math_random ;;
  let y := ((ry - 0.5) * 4)%float in
  parents <- findParents blocks ;;
  rnd <- Math_random ;;
  let (color, type) := colorLogic rnd in
  tone <- playBlockSound type ;;
  h1 <- Math_random ;;
  h2 <- Math_random ;;
  d <- Math_random ;;
  ret ({| id := newId;
          position := (x, y, z);
          parents := parents;
          color := color;
          createdAt := now;
          hash := (substring 2 15 (Number_toString 36 h1)
                   ++ substring 2 15 (Number_toString 36 h2))%string;
          difficulty := Math_floor (d * 1000)%float + 1000 |},
       tone).

(** The updater passed to [setBlocks]. *)
Definition appendBlock (newBlock : BlockData) (prev : list BlockData) : list BlockData :=
  let updated := prev ++ [newBlock] in
  if (75 <? length updated)%nat then shift updated else updated.

(** *** The growth clock: one invocation of the [useFrame] callback *)

(** Returns the next world and the block this invocation produced, if any. *)
Definition frame (now : Z) (w : World) : World * option BlockData :=
  if negb (hasStartedRef w) || negb (started w) then (w, None)
  else if now - lastTimeRef w >? 300 then
    let lastTime := now in
    let newId := lastIdRef w + 1 in
    let '(newBlock, tone, g) := newBlock now newId (blocks w) (rng w) in
    let currentBps := (1000 / num (now - (lastTime - 300)) * 1)%float in
    let realHeight :=
      match baseHeight (statsRefs w) with Some h => h | None => 0 end + newId in
    ({| selectedBlock := selectedBlock w;
        started := started w;
        statsRefs :=
          {| bps := match bps (statsRefs w) with
                    | Some _ => Some (Number_toFixed 1 currentBps ++ " BPS")%string
                    | None => None
                    end;
             count := match count (statsRefs w) with
                      | Some _ => Some (Number_toLocaleString realHeight)
                      | None => None
                      end;
             baseHeight := baseHeight (statsRefs w) |};
        blocks := appendBlock newBlock (blocks w);
        lastIdRef := newId;
        lastTimeRef := lastTime;
        hasStartedRef := hasStartedRef w;
        rng := g;
        played := played w ++ [tone];
        fetchPending := fetchPending w |},
     Some newBlock)
  else (w, None).

Definition useFrame (now : Z) (w : World) : World := fst (frame now w).

(** The two guards of the callback as one test: the invocation produces a
    block exactly when [fires] holds. *)
Definition fires (now : Z) (w : World) : bool :=
  hasStartedRef w && started w && (now - lastTimeRef w >? 300).

(** *** The one-shot fetch of the block count *)

Definition set_ready (height : option Z) (w : World) : World :=
  {| selectedBlock := selectedBlock w;
     started := started w;
     statsRefs := {| bps := bps (statsRefs w);
                     count := count (statsRefs w);
                     baseHeight := height |};
     blocks := blocks w;
     lastIdRef := lastIdRef w;
     lastTimeRef := lastTimeRef w;
     hasStartedRef := true;
     rng := rng w;
     played := played w;
     fetchPending := fetchPending w |}.

(** The second [.then] callback. *)
Definition onData (data : Json) (w : World) : World :=
  if truthy data
     && match blockCount_of data with Some c => truthy c | None => false end
  then set_ready (match blockCount_of data with
                  | Some c => parseInt c
                  | None => None
                  end) w
  else w.

(** The [.catch] callback. *)
Definition onError (w : World) : World := set_ready (Some 100000000) w.

(** The promise chain [fetch(..).then(res => res.json()).then(..).catch(..)]
    once the fetch has settled. *)
Definition fetchSettled (o : FetchOutcome) (w : World) : World :=
  match o with
  | NetworkError => onError w
  | Response _ None => onError w
  | Response _ (Some data) => onData data w
  end.

(** *** The [App] component: selection, start button, and what is rendered *)

(** The genesis block of the "Initial seed" effect. *)
Definition genesis (t : Z) : BlockData :=
  {| id := 0;
     position := (0, 0, 0)%float;
     parents := [];
     color := KASPA_CYAN;
     createdAt := t;
     hash := "genesis";
     difficulty := 1 |}.

(** The first render: the initial values of every [useState] and [useRef]. *)
Definition firstRender (t : Z) (source : nat -> float) : World :=
  {| selectedBlock := None;
     started := false;
     statsRefs := {| bps := None; count := None; baseHeight := Some 0 |};
     blocks := [];
     lastIdRef := 0;
     lastTimeRef := t;
     hasStartedRef := false;
     rng := {| draws := source; cursor := 0 |};
     played := [];
     fetchPending := false |}.

(** The effects that run once after the first render: the fetch is sent,
    the genesis block is seeded, the overlay elements are linked. *)
Definition mountEffects (t : Z) (w : World) : World :=
  {| selectedBlock := selectedBlock w;
     started := started w;
     statsRefs := {| bps := Some "0.0 BPS"%string;
                     count := Some "LOADING..."%string;
                     baseHeight := baseHeight (statsRefs w) |};
     blocks := [genesis t];
     lastIdRef := lastIdRef w;
     lastTimeRef := lastTimeRef w;
     hasStartedRef := hasStartedRef w;
     rng := rng w;
     played := played w;
     fetchPending := true |}.

(** [t0] and [t1] are the clock at the first render and at its effects. *)
Definition mount (t0 t1 : Z) (source : nat -> float) : World :=
  mountEffects t1 (firstRender t0 source).

(** [setSelectedBlock]. *)
Definition setSelectedBlock (b : option BlockData) (w : World) : World :=
  {| selectedBlock := b;
     started := started w;
     statsRefs := statsRefs w;
     blocks := blocks w;
     lastIdRef := lastIdRef w;
     lastTimeRef := lastTimeRef w;
     hasStartedRef := hasStartedRef w;
     rng := rng w;
     played := played w;
     fetchPending := fetchPending w |}.

(** [handleStart]. *)
Definition handleStart (w : World) : World :=
  {| selectedBlock := selectedBlock w;
     started := true;
     statsRefs := statsRefs w;
     blocks := blocks w;
     lastIdRef := lastIdRef w;
     lastTimeRef := lastTimeRef w;
     hasStartedRef := hasStartedRef w;
     rng := rng w;
     played := played w;
     fetchPending := fetchPending w |}.

Definition settle (w : World) : World :=
  {| selectedBlock := selectedBlock w;
     started := started w;
     statsRefs := statsRefs w;
     blocks := blocks w;
     lastIdRef := lastIdRef w;
     lastTimeRef := lastTimeRef w;
     hasStartedRef := hasStartedRef w;
     rng := rng w;
     played := played w;
     fetchPending := false |}.

(** The prop [selectedBlockId={selectedBlock?.id ?? null}]. *)
Definition selectedBlockId (w : World) : option Z :=
  match selectedBlock w with
  | Some b => Some (id b)
  | None => None
  end.

(** The prop [isSelected={selectedBlockId === block.id}]. *)
Definition isSelected (w : World) (block : BlockData) : bool :=
  match selectedBlockId w with
  | Some i => i =? id block
  | None => false
  end.

(** [blocks.map(block => <Block ... isSelected=... />)]. *)
Definition render (w : World) : list (BlockData * bool) :=
  map (fun block => (block, isSelected w block)) (blocks w).

(** *** Everything that can happen to the page after it is mounted *)

Inductive Event :=
| Frame (now : Z)                  (* the render loop calls [useFrame] at [Date.now() = now] *)
| FetchSettled (o : FetchOutcome)  (* the fetch of the mount effect settles *)
| ClickStart                       (* the INITIALIZE SIMULATION button *)
| ClickBlock (i : nat)             (* the mesh of [blocks[i]]: [onSelect(data)] *)
| SelectNone.                      (* [onBlockSelect(null)] *)

Definition step (e : Event) (w : World) : World :=
  match e with
  | Frame now => useFrame now w
  | FetchSettled o => if fetchPending w then settle (fetchSettled o w) else w
  | ClickStart => handleStart w
  | ClickBlock i =>
      match nth_error (blocks w) i with
      | Some data => setSelectedBlock (Some data) w
      | None => w
      end
  | SelectNone => setSelectedBlock None w
  end.

Fixpoint run (evs : list Event) (w : World) : World :=
  match evs with
  | [] => w
  | e :: rest => run rest (step e w)
  end.

(** The blocks the growth clock produced during [evs], oldest first. *)
Fixpoint produced (evs : list Event) (w : World) : list BlockData :=
  match evs with
  | [] => []
  | e :: rest =>
      match e with
      | Frame now =>
          match snd (frame now w) with
          | Some b => [b]
          | None => []
          end
      | _ => []
      end ++ produced rest (step e w)
  end.

End WithRuntime.

End Kaspa.

(** ** Second theme: the Sui scene ([src/src/App.tsx]) *)

Module Sui.
Import Js.
Local Open Scope rand_scope.

Definition SUI_BLUE : string := "#3898EC".

Record BlockData := {
  id : Z;
  position : float * float * float;
  parents : list Z;
  color : string;
  createdAt : Z;
  hash : string;
  difficulty : Z;
  tps : Z
}.

Inductive SoundType := normal | large | error.

Definition playBlockSound (type : SoundType) : Rand Tone :=
  match type with
  | large => ret {| wave := sine; frequency := 200; gain := 0.4; duration := 0.3 |}
  | error => ret {| wave := sawtooth; frequency := 100; gain := 0.2; duration := 0.2 |}
  | normal =>
      r <- Math_random ;;
      ret {| wave := sine; frequency := 600 + r * 200; gain := 0.1; duration := 0.1 |}
  end%float.

Record World := {
  (* App *)
  selectedBlock : option BlockData;
  isRunning : bool;
  statsRefs : StatsRefs;
  (* Scene *)
  blocks : list BlockData;
  lastIdRef : Z;
  lastTimeRef : Z;
  hasStartedRef : bool;
  (* environment *)
  rng : Rng;
  played : list Tone
}.

(** *** The block generator *)

(** Color logic, with the two tests in the order of the source. *)
Definition colorLogic (rnd : float) : string * SoundType :=
  if gtb rnd 0.95 then ("#ffffff"%string, large)
  else if gtb rnd 0.98 then ("#FF4081"%string, error)
  else (SUI_BLUE, normal).

Definition linkParent (b : BlockData) (parents : list Z) : Rand (list Z) :=
  r <- Math_random ;;
  ret (if gtb r 0.5 then push parents (id b) else parents).

Definition findParents (blocks : list BlockData) : Rand (list Z) :=
  let potentialParents := slice_last 6 blocks in
  parents <- forEach potentialParents linkParent [] ;;
  ret (if (length parents =? 0)%nat && (0 <? length blocks)%nat
       then match nth_error blocks (length blocks - 1) with
            | Some newest => push parents (id newest)
            | None => parents
            end
       else parents).

Section WithRuntime.
Context {RT : Runtime}.

(** Draw order: x, y, one coin per potential parent, the category, the pitch
    of a normal sound, the hash, the tps. *)
Definition newBlock (now newId : Z) (blocks : list BlockData) : Rand (BlockData * Tone) :=
  let z := (num newId * 1.5)%float in
  rx <- Math_random ;;
  let x := ((rx - 0.5) * 8)%float in
  ry <- Math_random ;;
  let y := ((ry - 0.5) * 4)%float in
  parents <- findParents blocks ;;
  rnd <- Math_random ;;
  let (color, type) := colorLogic rnd in
  tone <- playBlockSound type ;;
  h <- Math_random ;;
  t <- Math_random ;;
  ret ({| id := newId;
          position := (x, y, z);
          parents := parents;
          color := color;
          createdAt := now;
          hash := ("0x" ++ substring 2 40 (Number_toString 16 h))%string;
          difficulty := 1;
          tps := Math_floor (t * 5000)%float + 1000 |},
       tone).

Definition appendBlock (newBlock : BlockData) (prev : list BlockData) : list BlockData :=
  let updated := prev ++ [newBlock] in
  if (40 <? length updated)%nat then shift updated else updated.

(** *** The growth clock *)

Definition frame (now : Z) (w : World) : World * option BlockData :=
  if negb (hasStartedRef w) || negb (isRunning w) then (w, None)
  else if now - lastTimeRef w >? 600 then
    let newId := lastIdRef w + 1 in
    let '(newBlock, tone, g) := newBlock now newId (blocks w) (rng w) in
    let '(r, g) := Math_random g in
    let currentTps := (2000 + r * 3000)%float in
    let realHeight :=
      match baseHeight (statsRefs w) with Some h => h | None => 0 end + newId in
    ({| selectedBlock := selectedBlock w;
        isRunning := isRunning w;
        statsRefs :=
          {| bps := match bps (statsRefs w) with
                    | Some _ => Some (Number_toFixed 0 currentTps ++ " TPS")%string
                    | None => None
                    end;
             count := match count (statsRefs w) with
                      | Some _ => Some (Number_toLocaleString realHeight)
                      | None => None
                      end;
             baseHeight := baseHeight (statsRefs w) |};
        blocks := appendBlock newBlock (blocks w);
        lastIdRef := newId;
        lastTimeRef := now;
        hasStartedRef := hasStartedRef w;
        rng := g;
        played := played w ++ [tone] |},
     Some newBlock)
  else (w, None).

Definition useFrame (now : Z) (w : World) : World := fst (frame now w).

(** The two guards of the callback as one test. *)
Definition fires (now : Z) (w : World) : bool :=
  hasStartedRef w && isRunning w && (now - lastTimeRef w >? 600).

(** *** The [App] component *)

Definition genesis (t : Z) : BlockData :=
  {| id := 0;
     position := (0, 0, 0)%float;
     parents := [];
     color := SUI_BLUE;
     createdAt := t;
     hash := "genesis";
     difficulty := 1;
     tps := 0 |}.

(** The first render; the two overlay elements are attached by their ref
    callbacks when it is committed. *)
Definition firstRender (t : Z) (source : nat -> float) : World :=
  {| selectedBlock := None;
     isRunning := true;
     statsRefs := {| bps := Some "0"%string;
                     count := Some "LOADING..."%string;
                     baseHeight := Some 0 |};
     blocks := [];
     lastIdRef := 0;
     lastTimeRef := t;
     hasStartedRef := false;
     rng := {| draws := source; cursor := 0 |};
     played := [] |}.

(** The two effects of [Scene]: "Simulation Start" (which overwrites the
    base height only when it is already non-zero) and "Initial seed". *)
Definition mountEffects (t : Z) (w : World) : World :=
  {| selectedBlock := selectedBlock w;
     isRunning := isRunning w;
     statsRefs := {| bps := bps (statsRefs w);
                     count := count (statsRefs w);
                     baseHeight := match baseHeight (statsRefs w) with
                                   | Some h => if h =? 0 then Some h else Some 124500000
                                   | None => None
                                   end |};
     blocks := [genesis t];
     lastIdRef := lastIdRef w;
     lastTimeRef := lastTimeRef w;
     hasStartedRef := true;
     rng := rng w;
     played := played w |}.

(** [t0] and [t1] are the clock at the first render and at its effects. *)
Definition mount (t0 t1 : Z) (source : nat -> float) : World :=
  mountEffects t1 (firstRender t0 source).

Definition setSelectedBlock (b : option BlockData) (w : World) : World :=
  {| selectedBlock := b;
     isRunning := isRunning w;
     statsRefs := statsRefs w;
     blocks := blocks w;
     lastIdRef := lastIdRef w;
     lastTimeRef := lastTimeRef w;
     hasStartedRef := hasStartedRef w;
     rng := rng w;
     played := played w |}.

(** [setIsRunning(!isRunning)]. *)
Definition toggleRunning (w : World) : World :=
  {| selectedBlock := selectedBlock w;
     isRunning := negb (isRunning w);
     statsRefs := statsRefs w;
     blocks := blocks w;
     lastIdRef := lastIdRef w;
     lastTimeRef := lastTimeRef w;
     hasStartedRef := hasStartedRef w;
     rng := rng w;
     played := played w |}.

(** The prop [selectedBlockId={selectedBlock?.id || null}]: a falsy id,
    that is 0, becomes [null]. *)
Definition selectedBlockId (w : World) : option Z :=
  match selectedBlock w with
  | Some b => if id b =? 0 then None else Some (id b)
  | None => None
  end.

Definition isSelected (w : World) (block : BlockData) : bool :=
  match selectedBlockId w with
  | Some i => i =? id block
  | None => false
  end.

Definition render (w : World) : list (BlockData * bool) :=
  map (fun block => (block, isSelected w block)) (blocks w).

(** *** Everything that can happen to the page after it is mounted *)

Inductive Event :=
| Frame (now : Z)        (* the render loop calls [useFrame] at [Date.now() = now] *)
| ClickPause             (* the PAUSE / RESUME button *)
| ClickBlock (i : nat)   (* the mesh of [blocks[i]]: [onSelect(data)] *)
| SelectNone.            (* [onBlockSelect(null)], or the CLOSE button *)

Definition step (e : Event) (w : World) : World :=
  match e with
  | Frame now => useFrame now w
  | ClickPause => toggleRunning w
  | ClickBlock i =>
      match nth_error (blocks w) i with
      | Some data => setSelectedBlock (Some data) w
      | None => w
      end
  | SelectNone => setSelectedBlock None w
  end.

Fixpoint run (evs : list Event) (w : World) : World :=
  match evs with
  | [] => w
  | e :: rest => run rest (step e w)
  end.

Fixpoint produced (evs : list Event) (w : World) : list BlockData :=
  match evs with
  | [] => []
  | e :: rest =>
      match e with
      | Frame now =>
          match snd (frame now w) with
          | Some b => [b]
          | None => []
          end
      | _ => []
      end ++ produced rest (step e w)
  end.

End WithRuntime.

End Sui.

(** ** What the scenes hand to the renderer *)

(** The props of one [<Line>] of drei: [key] holds the two numbers of the
    template string [`${data.id}-${parentId}`]. *)
Record Line := {
  key : Z * Z;
  points : (float * float * float) * (float * float * float);
  line_color : string;
  opacity : float;
  lineWidth : Z
}.

Module KaspaView.

(** The edges of [Block]: one entry per parent id, [None] (React renders
    nothing for [null]) when [allBlocks.find] finds no block of that id. *)
Definition edges (data : Kaspa.BlockData) (allBlocks : list Kaspa.BlockData)
    (isSelected : bool) : list (option Line) :=
  map (fun parentId =>
         match find (fun b => Kaspa.id b =? parentId) allBlocks with
         | None => None
         | Some parent =>
             Some {| key := (Kaspa.id data, parentId);
                     points := (Kaspa.position data, Kaspa.position parent);
                     line_color := Kaspa.color data;
                     opacity := if isSelected then 0.8%float else 0.2%float;
                     lineWidth := if isSelected then 2 else 1 |}
         end)
      (Kaspa.parents data).

(** The prop [isNew={block.id === lastIdRef.current}]. *)
Definition isNew (w : Kaspa.World) (block : Kaspa.BlockData) : bool :=
  Kaspa.id block =? Kaspa.lastIdRef w.

(** [newestZ], which the lights, the sparkles and the camera follow. *)
Definition newestZ (w : Kaspa.World) : float :=
  if (0 <? length (Kaspa.blocks w))%nat
  then match nth_error (Kaspa.blocks w) (length (Kaspa.blocks w) - 1) with
       | Some newest => snd (Kaspa.position newest)
       | None => 0%float
       end
  else 0%float.

End KaspaView.

Module SuiView.

Definition edges (data : Sui.BlockData) (allBlocks : list Sui.BlockData)
    (isSelected : bool) : list (option Line) :=
  map (fun parentId =>
         match find (fun b => Sui.id b =? parentId) allBlocks with
         | None => None
         | Some parent =>
             Some {| key := (Sui.id data, parentId);
                     points := (Sui.position data, Sui.position parent);
                     line_color := Sui.color data;
                     opacity := if isSelected then 0.8%float else 0.3%float;
                     lineWidth := if isSelected then 2 else 1 |}
         end)
      (Sui.parents data).

Definition isNew (w : Sui.World) (block : Sui.BlockData) : bool :=
  Sui.id block =? Sui.lastIdRef w.

Definition newestZ (w : Sui.World) : float :=
  if (0 <? length (Sui.blocks w))%nat
  then match nth_error (Sui.blocks w) (length (Sui.blocks w) - 1) with
       | Some newest => snd (Sui.position newest)
       | None => 0%float
       end
  else 0%float.

End SuiView.

(** ** Notions used to state and prove the properties *)

(** [Subseq s l]: [s] is [l] with some elements left out, order kept. *)
Inductive Subseq {A : Type} : list A -> list A -> Prop :=
| Subseq_nil : Subseq [] []
| Subseq_skip (x : A) (s l : list A) : Subseq s l -> Subseq s (x :: l)
| Subseq_take (x : A) (s l : list A) : Subseq s l -> Subseq (x :: s) (x :: l).

(** The random source after [n] more draws. *)
Definition advance (n : nat) (g : Js.Rng) : Js.Rng :=
  {| Js.draws := Js.draws g; Js.cursor := n + Js.cursor g |}.

(** What every reachable history satisfies, for a block type with id
    projection [id], a cap [cap] and the id counter at [lastId]: ids strictly
    increase along the history and are between 0 and the counter, and the
    history is neither empty nor longer than the cap. *)
Definition history_ok {B : Type} (id : B -> Z) (cap : nat) (lastId : Z)
    (blocks : list B) : Prop :=
  StronglySorted Z.lt (map id blocks)
  /\ Forall (fun b => 0 <= id b <= lastId) blocks
  /\ blocks <> []
  /\ (length blocks <= cap)%nat.

(** The invariant of each theme. *)
Definition KaspaInv (w : Kaspa.World) : Prop :=
  history_ok Kaspa.id 75 (Kaspa.lastIdRef w) (Kaspa.blocks w).

Definition SuiInv (w : Sui.World) : Prop :=
  history_ok Sui.id 40 (Sui.lastIdRef w) (Sui.blocks w).

(** The lines React draws for a list of edges: the entries that are not
    [null]. *)
Definition drawn (edges : list (option Line)) : list Line :=
  flat_map (fun e => match e with Some line => [line] | None => [] end) edges.

(** The events that reach the clock and its gates; the others only move the
    selection. *)
Definition kaspa_clock_event (e : Kaspa.Event) : bool :=
  match e with
  | Kaspa.ClickBlock _ | Kaspa.SelectNone => false
  | _ => true
  end.

Definition sui_clock_event (e : Sui.Event) : bool :=
  match e with
  | Sui.ClickBlock _ | Sui.SelectNone => false
  | _ => true
  end.

(** The times of the frames of a run at which the clock is due: the frames
    that find the page ready and running with more than the interval gone
    since the last fire. *)
Fixpoint kaspa_due {RT : Js.Runtime} (evs : list Kaspa.Event) (w : Kaspa.World) : list Z :=
  match evs with
  | [] => []
  | e :: rest =>
      match e with
      | Kaspa.Frame now => if Kaspa.fires now w then [now] else []
      | _ => []
      end ++ kaspa_due rest (Kaspa.step e w)
  end.

Fixpoint sui_due {RT : Js.Runtime} (evs : list Sui.Event) (w : Sui.World) : list Z :=
  match evs with
  | [] => []
  | e :: rest =>
      match e with
      | Sui.Frame now => if Sui.fires now w then [now] else []
      | _ => []
      end ++ sui_due rest (Sui.step e w)
  end.

(** The sound that goes with the color of a block. *)
Definition kaspa_sound_of (b : Kaspa.BlockData) (t : Js.Tone) : Prop :=
  (Kaspa.color b = "#FFD700"%string
   /\ t = {| Js.wave := Js.sine; Js.frequency := 880;
             Js.gain := 0.3; Js.duration := 0.3 |}%float)
  \/ (Kaspa.color b = "#FF4081"%string
      /\ t = {| Js.wave := Js.sawtooth; Js.frequency := 110;
                Js.gain := 0.2; Js.duration := 0.2 |}%float)
  \/ (Kaspa.color b = Kaspa.KASPA_CYAN
      /\ exists r, t = {| Js.wave := Js.sine; Js.frequency := 440 + r * 100;
                          Js.gain := 0.1; Js.duration := 0.1 |}%float).

Definition sui_sound_of (b : Sui.BlockData) (t : Js.Tone) : Prop :=
  (Sui.color b = "#ffffff"%string
   /\ t = {| Js.wave := Js.sine; Js.frequency := 200;
             Js.gain := 0.4; Js.duration := 0.3 |}%float)
  \/ (Sui.color b = Sui.SUI_BLUE
      /\ exists r, t = {| Js.wave := Js.sine; Js.frequency := 600 + r * 200;
                          Js.gain := 0.1; Js.duration := 0.1 |}%float).

(** *** Concrete worlds and runs *)

(** A runtime whose formatting functions return fixed texts; the properties
    below hold for every runtime, the concrete runs are computed with this
    one. *)
Definition plain_runtime : Js.Runtime :=
  {| Js.Number_toString := fun _ _ => "0.4fzyo82mvyr"%string;
     Js.Number_toFixed := fun _ _ => "3.3"%string;
     Js.Number_toLocaleString := fun _ => "100,000,001"%string;
     Js.parseInt := fun _ => None |}.

(** A random source that repeats 0.97, 0.3, 0.7. *)
Definition cycling_source (n : nat) : float :=
  match Nat.modulo n 3 with
  | O => 0.97%float
  | S O => 0.3%float
  | _ => 0.7%float
  end.

(** Frames at [step], [2 * step], ..., [n * step]. *)
Definition kaspa_frames (step : Z) (n : nat) : list Kaspa.Event :=
  map (fun k => Kaspa.Frame (step * Z.of_nat k)) (seq 1 n).

Definition sui_frames (step : Z) (n : nat) : list Sui.Event :=
  map (fun k => Sui.Frame (step * Z.of_nat k)) (seq 1 n).

(** The first theme after a failed fetch, the start button and [n] frames
    301 ms apart; the second theme after [n] frames 601 ms apart. *)
Definition kaspa_after (n : nat) : Kaspa.World :=
  Kaspa.run (RT := plain_runtime)
    (Kaspa.FetchSettled Js.NetworkError :: Kaspa.ClickStart :: kaspa_frames 301 n)
    (Kaspa.mount 0 0 cycling_source).

Definition sui_after (n : nat) : Sui.World :=
  Sui.run (RT := plain_runtime) (sui_frames 601 n) (Sui.mount 0 0 cycling_source).

(** The block a frame produces, or the genesis block when it produces none. *)
Definition kaspa_block_at (now : Z) (w : Kaspa.World) : Kaspa.BlockData :=
  match snd (Kaspa.frame (RT := plain_runtime) now w) with
  | Some b => b
  | None => Kaspa.genesis 0
  end.

Definition sui_block_at (now : Z) (w : Sui.World) : Sui.BlockData :=
  match snd (Sui.frame (RT := plain_runtime) now w) with
  | Some b => b
  | None => Sui.genesis 0
  end.

(** The times [step * first], [step * (first + 1)], ..., [n] of them. *)
Definition frame_times (step : Z) (first n : nat) : list Z :=
  map (fun k => step * Z.of_nat k) (seq first n).

(** Running worlds whose history is still empty (the state of the first
    render, with the gate of the clock open). *)
Definition kaspa_unseeded : Kaspa.World :=
  {| Kaspa.selectedBlock := None;
     Kaspa.started := true;
     Kaspa.statsRefs := {| Js.bps := None; Js.count := None; Js.baseHeight := Some 0 |};
     Kaspa.blocks := [];
     Kaspa.lastIdRef := 0;
     Kaspa.lastTimeRef := 0;
     Kaspa.hasStartedRef := true;
     Kaspa.rng := {| Js.draws := cycling_source; Js.cursor := 0 |};
     Kaspa.played := [];
     Kaspa.fetchPending := false |}.

Definition sui_unseeded : Sui.World :=
  {| Sui.selectedBlock := None;
     Sui.isRunning := true;
     Sui.statsRefs := {| Js.bps := None; Js.count := None; Js.baseHeight := Some 0 |};
     Sui.blocks := [];
     Sui.lastIdRef := 0;
     Sui.lastTimeRef := 0;
     Sui.hasStartedRef := true;
     Sui.rng := {| Js.draws := cycling_source; Js.cursor := 0 |};
     Sui.played := [] |}.

(** ** Facts about arrays and the random source *)

Section ListFacts.
Context {A : Type}.
Implicit Types l s : list A.

Lemma Subseq_nil_l l : Subseq [] l.
Proof. induction l; constructor; assumption. Qed.

Lemma Subseq_length s l : Subseq s l -> (length s <= length l)%nat.
Proof. induction 1; simpl; lia. Qed.

Lemma Subseq_In s l x : Subseq s l -> In x s -> In x l.
Proof.
  induction 1 as [| y s l _ IH | y s l _ IH]; simpl; intros Hin; auto.
  destruct Hin; auto.
Qed.

Lemma Subseq_NoDup s l : Subseq s l -> NoDup l -> NoDup s.
Proof.
  induction 1 as [| y s l Hs IH | y s l Hs IH]; intros Hnd; auto.
  - inversion Hnd; auto.
  - inversion Hnd as [| ? ? Hnotin Hl]; subst.
    constructor; auto.
    intros Hin. apply Hnotin. eapply Subseq_In; eauto.
Qed.

Lemma Subseq_last (pre : list A) (x : A) : Subseq [x] (pre ++ [x]).
Proof.
  induction pre; simpl.
  - apply Subseq_take, Subseq_nil.
  - apply Subseq_skip; assumption.
Qed.

Lemma slice_last_length k l : (length (Js.slice_last k l) <= k)%nat.
Proof. unfold Js.slice_last. rewrite length_skipn. lia. Qed.

Lemma slice_last_suffix k l : exists pre, l = pre ++ Js.slice_last k l.
Proof.
  exists (firstn (length l - k) l). unfold Js.slice_last.
  symmetry. apply firstn_skipn.
Qed.

Lemma slice_last_In k l x : In x (Js.slice_last k l) -> In x l.
Proof.
  destruct (slice_last_suffix k l) as [pre Hpre]. intros Hin.
  rewrite Hpre. apply in_or_app. right. assumption.
Qed.

Lemma newest_in_slice k l :
  l <> [] -> (1 <= k)%nat ->
  exists pre b, nth_error l (length l - 1) = Some b /\ Js.slice_last k l = pre ++ [b].
Proof.
  intros Hne Hk.
  destruct (exists_last Hne) as [front [b Hl]]. subst l.
  exists (skipn (length front + 1 - k) front), b. split.
  - rewrite length_app. simpl.
    replace (length front + 1 - 1)%nat with (length front) by lia.
    rewrite nth_error_app2 by lia. rewrite Nat.sub_diag. reflexivity.
  - unfold Js.slice_last. rewrite length_app. simpl.
    rewrite skipn_app.
    replace (length front + 1 - k - length front)%nat with 0%nat by lia.
    reflexivity.
Qed.

End ListFacts.

Lemma advance_0 g : advance 0 g = g.
Proof. destruct g; reflexivity. Qed.

Lemma advance_advance n m g : advance n (advance m g) = advance (n + m) g.
Proof. unfold advance; simpl. f_equal. lia. Qed.

(** A [forEach] whose callback pushes [f b] when a fresh draw exceeds [thr]
    returns the accumulator followed by a subsequence of the candidates, and
    consumes one draw per candidate. *)
Section CoinFlips.
Context {A : Type} (f : A -> Z) (thr : float).
Variable step : A -> list Z -> Js.Rand (list Z).
Hypothesis step_eq : forall b acc g,
  step b acc g =
  (if Js.gtb (Js.draws g (Js.cursor g)) thr then Js.push acc (f b) else acc,
   advance 1 g).

Lemma forEach_coins (l : list A) : forall acc g,
  exists sel, Subseq sel (map f l)
              /\ Js.forEach l step acc g = (acc ++ sel, advance (length l) g).
Proof.
  induction l as [| b rest IH]; intros acc g; simpl.
  - exists []. split; [constructor |].
    unfold Js.ret. rewrite app_nil_r, advance_0. reflexivity.
  - unfold Js.bind. rewrite step_eq.
    destruct (Js.gtb (Js.draws g (Js.cursor g)) thr).
    + destruct (IH (Js.push acc (f b)) (advance 1 g)) as [sel [Hsub Heq]].
      exists (f b :: sel). split; [apply Subseq_take; assumption |].
      rewrite Heq, advance_advance. unfold Js.push.
      rewrite <- app_assoc. simpl.
      replace (length rest + 1)%nat with (S (length rest)) by lia. reflexivity.
    + destruct (IH acc (advance 1 g)) as [sel [Hsub Heq]].
      exists sel. split; [apply Subseq_skip; assumption |].
      rewrite Heq, advance_advance.
      replace (length rest + 1)%nat with (S (length rest)) by lia. reflexivity.
Qed.

(** The shape both themes give to "find parents", for a window of [K]. *)
Lemma findParents_shape (K : nat) (blocks : list A) (g : Js.Rng) :
  (1 <= K)%nat ->
  let r :=
    Js.bind (Js.forEach (Js.slice_last K blocks) step [])
      (fun parents =>
         Js.ret (if (length parents =? 0)%nat && (0 <? length blocks)%nat
                 then match nth_error blocks (length blocks - 1) with
                      | Some newest => Js.push parents (f newest)
                      | None => parents
                      end
                 else parents)) g in
  Subseq (fst r) (map f (Js.slice_last K blocks))
  /\ snd r = advance (length (Js.slice_last K blocks)) g
  /\ (blocks <> [] -> fst r <> []).
Proof.
  intros HK. cbv zeta. unfold Js.bind.
  destruct (forEach_coins (Js.slice_last K blocks) [] g) as [sel [Hsub Heq]].
  rewrite Heq. simpl. unfold Js.ret. simpl.
  destruct sel as [| p sel]; simpl.
  - destruct blocks as [| b0 rest].
    + simpl. repeat split; auto.
    + destruct (newest_in_slice K (b0 :: rest)) as [pre [b [Hnth Hslice]]];
        [discriminate | assumption |].
      replace (0 <? length (b0 :: rest))%nat with true by reflexivity.
      rewrite Hnth. simpl. repeat split.
      * rewrite Hslice, map_app. simpl. apply Subseq_last.
      * discriminate.
  - repeat split; auto. discriminate.
Qed.

End CoinFlips.

(** ** Facts about a capped history *)

Section History.
Context {B : Type} (id : B -> Z).

Lemma sorted_snoc (l : list Z) (x : Z) :
  StronglySorted Z.lt l -> Forall (fun y => y < x) l ->
  StronglySorted Z.lt (l ++ [x]).
Proof.
  induction 1 as [| y l Hs IH Hy]; intros Hall; simpl.
  - repeat constructor.
  - inversion Hall; subst. constructor; auto.
    apply Forall_app. split; auto.
Qed.

Lemma sorted_NoDup (l : list Z) : StronglySorted Z.lt l -> NoDup l.
Proof.
  induction 1 as [| y l Hs IH Hy]; constructor; auto.
  intros Hin. rewrite Forall_forall in Hy. specialize (Hy _ Hin). lia.
Qed.

Lemma sorted_tl (l : list Z) : StronglySorted Z.lt l -> StronglySorted Z.lt (tl l).
Proof. destruct 1; simpl; auto. constructor. Qed.

Lemma history_ok_NoDup cap lastId blocks :
  history_ok id cap lastId blocks -> NoDup (map id blocks).
Proof. intros [Hs _]. apply sorted_NoDup; assumption. Qed.

Lemma history_ok_below cap lastId blocks a :
  history_ok id cap lastId blocks -> In a blocks -> 0 <= id a <= lastId.
Proof.
  intros [_ [Hall _]] Hin. rewrite Forall_forall in Hall. auto.
Qed.

(** Appending the block with the next id and shifting when the cap is
    exceeded keeps the history well formed. *)
Lemma history_ok_append cap lastId blocks b :
  (1 <= cap)%nat ->
  history_ok id cap lastId blocks -> id b = lastId + 1 ->
  history_ok id cap (lastId + 1)
    (let updated := blocks ++ [b] in
     if (cap <? length updated)%nat then Js.shift updated else updated).
Proof.
  intros Hcap [Hs [Hall [Hne Hlen]]] Hid. cbv zeta.
  assert (Hs' : StronglySorted Z.lt (map id (blocks ++ [b]))).
  { rewrite map_app. simpl. apply sorted_snoc; auto.
    rewrite Forall_map. eapply Forall_impl; [| exact Hall].
    simpl. intros a Ha. lia. }
  assert (Hall' : Forall (fun a => 0 <= id a <= lastId + 1) (blocks ++ [b])).
  { apply Forall_app. split.
    - eapply Forall_impl; [| exact Hall]. simpl. intros a Ha. lia.
    - constructor; [| constructor].
      rewrite Forall_forall in Hall.
      destruct blocks as [| a0 rest]; [congruence |].
      specialize (Hall a0 (or_introl eq_refl)). lia. }
  destruct (Nat.ltb_spec cap (length (blocks ++ [b]))) as [Hover | Hfit].
  - destruct blocks as [| a0 rest]; [congruence |].
    simpl in *. rewrite length_app in Hover. simpl in Hover.
    repeat split.
    + inversion Hs'; assumption.
    + inversion Hall'; assumption.
    + destruct rest; discriminate.
    + rewrite length_app. simpl. lia.
  - repeat split; auto.
    destruct blocks; discriminate.
Qed.

(** When the cap is exceeded the block that leaves is the head of the
    history, and its id is below the id of every block that stays. *)
Lemma history_evicts_lowest cap lastId blocks b :
  history_ok id cap lastId blocks -> id b = lastId + 1 ->
  (cap < length (blocks ++ [b]))%nat ->
  exists oldest rest,
    blocks = oldest :: rest
    /\ (let updated := blocks ++ [b] in
        if (cap <? length updated)%nat then Js.shift updated else updated)
       = rest ++ [b]
    /\ Forall (fun s => id oldest < id s) (rest ++ [b]).
Proof.
  intros [Hs [Hall [Hne Hlen]]] Hid Hover. cbv zeta.
  destruct blocks as [| oldest rest]; [congruence |].
  exists oldest, rest. split; [reflexivity |]. split.
  - destruct (Nat.ltb_spec cap (length ((oldest :: rest) ++ [b]))); [reflexivity | lia].
  - apply Forall_app. split.
    + simpl in Hs. inversion Hs as [| ? ? _ Hlt]; subst.
      rewrite Forall_map in Hlt. exact Hlt.
    + constructor; [| constructor].
      inversion Hall as [| ? ? Hb _]; subst. lia.
Qed.

End History.

(** ** Facts about the first theme *)

Section KaspaFacts.
Context {RT : Js.Runtime}.

Lemma kaspa_findParents_spec (blocks : list Kaspa.BlockData) (g : Js.Rng) :
  Subseq (fst (Kaspa.findParents blocks g)) (map Kaspa.id (Js.slice_last 8 blocks))
  /\ snd (Kaspa.findParents blocks g) = advance (length (Js.slice_last 8 blocks)) g
  /\ (blocks <> [] -> fst (Kaspa.findParents blocks g) <> []).
Proof.
  apply (findParents_shape Kaspa.id 0.6%float Kaspa.linkParent); [| lia].
  intros b acc g0. reflexivity.
Qed.

(** The fields of a new block that the properties are about. *)
Lemma kaspa_newBlock_spec (now newId : Z) (blocks : list Kaspa.BlockData) (g : Js.Rng) :
  let b := fst (fst (Kaspa.newBlock now newId blocks g)) in
  Kaspa.id b = newId
  /\ Kaspa.createdAt b = now
  /\ Kaspa.parents b = fst (Kaspa.findParents blocks (advance 2 g))
  /\ Kaspa.color b =
     fst (Kaspa.colorLogic
            (Js.draws g (length (Js.slice_last 8 blocks) + (2 + Js.cursor g)))).
Proof.
  cbv zeta. unfold Kaspa.newBlock, Js.bind, Js.Math_random.
  cbn [Js.draws Js.cursor].
  change {| Js.draws := Js.draws g; Js.cursor := S (S (Js.cursor g)) |}
    with (advance 2 g).
  destruct (kaspa_findParents_spec blocks (advance 2 g)) as [_ [Hrng _]].
  destruct (Kaspa.findParents blocks (advance 2 g)) as [ps g3].
  simpl in Hrng. subst g3. cbn [Js.draws Js.cursor advance fst].
  destruct (Kaspa.colorLogic _) as [c ty].
  destruct ty; simpl; auto.
Qed.

Lemma kaspa_frame_idle (now : Z) (w : Kaspa.World) :
  Kaspa.fires now w = false -> Kaspa.frame now w = (w, None).
Proof.
  unfold Kaspa.fires, Kaspa.frame.
  destruct (Kaspa.hasStartedRef w), (Kaspa.started w); simpl; try reflexivity.
  intros ->. reflexivity.
Qed.

Lemma kaspa_frame_fires (now : Z) (w : Kaspa.World) :
  Kaspa.fires now w = true ->
  let b := fst (fst (Kaspa.newBlock now (Kaspa.lastIdRef w + 1) (Kaspa.blocks w) (Kaspa.rng w))) in
  let w' := fst (Kaspa.frame now w) in
  snd (Kaspa.frame now w) = Some b
  /\ Kaspa.blocks w' = Kaspa.appendBlock b (Kaspa.blocks w)
  /\ Kaspa.lastIdRef w' = Kaspa.lastIdRef w + 1
  /\ Kaspa.lastTimeRef w' = now
  /\ Kaspa.selectedBlock w' = Kaspa.selectedBlock w
  /\ Kaspa.started w' = Kaspa.started w
  /\ Kaspa.hasStartedRef w' = Kaspa.hasStartedRef w
  /\ Kaspa.fetchPending w' = Kaspa.fetchPending w.
Proof.
  unfold Kaspa.fires, Kaspa.frame.
  destruct (Kaspa.hasStartedRef w), (Kaspa.started w); simpl; try discriminate.
  intros ->.
  destruct (Kaspa.newBlock _ _ _ _) as [[b tone] g]. simpl.
  repeat split.
Qed.

Lemma kaspa_frame_some (now : Z) (w : Kaspa.World) (b : Kaspa.BlockData) :
  snd (Kaspa.frame now w) = Some b -> Kaspa.fires now w = true.
Proof.
  destruct (Kaspa.fires now w) eqn:Hf; [reflexivity |].
  rewrite (kaspa_frame_idle _ _ Hf). discriminate.
Qed.

Lemma kaspa_mount_inv t0 t1 src : KaspaInv (Kaspa.mount t0 t1 src).
Proof.
  unfold KaspaInv, history_ok. simpl. repeat split.
  - repeat constructor.
  - repeat constructor; simpl; lia.
  - discriminate.
  - lia.
Qed.

Lemma kaspa_frame_inv now w : KaspaInv w -> KaspaInv (Kaspa.useFrame now w).
Proof.
  intros Hinv. unfold Kaspa.useFrame.
  destruct (Kaspa.fires now w) eqn:Hf.
  - destruct (kaspa_frame_fires now w Hf) as [_ [Hb [Hid _]]].
    unfold KaspaInv. rewrite Hb, Hid.
    apply (history_ok_append Kaspa.id 75); [lia | exact Hinv |].
    apply kaspa_newBlock_spec.
  - rewrite (kaspa_frame_idle _ _ Hf). exact Hinv.
Qed.

Lemma kaspa_step_inv e w : KaspaInv w -> KaspaInv (Kaspa.step e w).
Proof.
  intros Hinv. destruct e as [now | o | | i |]; simpl.
  - apply kaspa_frame_inv; assumption.
  - destruct (Kaspa.fetchPending w); [| assumption].
    destruct o as [| status [data |]]; simpl; try exact Hinv.
    unfold Kaspa.onData.
    destruct (_ && _); exact Hinv.
  - exact Hinv.
  - destruct (nth_error (Kaspa.blocks w) i); exact Hinv.
  - exact Hinv.
Qed.

Lemma kaspa_run_inv evs : forall w, KaspaInv w -> KaspaInv (Kaspa.run evs w).
Proof.
  induction evs as [| e rest IH]; intros w Hinv; simpl; auto.
  apply IH, kaspa_step_inv, Hinv.
Qed.

Lemma kaspa_reachable_inv t0 t1 src evs :
  KaspaInv (Kaspa.run evs (Kaspa.mount t0 t1 src)).
Proof. apply kaspa_run_inv, kaspa_mount_inv. Qed.

End KaspaFacts.

(** ** Facts about the second theme *)

Section SuiFacts.
Context {RT : Js.Runtime}.

Lemma sui_findParents_spec (blocks : list Sui.BlockData) (g : Js.Rng) :
  Subseq (fst (Sui.findParents blocks g)) (map Sui.id (Js.slice_last 6 blocks))
  /\ snd (Sui.findParents blocks g) = advance (length (Js.slice_last 6 blocks)) g
  /\ (blocks <> [] -> fst (Sui.findParents blocks g) <> []).
Proof.
  apply (findParents_shape Sui.id 0.5%float Sui.linkParent); [| lia].
  intros b acc g0. reflexivity.
Qed.

Lemma sui_newBlock_spec (now newId : Z) (blocks : list Sui.BlockData) (g : Js.Rng) :
  let b := fst (fst (Sui.newBlock now newId blocks g)) in
  Sui.id b = newId
  /\ Sui.createdAt b = now
  /\ Sui.parents b = fst (Sui.findParents blocks (advance 2 g))
  /\ Sui.color b =
     fst (Sui.colorLogic
            (Js.draws g (length (Js.slice_last 6 blocks) + (2 + Js.cursor g)))).
Proof.
  cbv zeta. unfold Sui.newBlock, Js.bind, Js.Math_random.
  cbn [Js.draws Js.cursor].
  change {| Js.draws := Js.draws g; Js.cursor := S (S (Js.cursor g)) |}
    with (advance 2 g).
  destruct (sui_findParents_spec blocks (advance 2 g)) as [_ [Hrng _]].
  destruct (Sui.findParents blocks (advance 2 g)) as [ps g3].
  simpl in Hrng. subst g3. cbn [Js.draws Js.cursor advance fst].
  destruct (Sui.colorLogic _) as [c ty].
  destruct ty; simpl; auto.
Qed.

Lemma sui_frame_idle (now : Z) (w : Sui.World) :
  Sui.fires now w = false -> Sui.frame now w = (w, None).
Proof.
  unfold Sui.fires, Sui.frame.
  destruct (Sui.hasStartedRef w), (Sui.isRunning w); simpl; try reflexivity.
  intros ->. reflexivity.
Qed.

Lemma sui_frame_fires (now : Z) (w : Sui.World) :
  Sui.fires now w = true ->
  let b := fst (fst (Sui.newBlock now (Sui.lastIdRef w + 1) (Sui.blocks w) (Sui.rng w))) in
  let w' := fst (Sui.frame now w) in
  snd (Sui.frame now w) = Some b
  /\ Sui.blocks w' = Sui.appendBlock b (Sui.blocks w)
  /\ Sui.lastIdRef w' = Sui.lastIdRef w + 1
  /\ Sui.lastTimeRef w' = now
  /\ Sui.selectedBlock w' = Sui.selectedBlock w
  /\ Sui.isRunning w' = Sui.isRunning w
  /\ Sui.hasStartedRef w' = Sui.hasStartedRef w.
Proof.
  unfold Sui.fires, Sui.frame.
  destruct (Sui.hasStartedRef w), (Sui.isRunning w); simpl; try discriminate.
  intros ->.
  destruct (Sui.newBlock _ _ _ _) as [[b tone] g]. simpl.
  repeat split.
Qed.

Lemma sui_frame_some (now : Z) (w : Sui.World) (b : Sui.BlockData) :
  snd (Sui.frame now w) = Some b -> Sui.fires now w = true.
Proof.
  destruct (Sui.fires now w) eqn:Hf; [reflexivity |].
  rewrite (sui_frame_idle _ _ Hf). discriminate.
Qed.

Lemma sui_mount_inv t0 t1 src : SuiInv (Sui.mount t0 t1 src).
Proof.
  unfold SuiInv, history_ok. simpl. repeat split.
  - repeat constructor.
  - repeat constructor; simpl; lia.
  - discriminate.
  - lia.
Qed.

Lemma sui_frame_inv now w : SuiInv w -> SuiInv (Sui.useFrame now w).
Proof.
  intros Hinv. unfold Sui.useFrame.
  destruct (Sui.fires now w) eqn:Hf.
  - destruct (sui_frame_fires now w Hf) as [_ [Hb [Hid _]]].
    unfold SuiInv. rewrite Hb, Hid.
    apply (history_ok_append Sui.id 40); [lia | exact Hinv |].
    apply sui_newBlock_spec.
  - rewrite (sui_frame_idle _ _ Hf). exact Hinv.
Qed.

Lemma sui_step_inv e w : SuiInv w -> SuiInv (Sui.step e w).
Proof.
  intros Hinv. destruct e as [now | | i |]; simpl.
  - apply sui_frame_inv; assumption.
  - exact Hinv.
  - destruct (nth_error (Sui.blocks w) i); exact Hinv.
  - exact Hinv.
Qed.

Lemma sui_run_inv evs : forall w, SuiInv w -> SuiInv (Sui.run evs w).
Proof.
  induction evs as [| e rest IH]; intros w Hinv; simpl; auto.
  apply IH, sui_step_inv, Hinv.
Qed.

Lemma sui_reachable_inv t0 t1 src evs :
  SuiInv (Sui.run evs (Sui.mount t0 t1 src)).
Proof. apply sui_run_inv, sui_mount_inv. Qed.

End SuiFacts.

(** ** The category draw *)

(** A double above 0.98 is above 0.95: both constants have exponent -53, and
    the comparison of two finite positive doubles is the comparison of their
    exponents and then of their mantissas. *)
Lemma gtb_098_095 (r : float) : Js.gtb r 0.98 = true -> Js.gtb r 0.95 = true.
Proof.
  unfold Js.gtb. rewrite !FloatAxioms.ltb_spec.
  change (Prim2SF 0.98) with (S754_finite false 8827055269646172 (-53)).
  change (Prim2SF 0.95) with (S754_finite false 8556839292003942 (-53)).
  unfold SFltb, SFcompare.
  destruct (Prim2SF r) as [s | s | | s m e].
  - destruct s; intros; discriminate.
  - destruct s; intros; try discriminate; reflexivity.
  - intros; discriminate.
  - destruct s; [intros; discriminate |].
    destruct (Z.compare (-53) e) eqn:He;
      [| intros _; reflexivity | intros; discriminate].
    rewrite !Pos.compare_cont_spec. unfold Pos.switch_Eq.
    destruct (Pos.compare_spec 8827055269646172 m) as [| Hm |]; try discriminate.
    intros _.
    destruct (Pos.compare_spec 8556839292003942 m) as [Heq | Hlt | Hgt].
    + subst m. vm_compute in Hm. discriminate Hm.
    + reflexivity.
    + pose proof (Pos.lt_trans _ _ _ Hm Hgt) as C. vm_compute in C. discriminate C.
Qed.

(** A draw of 0.97 gives the rarest category in both themes. *)
Lemma category_draw_097 :
  Kaspa.colorLogic 0.97 = ("#FFD700"%string, Kaspa.gold)
  /\ Sui.colorLogic 0.97 = ("#ffffff"%string, Sui.large).
Proof. split; reflexivity. Qed.

(** A draw of 0.92 gives the second category in the first theme only. *)
Lemma category_draw_092 :
  Kaspa.colorLogic 0.92 = ("#FF4081"%string, Kaspa.red)
  /\ Sui.colorLogic 0.92 = (Sui.SUI_BLUE, Sui.normal).
Proof. split; reflexivity. Qed.

(** In the first theme the second category is what a draw above 0.90 and
    not above 0.95 gives. *)
Lemma kaspa_red_iff (rnd : float) :
  snd (Kaspa.colorLogic rnd) = Kaspa.red
  <-> Js.gtb rnd 0.95 = false /\ Js.gtb rnd 0.90 = true.
Proof.
  unfold Kaspa.colorLogic.
  destruct (Js.gtb rnd 0.95), (Js.gtb rnd 0.90); simpl; split;
    try discriminate; try tauto; intros [? ?]; discriminate.
Qed.

(** X19: The color of the block a firing frame produces is the category of one
    draw: the one after x, y and the coins of the window. *)
Lemma category_from_draw {RT : Js.Runtime} :
  (forall now w b,
     snd (Kaspa.frame now w) = Some b ->
     Kaspa.color b =
     fst (Kaspa.colorLogic
            (Js.draws (Kaspa.rng w)
               (length (Js.slice_last 8 (Kaspa.blocks w))
                + (2 + Js.cursor (Kaspa.rng w))))))
  /\ (forall now w b,
        snd (Sui.frame now w) = Some b ->
        Sui.color b =
        fst (Sui.colorLogic
               (Js.draws (Sui.rng w)
                  (length (Js.slice_last 6 (Sui.blocks w))
                   + (2 + Js.cursor (Sui.rng w)))))).
Proof.
  split; intros now w b Hb.
  - destruct (kaspa_frame_fires now w (kaspa_frame_some _ _ _ Hb)) as [Hsome _].
    rewrite Hsome in Hb. injection Hb as <-. apply kaspa_newBlock_spec.
  - destruct (sui_frame_fires now w (sui_frame_some _ _ _ Hb)) as [Hsome _].
    rewrite Hsome in Hb. injection Hb as <-. apply sui_newBlock_spec.
Qed.

(** C1: the category is a function of the category draw; 0.97 gives gold
    in the first theme and large in the second, 0.92 gives red in the first
    theme only.  The second theme tests [> 0.95] before [> 0.98] in an
    if / else-if chain, so a draw above 0.98 has already been taken by the
    first test: a draw of 0.99 gives large, and no draw at all gives the
    second category (error) there, where the specification has it reachable
    exactly above 0.98. *)
Theorem sui_error_category_unreachable :
  Sui.colorLogic 0.99 = ("#ffffff"%string, Sui.large)
  /\ forall rnd : float, snd (Sui.colorLogic rnd) <> Sui.error.
Proof.
  split; [reflexivity |].
  intros rnd. unfold Sui.colorLogic.
  destruct (Js.gtb rnd 0.95) eqn:H95; simpl; [discriminate |].
  destruct (Js.gtb rnd 0.98) eqn:H98; simpl; [| discriminate].
  apply gtb_098_095 in H98. congruence.
Qed.

(** ** The bounded history *)

(** The block a frame produces carries the next id. *)
Lemma produced_block_id {RT : Js.Runtime} :
  (forall now w b,
     snd (Kaspa.frame now w) = Some b ->
     Kaspa.id b = Kaspa.lastIdRef w + 1
     /\ Kaspa.blocks (Kaspa.useFrame now w) = Kaspa.appendBlock b (Kaspa.blocks w)
     /\ Kaspa.lastIdRef (Kaspa.useFrame now w) = Kaspa.lastIdRef w + 1
     /\ Kaspa.lastTimeRef (Kaspa.useFrame now w) = now
     /\ Kaspa.parents b = fst (Kaspa.findParents (Kaspa.blocks w) (advance 2 (Kaspa.rng w))))
  /\ (forall now w b,
        snd (Sui.frame now w) = Some b ->
        Sui.id b = Sui.lastIdRef w + 1
        /\ Sui.blocks (Sui.useFrame now w) = Sui.appendBlock b (Sui.blocks w)
        /\ Sui.lastIdRef (Sui.useFrame now w) = Sui.lastIdRef w + 1
        /\ Sui.lastTimeRef (Sui.useFrame now w) = now
        /\ Sui.parents b = fst (Sui.findParents (Sui.blocks w) (advance 2 (Sui.rng w)))).
Proof.
  split; intros now w b Hb.
  - destruct (kaspa_frame_fires now w (kaspa_frame_some _ _ _ Hb))
      as [Hsome [Hblocks [Hid [Htime _]]]].
    rewrite Hsome in Hb. injection Hb as Hb.
    unfold Kaspa.useFrame. rewrite Hblocks, Hid, Htime, Hb.
    destruct (kaspa_newBlock_spec now (Kaspa.lastIdRef w + 1) (Kaspa.blocks w) (Kaspa.rng w))
      as [Hi [_ [Hp _]]].
    rewrite Hb in Hi, Hp. auto.
  - destruct (sui_frame_fires now w (sui_frame_some _ _ _ Hb))
      as [Hsome [Hblocks [Hid [Htime _]]]].
    rewrite Hsome in Hb. injection Hb as Hb.
    unfold Sui.useFrame. rewrite Hblocks, Hid, Htime, Hb.
    destruct (sui_newBlock_spec now (Sui.lastIdRef w + 1) (Sui.blocks w) (Sui.rng w))
      as [Hi [_ [Hp _]]].
    rewrite Hb in Hi, Hp. auto.
Qed.

(** C2: however many events the page has seen since it was mounted, the
    history holds at most 75 blocks in the first theme and 40 in the second;
    and when appending the new block exceeds the cap, the block that leaves
    is the first of the history, whose id is below the id of every block
    that stays. *)
Theorem history_bounded_fifo {RT : Js.Runtime} :
  (forall t0 t1 src evs,
     let w := Kaspa.run evs (Kaspa.mount t0 t1 src) in
     (length (Kaspa.blocks w) <= 75)%nat
     /\ forall now b,
          snd (Kaspa.frame now w) = Some b ->
          (75 < length (Kaspa.blocks w ++ [b]))%nat ->
          exists oldest rest,
            Kaspa.blocks w = oldest :: rest
            /\ Kaspa.blocks (Kaspa.useFrame now w) = rest ++ [b]
            /\ Forall (fun s => Kaspa.id oldest < Kaspa.id s) (rest ++ [b]))
  /\ (forall t0 t1 src evs,
        let w := Sui.run evs (Sui.mount t0 t1 src) in
        (length (Sui.blocks w) <= 40)%nat
        /\ forall now b,
             snd (Sui.frame now w) = Some b ->
             (40 < length (Sui.blocks w ++ [b]))%nat ->
             exists oldest rest,
               Sui.blocks w = oldest :: rest
               /\ Sui.blocks (Sui.useFrame now w) = rest ++ [b]
               /\ Forall (fun s => Sui.id oldest < Sui.id s) (rest ++ [b])).
Proof.
  split; intros t0 t1 src evs w.
  - pose proof (kaspa_reachable_inv t0 t1 src evs) as Hinv. fold w in Hinv.
    split; [apply Hinv |].
    intros now b Hb Hover.
    destruct (proj1 produced_block_id now w b Hb) as [Hid [Hblocks _]].
    destruct (history_evicts_lowest Kaspa.id 75 _ _ b Hinv Hid Hover)
      as [oldest [rest [Hw [Happ Hlow]]]].
    exists oldest, rest. repeat split; auto.
    rewrite Hblocks. exact Happ.
  - pose proof (sui_reachable_inv t0 t1 src evs) as Hinv. fold w in Hinv.
    split; [apply Hinv |].
    intros now b Hb Hover.
    destruct (proj2 produced_block_id now w b Hb) as [Hid [Hblocks _]].
    destruct (history_evicts_lowest Sui.id 40 _ _ b Hinv Hid Hover)
      as [oldest [rest [Hw [Happ Hlow]]]].
    exists oldest, rest. repeat split; auto.
    rewrite Hblocks. exact Happ.
Qed.

(** ** Parent links *)

(** What "find parents" returns on a well-formed history: at least one id,
    each the id of a block of the history, no id twice, at most as many as
    the window is wide. *)
Lemma parents_of_history {B : Type} (id : B -> Z) (K cap : nat) (lastId : Z)
    (blocks : list B) (ps : list Z) :
  history_ok id cap lastId blocks ->
  Subseq ps (map id (Js.slice_last K blocks)) ->
  Forall (fun p => exists a, In a blocks /\ id a = p /\ p < lastId + 1) ps
  /\ NoDup ps
  /\ (length ps <= K)%nat.
Proof.
  intros Hok Hsub. repeat split.
  - rewrite Forall_forall. intros p Hp.
    pose proof (Subseq_In _ _ _ Hsub Hp) as Hin.
    apply in_map_iff in Hin. destruct Hin as [a [Ha Hina]].
    apply slice_last_In in Hina.
    exists a. repeat split; auto.
    pose proof (history_ok_below id _ _ _ a Hok Hina). lia.
  - eapply Subseq_NoDup; [exact Hsub |].
    destruct (slice_last_suffix K blocks) as [pre Hpre].
    pose proof (history_ok_NoDup id _ _ _ Hok) as Hnd.
    rewrite Hpre, map_app in Hnd.
    eapply NoDup_app_remove_l; exact Hnd.
  - pose proof (Subseq_length _ _ Hsub) as Hlen.
    rewrite length_map in Hlen.
    pose proof (slice_last_length K blocks). lia.
Qed.

(** C3: a block produced by the growth clock at any moment after the page
    was mounted (the history then holds at least the genesis block) has at
    least one parent, and each parent id is the id of a block that was in
    the history when the new block was generated and is strictly below the
    id of the new block. *)
Theorem parents_exist_and_precede {RT : Js.Runtime} :
  (forall t0 t1 src evs now b,
     let w := Kaspa.run evs (Kaspa.mount t0 t1 src) in
     snd (Kaspa.frame now w) = Some b ->
     Kaspa.blocks w <> []
     /\ Kaspa.parents b <> []
     /\ Forall (fun p => exists a, In a (Kaspa.blocks w)
                                   /\ Kaspa.id a = p /\ p < Kaspa.id b)
               (Kaspa.parents b))
  /\ (forall t0 t1 src evs now b,
        let w := Sui.run evs (Sui.mount t0 t1 src) in
        snd (Sui.frame now w) = Some b ->
        Sui.blocks w <> []
        /\ Sui.parents b <> []
        /\ Forall (fun p => exists a, In a (Sui.blocks w)
                                      /\ Sui.id a = p /\ p < Sui.id b)
                  (Sui.parents b)).
Proof.
  split; intros t0 t1 src evs now b w Hb.
  - pose proof (kaspa_reachable_inv t0 t1 src evs) as Hinv. fold w in Hinv.
    destruct (proj1 produced_block_id now w b Hb) as [Hid [_ [_ [_ Hp]]]].
    destruct (kaspa_findParents_spec (Kaspa.blocks w) (advance 2 (Kaspa.rng w)))
      as [Hsub [_ Hne]].
    assert (Hnonempty : Kaspa.blocks w <> []) by apply Hinv.
    rewrite Hp, Hid. repeat split; auto.
    eapply parents_of_history; eauto.
  - pose proof (sui_reachable_inv t0 t1 src evs) as Hinv. fold w in Hinv.
    destruct (proj2 produced_block_id now w b Hb) as [Hid [_ [_ [_ Hp]]]].
    destruct (sui_findParents_spec (Sui.blocks w) (advance 2 (Sui.rng w)))
      as [Hsub [_ Hne]].
    assert (Hnonempty : Sui.blocks w <> []) by apply Hinv.
    rewrite Hp, Hid. repeat split; auto.
    eapply parents_of_history; eauto.
Qed.

(** Every block produced along a run from a well-formed world satisfies a
    property that every single frame guarantees on well-formed worlds. *)
Lemma kaspa_produced_Forall {RT : Js.Runtime} (P : Kaspa.BlockData -> Prop) :
  (forall now w b, KaspaInv w -> snd (Kaspa.frame now w) = Some b -> P b) ->
  forall evs w, KaspaInv w -> Forall P (Kaspa.produced evs w).
Proof.
  intros HP. induction evs as [| e rest IH]; intros w Hinv; simpl.
  - constructor.
  - apply Forall_app. split.
    + destruct e as [now | | | |]; try constructor.
      destruct (snd (Kaspa.frame now w)) as [b |] eqn:Hb; constructor.
      * eapply HP; eauto.
      * constructor.
    + apply IH, kaspa_step_inv, Hinv.
Qed.

Lemma sui_produced_Forall {RT : Js.Runtime} (P : Sui.BlockData -> Prop) :
  (forall now w b, SuiInv w -> snd (Sui.frame now w) = Some b -> P b) ->
  forall evs w, SuiInv w -> Forall P (Sui.produced evs w).
Proof.
  intros HP. induction evs as [| e rest IH]; intros w Hinv; simpl.
  - constructor.
  - apply Forall_app. split.
    + destruct e as [now | | |]; try constructor.
      destruct (snd (Sui.frame now w)) as [b |] eqn:Hb; constructor.
      * eapply HP; eauto.
      * constructor.
    + apply IH, sui_step_inv, Hinv.
Qed.

(** C10: every block the growth clock produces after the page was mounted
    lists no parent id twice and lists at most 8 parents in the first theme
    and at most 6 in the second. *)
Theorem parents_distinct_and_bounded {RT : Js.Runtime} :
  (forall t0 t1 src evs,
     Forall (fun b => NoDup (Kaspa.parents b) /\ (length (Kaspa.parents b) <= 8)%nat)
            (Kaspa.produced evs (Kaspa.mount t0 t1 src)))
  /\ (forall t0 t1 src evs,
        Forall (fun b => NoDup (Sui.parents b) /\ (length (Sui.parents b) <= 6)%nat)
               (Sui.produced evs (Sui.mount t0 t1 src))).
Proof.
  split; intros t0 t1 src evs.
  - apply kaspa_produced_Forall; [| apply kaspa_mount_inv].
    intros now w b Hinv Hb.
    destruct (proj1 produced_block_id now w b Hb) as [_ [_ [_ [_ Hp]]]].
    destruct (kaspa_findParents_spec (Kaspa.blocks w) (advance 2 (Kaspa.rng w)))
      as [Hsub _].
    rewrite Hp. eapply parents_of_history; eauto.
  - apply sui_produced_Forall; [| apply sui_mount_inv].
    intros now w b Hinv Hb.
    destruct (proj2 produced_block_id now w b Hb) as [_ [_ [_ [_ Hp]]]].
    destruct (sui_findParents_spec (Sui.blocks w) (advance 2 (Sui.rng w)))
      as [Hsub _].
    rewrite Hp. eapply parents_of_history; eauto.
Qed.

(** ** The id counter *)

Lemma seq_from_shift (L : Z) (n : nat) :
  map (fun k => L + 1 + Z.of_nat k) (seq 1 n)
  = map (fun k => L + Z.of_nat k) (seq 2 n).
Proof.
  rewrite <- (seq_shift n 1), map_map.
  apply map_ext. intros k. lia.
Qed.

(** Along any run the produced ids continue the counter one by one, and the
    counter ends at the last of them. *)
Lemma kaspa_produced_ids {RT : Js.Runtime} (evs : list Kaspa.Event) :
  forall w,
    map Kaspa.id (Kaspa.produced evs w)
    = map (fun k => Kaspa.lastIdRef w + Z.of_nat k)
          (seq 1 (length (Kaspa.produced evs w)))
    /\ Kaspa.lastIdRef (Kaspa.run evs w)
       = Kaspa.lastIdRef w + Z.of_nat (length (Kaspa.produced evs w)).
Proof.
  induction evs as [| e rest IH]; intros w.
  - simpl. split; [reflexivity | lia].
  - assert (Hsame : Kaspa.lastIdRef (Kaspa.step e w) = Kaspa.lastIdRef w ->
                    Kaspa.produced (e :: rest) w = Kaspa.produced rest (Kaspa.step e w) ->
                    map Kaspa.id (Kaspa.produced (e :: rest) w)
                    = map (fun k => Kaspa.lastIdRef w + Z.of_nat k)
                          (seq 1 (length (Kaspa.produced (e :: rest) w)))
                    /\ Kaspa.lastIdRef (Kaspa.run (e :: rest) w)
                       = Kaspa.lastIdRef w + Z.of_nat (length (Kaspa.produced (e :: rest) w))).
    { intros Hid Hprod. rewrite Hprod. simpl Kaspa.run.
      destruct (IH (Kaspa.step e w)) as [H1 H2]. rewrite Hid in H1, H2. auto. }
    destruct e as [now | o | | i |].
    + destruct (snd (Kaspa.frame now w)) as [b |] eqn:Hb.
      * destruct (proj1 produced_block_id now w b Hb) as [Hid [_ [Hlast _]]].
        destruct (IH (Kaspa.step (Kaspa.Frame now) w)) as [H1 H2].
        simpl Kaspa.step in H1, H2. simpl. rewrite Hb. simpl.
        rewrite H1, H2, Hlast, Hid. split.
        -- f_equal. apply seq_from_shift.
        -- lia.
      * apply Hsame; [| simpl; rewrite Hb; reflexivity].
        simpl. unfold Kaspa.useFrame.
        destruct (Kaspa.fires now w) eqn:Hf.
        -- destruct (kaspa_frame_fires now w Hf) as [Hsome _]. congruence.
        -- rewrite (kaspa_frame_idle _ _ Hf). reflexivity.
    + apply Hsame; [| reflexivity]. simpl.
      destruct (Kaspa.fetchPending w); [| reflexivity].
      destruct o as [| status [data |]]; simpl; try reflexivity.
      unfold Kaspa.onData. destruct (_ && _); reflexivity.
    + apply Hsame; reflexivity.
    + apply Hsame; [| reflexivity]. simpl.
      destruct (nth_error (Kaspa.blocks w) i); reflexivity.
    + apply Hsame; reflexivity.
Qed.

Lemma sui_produced_ids {RT : Js.Runtime} (evs : list Sui.Event) :
  forall w,
    map Sui.id (Sui.produced evs w)
    = map (fun k => Sui.lastIdRef w + Z.of_nat k)
          (seq 1 (length (Sui.produced evs w)))
    /\ Sui.lastIdRef (Sui.run evs w)
       = Sui.lastIdRef w + Z.of_nat (length (Sui.produced evs w)).
Proof.
  induction evs as [| e rest IH]; intros w.
  - simpl. split; [reflexivity | lia].
  - assert (Hsame : Sui.lastIdRef (Sui.step e w) = Sui.lastIdRef w ->
                    Sui.produced (e :: rest) w = Sui.produced rest (Sui.step e w) ->
                    map Sui.id (Sui.produced (e :: rest) w)
                    = map (fun k => Sui.lastIdRef w + Z.of_nat k)
                          (seq 1 (length (Sui.produced (e :: rest) w)))
                    /\ Sui.lastIdRef (Sui.run (e :: rest) w)
                       = Sui.lastIdRef w + Z.of_nat (length (Sui.produced (e :: rest) w))).
    { intros Hid Hprod. rewrite Hprod. simpl Sui.run.
      destruct (IH (Sui.step e w)) as [H1 H2]. rewrite Hid in H1, H2. auto. }
    destruct e as [now | | i |].
    + destruct (snd (Sui.frame now w)) as [b |] eqn:Hb.
      * destruct (proj2 produced_block_id now w b Hb) as [Hid [_ [Hlast _]]].
        destruct (IH (Sui.step (Sui.Frame now) w)) as [H1 H2].
        simpl Sui.step in H1, H2. simpl. rewrite Hb. simpl.
        rewrite H1, H2, Hlast, Hid. split.
        -- f_equal. apply seq_from_shift.
        -- lia.
      * apply Hsame; [| simpl; rewrite Hb; reflexivity].
        simpl. unfold Sui.useFrame.
        destruct (Sui.fires now w) eqn:Hf.
        -- destruct (sui_frame_fires now w Hf) as [Hsome _]. congruence.
        -- rewrite (sui_frame_idle _ _ Hf). reflexivity.
    + apply Hsame; reflexivity.
    + apply Hsame; [| reflexivity]. simpl.
      destruct (nth_error (Sui.blocks w) i); reflexivity.
    + apply Hsame; reflexivity.
Qed.

(** The blocks produced in a run are those of its due frames, one each, in
    order, each stamped with the time of its frame. *)
Lemma kaspa_produced_due {RT : Js.Runtime} (evs : list Kaspa.Event) :
  forall w, map Kaspa.createdAt (Kaspa.produced evs w) = kaspa_due evs w.
Proof.
  induction evs as [| e rest IH]; intros w; [reflexivity |].
  cbn [Kaspa.produced kaspa_due]. rewrite map_app, IH. f_equal.
  destruct e as [now | o | | i |]; try reflexivity.
  destruct (Kaspa.fires now w) eqn:Hf.
  - destruct (kaspa_frame_fires now w Hf) as [Hsome _]. rewrite Hsome.
    destruct (kaspa_newBlock_spec now (Kaspa.lastIdRef w + 1) (Kaspa.blocks w) (Kaspa.rng w))
      as [_ [Hc _]].
    cbn [map]. rewrite Hc. reflexivity.
  - rewrite (kaspa_frame_idle _ _ Hf). reflexivity.
Qed.

Lemma sui_produced_due {RT : Js.Runtime} (evs : list Sui.Event) :
  forall w, map Sui.createdAt (Sui.produced evs w) = sui_due evs w.
Proof.
  induction evs as [| e rest IH]; intros w; [reflexivity |].
  cbn [Sui.produced sui_due]. rewrite map_app, IH. f_equal.
  destruct e as [now | | i |]; try reflexivity.
  destruct (Sui.fires now w) eqn:Hf.
  - destruct (sui_frame_fires now w Hf) as [Hsome _]. rewrite Hsome.
    destruct (sui_newBlock_spec now (Sui.lastIdRef w + 1) (Sui.blocks w) (Sui.rng w))
      as [_ [Hc _]].
    cbn [map]. rewrite Hc. reflexivity.
  - rewrite (sui_frame_idle _ _ Hf). reflexivity.
Qed.

(** The blocks of a run followed by one more event. *)
Lemma kaspa_produced_snoc {RT : Js.Runtime} (evs : list Kaspa.Event) (e : Kaspa.Event) :
  forall w,
    Kaspa.produced (evs ++ [e]) w
    = Kaspa.produced evs w ++ Kaspa.produced [e] (Kaspa.run evs w).
Proof.
  induction evs as [| e0 rest IH]; intros w.
  - reflexivity.
  - cbn [app Kaspa.produced Kaspa.run]. rewrite IH, app_assoc. reflexivity.
Qed.

Lemma sui_produced_snoc {RT : Js.Runtime} (evs : list Sui.Event) (e : Sui.Event) :
  forall w,
    Sui.produced (evs ++ [e]) w
    = Sui.produced evs w ++ Sui.produced [e] (Sui.run evs w).
Proof.
  induction evs as [| e0 rest IH]; intros w.
  - reflexivity.
  - cbn [app Sui.produced Sui.run]. rewrite IH, app_assoc. reflexivity.
Qed.

(** C4: in any run of the mounted page the ids of the produced blocks are
    1, 2, 3, ... in the order of production; the block with id 0 is the
    genesis block, which has no parents, which the mount effect puts into
    the history before any frame, and which the clock never produces.  The
    blocks produced are those of the due frames of the run, one for each
    and stamped with its time, so the k-th due frame generates the id k and
    the id counter ends at the number of due frames; and a frame that is
    due after the run does generate the next id. *)
Theorem generated_ids_count_from_one {RT : Js.Runtime} :
  (forall t0 t1 src evs,
     let w0 := Kaspa.mount t0 t1 src in
     Kaspa.blocks w0 = [Kaspa.genesis t1]
     /\ Kaspa.id (Kaspa.genesis t1) = 0
     /\ Kaspa.parents (Kaspa.genesis t1) = []
     /\ map Kaspa.id (Kaspa.produced evs w0)
        = map Z.of_nat (seq 1 (length (Kaspa.produced evs w0)))
     /\ ~ In 0 (map Kaspa.id (Kaspa.produced evs w0))
     /\ map Kaspa.createdAt (Kaspa.produced evs w0) = kaspa_due evs w0
     /\ Kaspa.lastIdRef (Kaspa.run evs w0) = Z.of_nat (length (kaspa_due evs w0))
     /\ forall now,
          Kaspa.fires now (Kaspa.run evs w0) = true ->
          exists b,
            Kaspa.produced (evs ++ [Kaspa.Frame now]) w0 = Kaspa.produced evs w0 ++ [b]
            /\ Kaspa.id b = Z.of_nat (length (Kaspa.produced evs w0)) + 1
            /\ Kaspa.createdAt b = now)
  /\ (forall t0 t1 src evs,
        let w0 := Sui.mount t0 t1 src in
        Sui.blocks w0 = [Sui.genesis t1]
        /\ Sui.id (Sui.genesis t1) = 0
        /\ Sui.parents (Sui.genesis t1) = []
        /\ map Sui.id (Sui.produced evs w0)
           = map Z.of_nat (seq 1 (length (Sui.produced evs w0)))
        /\ ~ In 0 (map Sui.id (Sui.produced evs w0))
        /\ map Sui.createdAt (Sui.produced evs w0) = sui_due evs w0
        /\ Sui.lastIdRef (Sui.run evs w0) = Z.of_nat (length (sui_due evs w0))
        /\ forall now,
             Sui.fires now (Sui.run evs w0) = true ->
             exists b,
               Sui.produced (evs ++ [Sui.Frame now]) w0 = Sui.produced evs w0 ++ [b]
               /\ Sui.id b = Z.of_nat (length (Sui.produced evs w0)) + 1
               /\ Sui.createdAt b = now).
Proof.
  split; intros t0 t1 src evs w0.
  - destruct (kaspa_produced_ids evs w0) as [Hids Hlast].
    pose proof (kaspa_produced_due evs w0) as Hdue.
    assert (Heq : map Kaspa.id (Kaspa.produced evs w0)
                  = map Z.of_nat (seq 1 (length (Kaspa.produced evs w0)))).
    { rewrite Hids. apply map_ext. intros k. simpl. lia. }
    split; [reflexivity |]. split; [reflexivity |]. split; [reflexivity |].
    split; [exact Heq |]. split.
    { rewrite Heq. intros Hin. apply in_map_iff in Hin.
      destruct Hin as [k [Hk Hseq]]. apply in_seq in Hseq. lia. }
    split; [exact Hdue |]. split.
    { rewrite Hlast, <- Hdue, length_map. simpl. lia. }
    intros now Hf.
    destruct (kaspa_frame_fires now _ Hf) as [Hsome [_ [_ _]]].
    destruct (kaspa_newBlock_spec now (Kaspa.lastIdRef (Kaspa.run evs w0) + 1)
                (Kaspa.blocks (Kaspa.run evs w0)) (Kaspa.rng (Kaspa.run evs w0)))
      as [Hi [Hc _]].
    eexists. split; [| split].
    + rewrite kaspa_produced_snoc. cbn [Kaspa.produced]. rewrite Hsome.
      rewrite app_nil_r. reflexivity.
    + rewrite Hi, Hlast. simpl. lia.
    + exact Hc.
  - destruct (sui_produced_ids evs w0) as [Hids Hlast].
    pose proof (sui_produced_due evs w0) as Hdue.
    assert (Heq : map Sui.id (Sui.produced evs w0)
                  = map Z.of_nat (seq 1 (length (Sui.produced evs w0)))).
    { rewrite Hids. apply map_ext. intros k. simpl. lia. }
    split; [reflexivity |]. split; [reflexivity |]. split; [reflexivity |].
    split; [exact Heq |]. split.
    { rewrite Heq. intros Hin. apply in_map_iff in Hin.
      destruct Hin as [k [Hk Hseq]]. apply in_seq in Hseq. lia. }
    split; [exact Hdue |]. split.
    { rewrite Hlast, <- Hdue, length_map. simpl. lia. }
    intros now Hf.
    destruct (sui_frame_fires now _ Hf) as [Hsome [_ [_ _]]].
    destruct (sui_newBlock_spec now (Sui.lastIdRef (Sui.run evs w0) + 1)
                (Sui.blocks (Sui.run evs w0)) (Sui.rng (Sui.run evs w0)))
      as [Hi [Hc _]].
    eexists. split; [| split].
    + rewrite sui_produced_snoc. cbn [Sui.produced]. rewrite Hsome.
      rewrite app_nil_r. reflexivity.
    + rewrite Hi, Hlast. simpl. lia.
    + exact Hc.
Qed.

(** Three frames 301 ms (601 ms) apart after mount are all due and generate
    the ids 1, 2, 3; the frame after them is due too and generates 4. *)
Lemma generated_ids_count_from_one_witness :
  (map Kaspa.id
     (Kaspa.produced (RT := plain_runtime)
        (Kaspa.FetchSettled Js.NetworkError :: Kaspa.ClickStart :: kaspa_frames 301 3)
        (Kaspa.mount 0 0 cycling_source)) = [1; 2; 3]
   /\ kaspa_due (RT := plain_runtime)
        (Kaspa.FetchSettled Js.NetworkError :: Kaspa.ClickStart :: kaspa_frames 301 3)
        (Kaspa.mount 0 0 cycling_source) = [301; 602; 903]
   /\ exists b,
        Kaspa.produced (RT := plain_runtime)
          ((Kaspa.FetchSettled Js.NetworkError :: Kaspa.ClickStart :: kaspa_frames 301 3)
           ++ [Kaspa.Frame 1204])
          (Kaspa.mount 0 0 cycling_source)
        = Kaspa.produced (RT := plain_runtime)
            (Kaspa.FetchSettled Js.NetworkError :: Kaspa.ClickStart :: kaspa_frames 301 3)
            (Kaspa.mount 0 0 cycling_source) ++ [b]
        /\ Kaspa.id b = 4
        /\ Kaspa.createdAt b = 1204)
  /\ (map Sui.id
        (Sui.produced (RT := plain_runtime) (sui_frames 601 3)
           (Sui.mount 0 0 cycling_source)) = [1; 2; 3]
      /\ sui_due (RT := plain_runtime) (sui_frames 601 3)
           (Sui.mount 0 0 cycling_source) = [601; 1202; 1803]
      /\ exists b,
           Sui.produced (RT := plain_runtime) (sui_frames 601 3 ++ [Sui.Frame 2404])
             (Sui.mount 0 0 cycling_source)
           = Sui.produced (RT := plain_runtime) (sui_frames 601 3)
               (Sui.mount 0 0 cycling_source) ++ [b]
           /\ Sui.id b = 4
           /\ Sui.createdAt b = 2404).
Proof.
  split.
  - destruct (proj1 (generated_ids_count_from_one (RT := plain_runtime)) 0 0 cycling_source
                (Kaspa.FetchSettled Js.NetworkError :: Kaspa.ClickStart :: kaspa_frames 301 3))
      as [_ [_ [_ [Hids [_ [Hdue [_ Hnext]]]]]]].
    split; [| split].
    + rewrite Hids. vm_compute. reflexivity.
    + rewrite <- Hdue. vm_compute. reflexivity.
    + destruct (Hnext 1204) as [b [Hb [Hid Hc]]].
      * vm_compute. reflexivity.
      * exists b. split; [exact Hb | split; [| exact Hc]].
        rewrite Hid. vm_compute. reflexivity.
  - destruct (proj2 (generated_ids_count_from_one (RT := plain_runtime)) 0 0 cycling_source
                (sui_frames 601 3))
      as [_ [_ [_ [Hids [_ [Hdue [_ Hnext]]]]]]].
    split; [| split].
    + rewrite Hids. vm_compute. reflexivity.
    + rewrite <- Hdue. vm_compute. reflexivity.
    + destruct (Hnext 2404) as [b [Hb [Hid Hc]]].
      * vm_compute. reflexivity.
      * exists b. split; [exact Hb | split; [| exact Hc]].
        rewrite Hid. vm_compute. reflexivity.
Defined.

(** ** The growth clock *)

(** C7: a frame at which less than the interval (300 ms in the first theme,
    600 ms in the second) has passed since the last fire returns the world
    it was given (history, selection, overlay statistics, refs, random
    source and sound log) and produces no block. *)
Theorem frame_below_interval_changes_nothing {RT : Js.Runtime} :
  (forall now w,
     now - Kaspa.lastTimeRef w < 300 ->
     Kaspa.frame now w = (w, None) /\ Kaspa.step (Kaspa.Frame now) w = w)
  /\ (forall now w,
        now - Sui.lastTimeRef w < 600 ->
        Sui.frame now w = (w, None) /\ Sui.step (Sui.Frame now) w = w).
Proof.
  split; intros now w Hearly.
  - assert (Hidle : Kaspa.frame now w = (w, None)).
    { apply kaspa_frame_idle. unfold Kaspa.fires.
      replace (now - Kaspa.lastTimeRef w >? 300) with false.
      - apply andb_false_r.
      - symmetry. rewrite Z.gtb_ltb. apply Z.ltb_ge. lia. }
    split; [exact Hidle |].
    simpl. unfold Kaspa.useFrame. rewrite Hidle. reflexivity.
  - assert (Hidle : Sui.frame now w = (w, None)).
    { apply sui_frame_idle. unfold Sui.fires.
      replace (now - Sui.lastTimeRef w >? 600) with false.
      - apply andb_false_r.
      - symmetry. rewrite Z.gtb_ltb. apply Z.ltb_ge. lia. }
    split; [exact Hidle |].
    simpl. unfold Sui.useFrame. rewrite Hidle. reflexivity.
Qed.

Lemma appendBlock_length {RT : Js.Runtime} :
  (forall b blocks,
     (length (Kaspa.appendBlock b blocks) <= S (length blocks))%nat)
  /\ (forall b blocks,
        (length (Sui.appendBlock b blocks) <= S (length blocks))%nat).
Proof.
  split; intros b blocks.
  - unfold Kaspa.appendBlock. cbv zeta.
    destruct (75 <? length (blocks ++ [b]))%nat.
    + destruct blocks; simpl; [lia |]. rewrite length_app. simpl. lia.
    + rewrite length_app. simpl. lia.
  - unfold Sui.appendBlock. cbv zeta.
    destruct (40 <? length (blocks ++ [b]))%nat.
    + destruct blocks; simpl; [lia |]. rewrite length_app. simpl. lia.
    + rewrite length_app. simpl. lia.
Qed.

(** C8: one invocation of the clock, whatever the time [now], produces at
    most one block, lengthens the history by at most one and moves the id
    counter by at most one; and when it fires it produces exactly one block,
    appends that block, and sets the last-fire time to [now]. *)
Theorem frame_produces_at_most_one {RT : Js.Runtime} :
  (forall now w,
     (length (Kaspa.produced [Kaspa.Frame now] w) <= 1)%nat
     /\ (length (Kaspa.blocks (Kaspa.useFrame now w)) <= S (length (Kaspa.blocks w)))%nat
     /\ Kaspa.lastIdRef w <= Kaspa.lastIdRef (Kaspa.useFrame now w) <= Kaspa.lastIdRef w + 1
     /\ (Kaspa.fires now w = true ->
         Kaspa.lastTimeRef (Kaspa.useFrame now w) = now
         /\ exists b, Kaspa.produced [Kaspa.Frame now] w = [b]
                      /\ Kaspa.blocks (Kaspa.useFrame now w)
                         = Kaspa.appendBlock b (Kaspa.blocks w)))
  /\ (forall now w,
        (length (Sui.produced [Sui.Frame now] w) <= 1)%nat
        /\ (length (Sui.blocks (Sui.useFrame now w)) <= S (length (Sui.blocks w)))%nat
        /\ Sui.lastIdRef w <= Sui.lastIdRef (Sui.useFrame now w) <= Sui.lastIdRef w + 1
        /\ (Sui.fires now w = true ->
            Sui.lastTimeRef (Sui.useFrame now w) = now
            /\ exists b, Sui.produced [Sui.Frame now] w = [b]
                         /\ Sui.blocks (Sui.useFrame now w)
                            = Sui.appendBlock b (Sui.blocks w))).
Proof.
  split; intros now w.
  - destruct (Kaspa.fires now w) eqn:Hf.
    + destruct (kaspa_frame_fires now w Hf) as [Hsome [Hblocks [Hid [Htime _]]]].
      unfold Kaspa.useFrame. simpl. rewrite Hsome, Hblocks, Hid, Htime. simpl.
      repeat split; try lia.
      * apply appendBlock_length.
      * eexists. split; reflexivity.
    + unfold Kaspa.useFrame. simpl.
      rewrite (kaspa_frame_idle _ _ Hf). simpl.
      repeat split; try lia; discriminate.
  - destruct (Sui.fires now w) eqn:Hf.
    + destruct (sui_frame_fires now w Hf) as [Hsome [Hblocks [Hid [Htime _]]]].
      unfold Sui.useFrame. simpl. rewrite Hsome, Hblocks, Hid, Htime. simpl.
      repeat split; try lia.
      * apply appendBlock_length.
      * eexists. split; reflexivity.
    + unfold Sui.useFrame. simpl.
      rewrite (sui_frame_idle _ _ Hf). simpl.
      repeat split; try lia; discriminate.
Qed.

(** C9: when the clock fires on an empty history it still produces a block,
    with the next id and the current time, whose parent list is empty, and
    the history becomes that one block; a produced block with a parent
    therefore comes from a non-empty history. *)
Theorem empty_history_no_parents {RT : Js.Runtime} :
  (forall now w,
     Kaspa.blocks w = [] -> Kaspa.fires now w = true ->
     exists b, snd (Kaspa.frame now w) = Some b
               /\ Kaspa.id b = Kaspa.lastIdRef w + 1
               /\ Kaspa.createdAt b = now
               /\ Kaspa.parents b = []
               /\ Kaspa.blocks (Kaspa.useFrame now w) = [b])
  /\ (forall now w b,
        snd (Kaspa.frame now w) = Some b -> Kaspa.parents b <> [] ->
        Kaspa.blocks w <> [])
  /\ (forall now w,
        Sui.blocks w = [] -> Sui.fires now w = true ->
        exists b, snd (Sui.frame now w) = Some b
                  /\ Sui.id b = Sui.lastIdRef w + 1
                  /\ Sui.createdAt b = now
                  /\ Sui.parents b = []
                  /\ Sui.blocks (Sui.useFrame now w) = [b])
  /\ (forall now w b,
        snd (Sui.frame now w) = Some b -> Sui.parents b <> [] ->
        Sui.blocks w <> []).
Proof.
  assert (HK : forall now w b,
             snd (Kaspa.frame now w) = Some b -> Kaspa.blocks w = [] ->
             Kaspa.parents b = []).
  { intros now w b Hb Hempty.
    destruct (proj1 produced_block_id now w b Hb) as [_ [_ [_ [_ Hp]]]].
    rewrite Hp, Hempty. reflexivity. }
  assert (HS : forall now w b,
             snd (Sui.frame now w) = Some b -> Sui.blocks w = [] ->
             Sui.parents b = []).
  { intros now w b Hb Hempty.
    destruct (proj2 produced_block_id now w b Hb) as [_ [_ [_ [_ Hp]]]].
    rewrite Hp, Hempty. reflexivity. }
  repeat split.
  - intros now w Hempty Hf.
    destruct (kaspa_frame_fires now w Hf) as [Hsome [Hblocks _]].
    eexists. split; [exact Hsome |].
    destruct (kaspa_newBlock_spec now (Kaspa.lastIdRef w + 1) (Kaspa.blocks w) (Kaspa.rng w))
      as [Hi [Hc _]].
    repeat split; auto.
    + eapply HK; eauto.
    + unfold Kaspa.useFrame. rewrite Hblocks, Hempty. reflexivity.
  - intros now w b Hb Hp Hempty. apply Hp. eapply HK; eauto.
  - intros now w Hempty Hf.
    destruct (sui_frame_fires now w Hf) as [Hsome [Hblocks _]].
    eexists. split; [exact Hsome |].
    destruct (sui_newBlock_spec now (Sui.lastIdRef w + 1) (Sui.blocks w) (Sui.rng w))
      as [Hi [Hc _]].
    repeat split; auto.
    + eapply HS; eauto.
    + unfold Sui.useFrame. rewrite Hblocks, Hempty. reflexivity.
  - intros now w b Hb Hp Hempty. apply Hp. eapply HS; eauto.
Qed.

(** ** The selection *)

Lemma NoDup_map_injective {B : Type} (f : B -> Z) (l : list B) (a b : B) :
  NoDup (map f l) -> In a l -> In b l -> f a = f b -> a = b.
Proof.
  induction l as [| x l IH]; simpl; intros Hnd Ha Hb Heq; [contradiction |].
  inversion Hnd as [| ? ? Hnotin Hnd']; subst.
  destruct Ha as [-> | Ha], Hb as [-> | Hb]; auto.
  - exfalso. apply Hnotin. rewrite Heq. apply in_map. assumption.
  - exfalso. apply Hnotin. rewrite <- Heq. apply in_map. assumption.
Qed.

Lemma filter_none {B : Type} (p : B -> bool) (l : list B) :
  (forall b, In b l -> p b = false) -> filter p l = [].
Proof.
  induction l as [| x l IH]; simpl; intros Hall; [reflexivity |].
  rewrite (Hall x (or_introl eq_refl)). apply IH. intros b Hb. apply Hall. auto.
Qed.

Lemma filter_flags_length {B : Type} (p : B -> bool) (l : list B) :
  length (filter snd (map (fun b => (b, p b)) l)) = length (filter p l).
Proof.
  induction l as [| x l IH]; simpl; [reflexivity |].
  destruct (p x); simpl; rewrite IH; reflexivity.
Qed.

Lemma filter_id_at_most_one {B : Type} (f : B -> Z) (i : Z) (l : list B) :
  NoDup (map f l) -> (length (filter (fun b => (i =? f b)%Z) l) <= 1)%nat.
Proof.
  induction l as [| x l IH]; simpl; intros Hnd; [lia |].
  inversion Hnd as [| ? ? Hnotin Hnd']; subst.
  destruct (Z.eqb_spec i (f x)) as [-> | Hne]; simpl; auto.
  rewrite filter_none; [simpl; lia |].
  intros b Hb.
  destruct (Z.eqb_spec (f x) (f b)) as [Heq | _]; [| reflexivity].
  exfalso. apply Hnotin. rewrite Heq. apply in_map. assumption.
Qed.

(** After the selection is cleared no block is rendered as selected. *)
Lemma cleared_selection_marks_nothing :
  (forall w, Forall (fun p => snd p = false)
                    (Kaspa.render (Kaspa.setSelectedBlock None w)))
  /\ (forall w, Forall (fun p => snd p = false)
                       (Sui.render (Sui.setSelectedBlock None w))).
Proof.
  split; intros w; apply Forall_forall; intros [b flag] Hin;
    apply in_map_iff in Hin; destruct Hin as [a [Ha _]];
    injection Ha as _ <-; reflexivity.
Qed.

(** X18: In any run of the mounted page at most one block is rendered as
    selected. *)
Lemma at_most_one_selected {RT : Js.Runtime} :
  (forall t0 t1 src evs,
     (length (filter snd (Kaspa.render (Kaspa.run evs (Kaspa.mount t0 t1 src)))) <= 1)%nat)
  /\ (forall t0 t1 src evs,
        (length (filter snd (Sui.render (Sui.run evs (Sui.mount t0 t1 src)))) <= 1)%nat).
Proof.
  split; intros t0 t1 src evs.
  - pose proof (history_ok_NoDup Kaspa.id _ _ _ (kaspa_reachable_inv t0 t1 src evs)) as Hnd.
    set (w := Kaspa.run evs (Kaspa.mount t0 t1 src)) in *.
    unfold Kaspa.render. rewrite filter_flags_length.
    unfold Kaspa.isSelected.
    destruct (Kaspa.selectedBlockId w) as [i |].
    + apply (filter_id_at_most_one Kaspa.id i). exact Hnd.
    + rewrite filter_none; [simpl; lia | reflexivity].
  - pose proof (history_ok_NoDup Sui.id _ _ _ (sui_reachable_inv t0 t1 src evs)) as Hnd.
    set (w := Sui.run evs (Sui.mount t0 t1 src)) in *.
    unfold Sui.render. rewrite filter_flags_length.
    unfold Sui.isSelected.
    destruct (Sui.selectedBlockId w) as [i |].
    + apply (filter_id_at_most_one Sui.id i). exact Hnd.
    + rewrite filter_none; [simpl; lia | reflexivity].
Qed.

(** X17: Clicking a block of the history makes it the selection, and then that
    block and only that block is rendered as selected: always in the first
    theme, and in the second theme when the id of the block is not 0. *)
Lemma selection_marks_the_block {RT : Js.Runtime} :
  (forall t0 t1 src evs i b,
     let w := Kaspa.run evs (Kaspa.mount t0 t1 src) in
     nth_error (Kaspa.blocks w) i = Some b ->
     let w' := Kaspa.step (Kaspa.ClickBlock i) w in
     Kaspa.selectedBlock w' = Some b
     /\ forall a, In a (Kaspa.blocks w') -> (Kaspa.isSelected w' a = true <-> a = b))
  /\ (forall t0 t1 src evs i b,
        let w := Sui.run evs (Sui.mount t0 t1 src) in
        nth_error (Sui.blocks w) i = Some b ->
        Sui.id b <> 0 ->
        let w' := Sui.step (Sui.ClickBlock i) w in
        Sui.selectedBlock w' = Some b
        /\ forall a, In a (Sui.blocks w') -> (Sui.isSelected w' a = true <-> a = b)).
Proof.
  split.
  - intros t0 t1 src evs i b w Hnth w'.
    pose proof (history_ok_NoDup Kaspa.id _ _ _ (kaspa_reachable_inv t0 t1 src evs)) as Hnd.
    fold w in Hnd. subst w'. simpl. rewrite Hnth. simpl.
    split; [reflexivity |]. intros a Ha.
    unfold Kaspa.isSelected, Kaspa.selectedBlockId. simpl.
    rewrite Z.eqb_eq. split.
    + intros Heq. symmetry.
      apply (NoDup_map_injective Kaspa.id (Kaspa.blocks w)); auto.
      eapply nth_error_In; eauto.
    + intros ->. reflexivity.
  - intros t0 t1 src evs i b w Hnth Hnz w'.
    pose proof (history_ok_NoDup Sui.id _ _ _ (sui_reachable_inv t0 t1 src evs)) as Hnd.
    fold w in Hnd. subst w'. simpl. rewrite Hnth. simpl.
    split; [reflexivity |]. intros a Ha.
    unfold Sui.isSelected, Sui.selectedBlockId. simpl.
    destruct (Z.eqb_spec (Sui.id b) 0) as [| _]; [contradiction |].
    rewrite Z.eqb_eq. split.
    + intros Heq. symmetry.
      apply (NoDup_map_injective Sui.id (Sui.blocks w)); auto.
      eapply nth_error_In; eauto.
    + intros ->. reflexivity.
Qed.

(** C5: clearing the selection leaves no block marked, and at most one
    block is ever marked (the two lemmas above); selecting a block marks
    exactly that block in the first theme.  The second theme computes the
    selected id as [selectedBlock?.id || null], so the id 0 of the genesis
    block is turned into [null]: after a click on the genesis block of the
    freshly mounted page the selection is the genesis block and yet the
    block is rendered as not selected. *)
Theorem sui_selecting_genesis_marks_nothing {RT : Js.Runtime} :
  forall t0 t1 src,
    let w := Sui.step (Sui.ClickBlock 0) (Sui.mount t0 t1 src) in
    In (Sui.genesis t1) (Sui.blocks w)
    /\ Sui.selectedBlock w = Some (Sui.genesis t1)
    /\ Sui.selectedBlockId w = None
    /\ Sui.render w = [(Sui.genesis t1, false)].
Proof.
  intros t0 t1 src w. subst w. simpl.
  repeat split. left. reflexivity.
Qed.

(** ** The fetch of the block count *)

(** While the readiness flag is down and no fetch is pending, nothing that
    happens to the page makes the clock produce a block. *)
Lemma kaspa_never_ready {RT : Js.Runtime} (evs : list Kaspa.Event) :
  forall w,
    Kaspa.hasStartedRef w = false -> Kaspa.fetchPending w = false ->
    Kaspa.produced evs w = []
    /\ Kaspa.blocks (Kaspa.run evs w) = Kaspa.blocks w
    /\ Kaspa.hasStartedRef (Kaspa.run evs w) = false.
Proof.
  induction evs as [| e rest IH]; intros w Hready Hpending; simpl; auto.
  assert (Hidle : forall now, Kaspa.frame now w = (w, None)).
  { intros now. apply kaspa_frame_idle. unfold Kaspa.fires.
    rewrite Hready. reflexivity. }
  destruct e as [now | o | | i |]; simpl.
  - unfold Kaspa.useFrame. rewrite Hidle. simpl. apply IH; assumption.
  - rewrite Hpending. apply IH; assumption.
  - destruct (IH (Kaspa.handleStart w)) as [H1 [H2 H3]]; auto.
  - destruct (nth_error (Kaspa.blocks w) i) as [data |].
    + destruct (IH (Kaspa.setSelectedBlock (Some data) w)) as [H1 [H2 H3]]; auto.
    + apply IH; assumption.
  - destruct (IH (Kaspa.setSelectedBlock None w)) as [H1 [H2 H3]]; auto.
Qed.

(** X20: Until the fetch settles the clock produces nothing. *)
Lemma kaspa_waits_for_fetch {RT : Js.Runtime} (evs : list Kaspa.Event) :
  forall w,
    Kaspa.hasStartedRef w = false ->
    forallb (fun e => match e with Kaspa.FetchSettled _ => false | _ => true end) evs = true ->
    Kaspa.produced evs w = [] /\ Kaspa.blocks (Kaspa.run evs w) = Kaspa.blocks w.
Proof.
  induction evs as [| e rest IH]; intros w Hready Hnofetch; simpl; auto.
  assert (Hidle : forall now, Kaspa.frame now w = (w, None)).
  { intros now. apply kaspa_frame_idle. unfold Kaspa.fires.
    rewrite Hready. reflexivity. }
  simpl in Hnofetch.
  destruct e as [now | o | | i |]; simpl; try discriminate; simpl in Hnofetch.
  - unfold Kaspa.useFrame. rewrite Hidle. simpl. apply IH; assumption.
  - destruct (IH (Kaspa.handleStart w)) as [H1 H2]; auto.
  - destruct (nth_error (Kaspa.blocks w) i) as [data |].
    + destruct (IH (Kaspa.setSelectedBlock (Some data) w)) as [H1 H2]; auto.
    + apply IH; assumption.
  - destruct (IH (Kaspa.setSelectedBlock None w)) as [H1 H2]; auto.
Qed.

(** A fetch that is rejected, or whose body is not JSON (whatever the
    status), ends in the [catch] callback: the base height becomes the
    fallback constant and the readiness flag is raised. *)
Lemma kaspa_fetch_failure_masked {RT : Js.Runtime} :
  forall t0 t1 src o,
    o = Js.NetworkError \/ (exists status, o = Js.Response status None) ->
    let w := Kaspa.step (Kaspa.FetchSettled o) (Kaspa.mount t0 t1 src) in
    Kaspa.hasStartedRef w = true
    /\ Js.baseHeight (Kaspa.statsRefs w) = Some 100000000
    /\ Kaspa.fetchPending w = false.
Proof.
  intros t0 t1 src o [-> | [status ->]]; simpl; repeat split.
Qed.

(** C6: a rejected fetch and a body that is not JSON are masked by the
    fallback constant (lemma above), and the clock does nothing before the
    fetch settles (lemma above).  But the chain never looks at the status,
    and its [then] callback has no else branch: a response whose body is
    JSON without a truthy [blockCount], such as the error object of a
    non-2xx answer, neither sets the base height nor raises the readiness
    flag, and nothing raises the flag afterwards, so the clock never
    produces a block whatever else happens to the page. *)
Theorem kaspa_fetch_without_blockCount_never_starts {RT : Js.Runtime} :
  forall t0 t1 src status evs,
    let body := Js.JObject [("error"%string, Js.JString "unavailable")] in
    let w := Kaspa.step (Kaspa.FetchSettled (Js.Response status (Some body)))
                        (Kaspa.mount t0 t1 src) in
    Kaspa.hasStartedRef w = false
    /\ Js.baseHeight (Kaspa.statsRefs w) = Some 0
    /\ Kaspa.produced evs w = []
    /\ Kaspa.blocks (Kaspa.run evs w) = [Kaspa.genesis t1]
    /\ Kaspa.hasStartedRef (Kaspa.run evs w) = false.
Proof.
  intros t0 t1 src status evs body w.
  assert (Hready : Kaspa.hasStartedRef w = false) by reflexivity.
  assert (Hpending : Kaspa.fetchPending w = false) by reflexivity.
  destruct (kaspa_never_ready evs w Hready Hpending) as [H1 [H2 H3]].
  repeat split; auto.
Qed.

(** ** Concrete runs *)

(** The history is full after 74 frames (first theme) and 39 frames (second
    theme); the next frame evicts the genesis block. *)
Lemma history_bounded_fifo_witness :
  (exists oldest rest,
     Kaspa.blocks (kaspa_after 74) = oldest :: rest
     /\ Kaspa.blocks (Kaspa.useFrame (RT := plain_runtime) 22575 (kaspa_after 74))
        = rest ++ [kaspa_block_at 22575 (kaspa_after 74)]
     /\ Forall (fun s => Kaspa.id oldest < Kaspa.id s)
               (rest ++ [kaspa_block_at 22575 (kaspa_after 74)]))
  /\ (exists oldest rest,
        Sui.blocks (sui_after 39) = oldest :: rest
        /\ Sui.blocks (Sui.useFrame (RT := plain_runtime) 24040 (sui_after 39))
           = rest ++ [sui_block_at 24040 (sui_after 39)]
        /\ Forall (fun s => Sui.id oldest < Sui.id s)
                  (rest ++ [sui_block_at 24040 (sui_after 39)])).
Proof.
  split.
  - apply (proj2 (proj1 (history_bounded_fifo (RT := plain_runtime))
                    0 0 cycling_source
                    (Kaspa.FetchSettled Js.NetworkError :: Kaspa.ClickStart
                       :: kaspa_frames 301 74))).
    + vm_compute. reflexivity.
    + vm_compute. apply le_n.
  - apply (proj2 (proj2 (history_bounded_fifo (RT := plain_runtime))
                    0 0 cycling_source (sui_frames 601 39))).
    + vm_compute. reflexivity.
    + vm_compute. apply le_n.
Defined.

(** The block produced after three earlier ones: its parents are blocks of
    the history with smaller ids. *)
Lemma parents_exist_and_precede_witness :
  (Kaspa.blocks (kaspa_after 3) <> []
   /\ Kaspa.parents (kaspa_block_at 1300 (kaspa_after 3)) <> []
   /\ Forall (fun p => exists a, In a (Kaspa.blocks (kaspa_after 3))
                                 /\ Kaspa.id a = p
                                 /\ p < Kaspa.id (kaspa_block_at 1300 (kaspa_after 3)))
             (Kaspa.parents (kaspa_block_at 1300 (kaspa_after 3))))
  /\ (Sui.blocks (sui_after 3) <> []
      /\ Sui.parents (sui_block_at 2500 (sui_after 3)) <> []
      /\ Forall (fun p => exists a, In a (Sui.blocks (sui_after 3))
                                    /\ Sui.id a = p
                                    /\ p < Sui.id (sui_block_at 2500 (sui_after 3)))
                (Sui.parents (sui_block_at 2500 (sui_after 3)))).
Proof.
  split.
  - apply (proj1 (parents_exist_and_precede (RT := plain_runtime))
             0 0 cycling_source
             (Kaspa.FetchSettled Js.NetworkError :: Kaspa.ClickStart
                :: kaspa_frames 301 3) 1300).
    vm_compute. reflexivity.
  - apply (proj2 (parents_exist_and_precede (RT := plain_runtime))
             0 0 cycling_source (sui_frames 601 3) 2500).
    vm_compute. reflexivity.
Defined.

(** 199 ms (first theme) and 197 ms (second theme) after a fire. *)
Lemma frame_below_interval_changes_nothing_witness :
  (Kaspa.frame (RT := plain_runtime) 1102 (kaspa_after 3) = (kaspa_after 3, None)
   /\ Kaspa.step (RT := plain_runtime) (Kaspa.Frame 1102) (kaspa_after 3) = kaspa_after 3)
  /\ (Sui.frame (RT := plain_runtime) 2000 (sui_after 3) = (sui_after 3, None)
      /\ Sui.step (RT := plain_runtime) (Sui.Frame 2000) (sui_after 3) = sui_after 3).
Proof.
  split.
  - apply (proj1 (frame_below_interval_changes_nothing (RT := plain_runtime))).
    vm_compute. reflexivity.
  - apply (proj2 (frame_below_interval_changes_nothing (RT := plain_runtime))).
    vm_compute. reflexivity.
Defined.

(** A frame a thousand seconds late still produces one block. *)
Lemma frame_produces_at_most_one_witness :
  (Kaspa.lastTimeRef (Kaspa.useFrame (RT := plain_runtime) 1000903 (kaspa_after 3)) = 1000903
   /\ exists b, Kaspa.produced (RT := plain_runtime) [Kaspa.Frame 1000903] (kaspa_after 3) = [b]
                /\ Kaspa.blocks (Kaspa.useFrame (RT := plain_runtime) 1000903 (kaspa_after 3))
                   = Kaspa.appendBlock b (Kaspa.blocks (kaspa_after 3)))
  /\ (Sui.lastTimeRef (Sui.useFrame (RT := plain_runtime) 1001803 (sui_after 3)) = 1001803
      /\ exists b, Sui.produced (RT := plain_runtime) [Sui.Frame 1001803] (sui_after 3) = [b]
                   /\ Sui.blocks (Sui.useFrame (RT := plain_runtime) 1001803 (sui_after 3))
                      = Sui.appendBlock b (Sui.blocks (sui_after 3))).
Proof.
  split.
  - apply (proj1 (frame_produces_at_most_one (RT := plain_runtime)) 1000903 (kaspa_after 3)).
    vm_compute. reflexivity.
  - apply (proj2 (frame_produces_at_most_one (RT := plain_runtime)) 1001803 (sui_after 3)).
    vm_compute. reflexivity.
Defined.

(** The clock firing on a history that has not been seeded. *)
Lemma empty_history_no_parents_witness :
  (exists b, snd (Kaspa.frame (RT := plain_runtime) 301 kaspa_unseeded) = Some b
             /\ Kaspa.id b = Kaspa.lastIdRef kaspa_unseeded + 1
             /\ Kaspa.createdAt b = 301
             /\ Kaspa.parents b = []
             /\ Kaspa.blocks (Kaspa.useFrame (RT := plain_runtime) 301 kaspa_unseeded) = [b])
  /\ Kaspa.blocks (kaspa_after 3) <> []
  /\ (exists b, snd (Sui.frame (RT := plain_runtime) 601 sui_unseeded) = Some b
                /\ Sui.id b = Sui.lastIdRef sui_unseeded + 1
                /\ Sui.createdAt b = 601
                /\ Sui.parents b = []
                /\ Sui.blocks (Sui.useFrame (RT := plain_runtime) 601 sui_unseeded) = [b])
  /\ Sui.blocks (sui_after 3) <> [].
Proof.
  destruct (empty_history_no_parents (RT := plain_runtime)) as [HK [HK' [HS HS']]].
  repeat split.
  - apply (HK 301 kaspa_unseeded); reflexivity.
  - apply (HK' 1300 (kaspa_after 3) (kaspa_block_at 1300 (kaspa_after 3))).
    + vm_compute. reflexivity.
    + vm_compute. discriminate.
  - apply (HS 601 sui_unseeded); reflexivity.
  - apply (HS' 2500 (sui_after 3) (sui_block_at 2500 (sui_after 3))).
    + vm_compute. reflexivity.
    + vm_compute. discriminate.
Defined.

(** ** More about the history *)

Section CappedAppend.
Context {B : Type} (id : B -> Z) (cap : nat).

(** A property of single blocks that holds in the history and of the new
    block holds in the updated history. *)
Lemma Forall_appended (P : B -> Prop) (blocks : list B) (b : B) :
  Forall P blocks -> P b ->
  Forall P (let updated := blocks ++ [b] in
            if (cap <? length updated)%nat then Js.shift updated else updated).
Proof.
  intros Hall Hb. cbv zeta.
  assert (Hall' : Forall P (blocks ++ [b])).
  { apply Forall_app. split; [assumption | constructor; [assumption | constructor]]. }
  destruct (cap <? length (blocks ++ [b]))%nat; [| assumption].
  destruct (blocks ++ [b]); simpl; [constructor |].
  inversion Hall'; assumption.
Qed.

(** Read from the newest block backwards, the ids of the history are the
    id counter, the counter minus one, and so on; and the history is as long
    as the cap allows. *)
Lemma newest_first_append (lastId : Z) (blocks : list B) (b : B) :
  (1 <= cap)%nat ->
  map id (rev blocks) = map (fun k => lastId - Z.of_nat k) (seq 0 (length blocks)) ->
  Z.of_nat (length blocks) = Z.min (Z.of_nat cap) (lastId + 1) ->
  id b = lastId + 1 ->
  let blocks' := (let updated := blocks ++ [b] in
   if (cap <? length updated)%nat then Js.shift updated else updated) in
  map id (rev blocks')
  = map (fun k => lastId + 1 - Z.of_nat k) (seq 0 (length blocks'))
  /\ Z.of_nat (length blocks') = Z.min (Z.of_nat cap) (lastId + 1 + 1).
Proof.
  intros Hcap Hids Hlen Hb. cbv zeta.
  assert (Hfull : map id (rev (blocks ++ [b]))
                  = map (fun k => lastId + 1 - Z.of_nat k) (seq 0 (S (length blocks)))).
  { rewrite rev_app_distr. simpl. rewrite Hb. f_equal; [lia |].
    rewrite Hids. rewrite <- seq_shift, map_map. apply map_ext. intros k. lia. }
  destruct (Nat.ltb_spec cap (length (blocks ++ [b]))) as [Hover | Hfit].
  - rewrite length_app in Hover. simpl in Hover.
    destruct blocks as [| oldest rest]; [simpl in *; lia |].
    change ((oldest :: rest) ++ [b]) with (oldest :: (rest ++ [b])) in *.
    unfold Js.shift. cbn [tl].
    assert (Hl : length (rest ++ [b]) = S (length rest)).
    { rewrite length_app. simpl. lia. }
    rewrite Hl. split.
    + cbn [rev] in Hfull. rewrite seq_S, !map_app in Hfull.
      apply app_inj_tail in Hfull. destruct Hfull as [Hfull _].
      exact Hfull.
    + simpl length in Hlen, Hover. lia.
  - rewrite length_app in *. simpl length in *.
    replace (length blocks + 1)%nat with (S (length blocks)) by lia.
    split; [exact Hfull | lia].
Qed.

End CappedAppend.

Lemma sorted_before_last (l : list Z) (x : Z) :
  StronglySorted Z.lt (l ++ [x]) -> Forall (fun y => y < x) l.
Proof.
  induction l as [| y l IH]; simpl; intros Hs; [constructor |].
  inversion Hs as [| ? ? Hs' Hy]; subst. constructor.
  - rewrite Forall_forall in Hy. apply Hy, in_or_app. right. left. reflexivity.
  - apply IH. assumption.
Qed.

Lemma nth_error_newest {B : Type} (front : list B) (b : B) :
  nth_error (front ++ [b]) (length (front ++ [b]) - 1) = Some b.
Proof.
  rewrite length_app. simpl.
  replace (length front + 1 - 1)%nat with (length front) by lia.
  rewrite nth_error_app2 by lia. rewrite Nat.sub_diag. reflexivity.
Qed.

(** ** More about the first theme *)

Section KaspaHistory.
Context {RT : Js.Runtime}.

(** Every event that is not a frame leaves the scene, the random source and
    the sound log alone. *)
Lemma kaspa_step_other (e : Kaspa.Event) (w : Kaspa.World) :
  (forall now, e <> Kaspa.Frame now) ->
  Kaspa.blocks (Kaspa.step e w) = Kaspa.blocks w
  /\ Kaspa.lastIdRef (Kaspa.step e w) = Kaspa.lastIdRef w
  /\ Kaspa.lastTimeRef (Kaspa.step e w) = Kaspa.lastTimeRef w
  /\ Kaspa.rng (Kaspa.step e w) = Kaspa.rng w
  /\ Kaspa.played (Kaspa.step e w) = Kaspa.played w.
Proof.
  intros Hnf. destruct e as [now | o | | i |]; simpl.
  - exfalso. apply (Hnf now). reflexivity.
  - destruct (Kaspa.fetchPending w); [| repeat split].
    destruct o as [| status [data |]]; simpl.
    + repeat split.
    + unfold Kaspa.onData. destruct (_ && _); repeat split.
    + repeat split.
  - repeat split.
  - destruct (nth_error (Kaspa.blocks w) i); repeat split.
  - repeat split.
Qed.

Ltac kaspa_other_event w :=
  match goal with
  | |- context [Kaspa.step ?e w] =>
      destruct (kaspa_step_other e w ltac:(intros; discriminate))
        as [?Hblocks [?Hlast [?Htime [?Hrng ?Hplayed]]]]
  end.

(** A frame either changes nothing or fires. *)
Lemma kaspa_frame_cases (now : Z) (w : Kaspa.World) :
  (Kaspa.fires now w = false /\ Kaspa.useFrame now w = w /\ snd (Kaspa.frame now w) = None)
  \/ (Kaspa.fires now w = true
      /\ exists b, snd (Kaspa.frame now w) = Some b
                   /\ Kaspa.id b = Kaspa.lastIdRef w + 1
                   /\ Kaspa.createdAt b = now
                   /\ Kaspa.blocks (Kaspa.useFrame now w) = Kaspa.appendBlock b (Kaspa.blocks w)
                   /\ Kaspa.lastIdRef (Kaspa.useFrame now w) = Kaspa.lastIdRef w + 1
                   /\ Kaspa.lastTimeRef (Kaspa.useFrame now w) = now).
Proof.
  destruct (Kaspa.fires now w) eqn:Hf.
  - right. split; [reflexivity |].
    destruct (kaspa_frame_fires now w Hf) as [Hsome [Hblocks [Hid [Htime _]]]].
    destruct (kaspa_newBlock_spec now (Kaspa.lastIdRef w + 1) (Kaspa.blocks w) (Kaspa.rng w))
      as [Hi [Hc _]].
    eexists. split; [exact Hsome |]. unfold Kaspa.useFrame. auto.
  - left. unfold Kaspa.useFrame. rewrite (kaspa_frame_idle _ _ Hf). auto.
Qed.

(** Induction over the runs of the mounted page. *)
Lemma kaspa_run_invariant (I : Kaspa.World -> Prop) :
  (forall e w, KaspaInv w -> I w -> I (Kaspa.step e w)) ->
  forall evs w, KaspaInv w -> I w -> I (Kaspa.run evs w).
Proof.
  intros Hstep. induction evs as [| e rest IH]; intros w Hinv HI; simpl; auto.
  apply IH; [apply kaspa_step_inv | apply Hstep]; assumption.
Qed.

(** A property of single blocks that the genesis block has, and that every
    block produced in a well-formed world has, holds throughout every
    reachable history. *)
Lemma kaspa_history_Forall (P : Kaspa.BlockData -> Prop) (t0 t1 : Z) (src : nat -> float) :
  P (Kaspa.genesis t1) ->
  (forall now w b, KaspaInv w -> snd (Kaspa.frame now w) = Some b -> P b) ->
  forall evs, Forall P (Kaspa.blocks (Kaspa.run evs (Kaspa.mount t0 t1 src))).
Proof.
  intros Hgen Hnew evs.
  apply (kaspa_run_invariant (fun w => Forall P (Kaspa.blocks w)));
    [| apply kaspa_mount_inv | repeat constructor; exact Hgen].
  intros e w Hinv Hall.
  destruct e as [now | o | | i |];
    try (kaspa_other_event w; rewrite Hblocks; exact Hall).
  simpl. destruct (kaspa_frame_cases now w) as [[_ [Hsame _]] | [_ [b [Hb [_ [_ [Hblocks _]]]]]]].
  - rewrite Hsame. exact Hall.
  - rewrite Hblocks. apply (Forall_appended 75); [exact Hall |].
    eapply Hnew; eauto.
Qed.

Lemma kaspa_newest_first_inv (t0 t1 : Z) (src : nat -> float) (evs : list Kaspa.Event) :
  let w := Kaspa.run evs (Kaspa.mount t0 t1 src) in
  map Kaspa.id (rev (Kaspa.blocks w))
  = map (fun k => Kaspa.lastIdRef w - Z.of_nat k) (seq 0 (length (Kaspa.blocks w)))
  /\ Z.of_nat (length (Kaspa.blocks w)) = Z.min 75 (Kaspa.lastIdRef w + 1).
Proof.
  apply (kaspa_run_invariant
           (fun w => map Kaspa.id (rev (Kaspa.blocks w))
                     = map (fun k => Kaspa.lastIdRef w - Z.of_nat k)
                           (seq 0 (length (Kaspa.blocks w)))
                     /\ Z.of_nat (length (Kaspa.blocks w))
                        = Z.min 75 (Kaspa.lastIdRef w + 1)));
    [| apply kaspa_mount_inv | split; reflexivity].
  intros e w Hinv [Hids Hlen].
  destruct e as [now | o | | i |];
    try (kaspa_other_event w; rewrite Hblocks, Hlast; split; assumption).
  simpl.
  destruct (kaspa_frame_cases now w)
    as [[_ [Hsame _]] | [_ [b [Hb [Hid [_ [Hblocks [Hlast _]]]]]]]].
  - rewrite Hsame. split; assumption.
  - rewrite Hblocks, Hlast.
    apply (newest_first_append Kaspa.id 75); auto. lia.
Qed.


(** The rest of what [newBlock] computes: the position, the random source
    it leaves, and the sound that goes with the color. *)
Lemma kaspa_newBlock_rest (now newId : Z) (blocks : list Kaspa.BlockData) (g : Js.Rng) :
  let r := Kaspa.newBlock now newId blocks g in
  let win := length (Js.slice_last 8 blocks) in
  let rnd := Js.draws g (win + (2 + Js.cursor g)) in
  Kaspa.position (fst (fst r))
  = ((Js.draws g (Js.cursor g) - 0.5) * 8,
     (Js.draws g (S (Js.cursor g)) - 0.5) * 4,
     Js.num newId * 1.5)%float
  /\ snd r = advance (6 + win + match snd (Kaspa.colorLogic rnd) with
                                | Kaspa.normal => 1
                                | _ => 0
                                end) g
  /\ kaspa_sound_of (fst (fst r)) (snd (fst r)).
Proof.
  cbv zeta. unfold Kaspa.newBlock, Js.bind, Js.Math_random.
  cbn [Js.draws Js.cursor].
  change {| Js.draws := Js.draws g; Js.cursor := S (S (Js.cursor g)) |}
    with (advance 2 g).
  destruct (kaspa_findParents_spec blocks (advance 2 g)) as [_ [Hrng _]].
  destruct (Kaspa.findParents blocks (advance 2 g)) as [ps g3].
  simpl in Hrng. subst g3. cbn [Js.draws Js.cursor advance fst].
  unfold kaspa_sound_of.
  unfold Kaspa.colorLogic.
  destruct (Js.gtb _ 0.95); [| destruct (Js.gtb _ 0.90)]; simpl.
  - repeat split; [unfold advance; simpl; f_equal; lia | left; auto].
  - repeat split; [unfold advance; simpl; f_equal; lia | right; left; auto].
  - repeat split; [unfold advance; simpl; f_equal; lia |].
    right. right. split; [reflexivity |]. eexists. reflexivity.
Qed.

(** What a firing frame does to the environment and to the overlay. *)
Lemma kaspa_frame_env (now : Z) (w : Kaspa.World) :
  Kaspa.fires now w = true ->
  let r := Kaspa.newBlock now (Kaspa.lastIdRef w + 1) (Kaspa.blocks w) (Kaspa.rng w) in
  let w' := Kaspa.useFrame now w in
  Kaspa.rng w' = snd r
  /\ Kaspa.played w' = Kaspa.played w ++ [snd (fst r)]
  /\ Js.baseHeight (Kaspa.statsRefs w') = Js.baseHeight (Kaspa.statsRefs w)
  /\ Js.bps (Kaspa.statsRefs w')
     = match Js.bps (Kaspa.statsRefs w) with
       | Some _ => Some (Js.Number_toFixed 1 (1000 / Js.num 300 * 1)%float ++ " BPS")%string
       | None => None
       end
  /\ Js.count (Kaspa.statsRefs w')
     = match Js.count (Kaspa.statsRefs w) with
       | Some _ => Some (Js.Number_toLocaleString
                           (match Js.baseHeight (Kaspa.statsRefs w) with
                            | Some h => h
                            | None => 0
                            end + (Kaspa.lastIdRef w + 1)))
       | None => None
       end.
Proof.
  unfold Kaspa.fires, Kaspa.useFrame, Kaspa.frame.
  destruct (Kaspa.hasStartedRef w), (Kaspa.started w); simpl; try discriminate.
  intros ->.
  destruct (Kaspa.newBlock _ _ _ _) as [[b tone] g]. simpl.
  replace (now - (now - 300)) with 300 by lia.
  repeat split.
Qed.


(** Two blocks are never produced within 300 ms of each other. *)
Lemma kaspa_produced_times (evs : list Kaspa.Event) :
  forall w,
    StronglySorted (fun a b => a + 300 < b) (map Kaspa.createdAt (Kaspa.produced evs w))
    /\ Forall (fun t => Kaspa.lastTimeRef w + 300 < t)
              (map Kaspa.createdAt (Kaspa.produced evs w)).
Proof.
  induction evs as [| e rest IH]; intros w; simpl.
  - split; constructor.
  - destruct (IH (Kaspa.step e w)) as [Hsorted Hafter].
    destruct e as [now | o | | i |];
      try (kaspa_other_event w; rewrite Htime in Hafter; simpl; split; assumption).
    simpl in Hsorted, Hafter. simpl.
    destruct (kaspa_frame_cases now w)
      as [[_ [Hsame Hnone]] | [Hf [b [Hb [_ [Hc [_ [_ Htime]]]]]]]].
    + rewrite Hnone. rewrite Hsame in *. simpl. split; assumption.
    + rewrite Hb. rewrite Htime in Hafter. simpl. rewrite Hc.
      assert (Hgap : Kaspa.lastTimeRef w + 300 < now).
      { unfold Kaspa.fires in Hf.
        apply andb_prop in Hf. destruct Hf as [_ Hf].
        rewrite Z.gtb_ltb in Hf. apply Z.ltb_lt in Hf. lia. }
      split.
      * constructor; assumption.
      * constructor; [exact Hgap |].
        eapply Forall_impl; [| exact Hafter]. simpl. intros t Ht. lia.
Qed.


(** The readiness flag and the start flag are never lowered, and the id
    counter and the time of the last fire never decrease. *)
Lemma kaspa_monotone (evs : list Kaspa.Event) :
  forall w,
    (Kaspa.hasStartedRef w = true -> Kaspa.hasStartedRef (Kaspa.run evs w) = true)
    /\ (Kaspa.started w = true -> Kaspa.started (Kaspa.run evs w) = true)
    /\ Kaspa.lastIdRef w <= Kaspa.lastIdRef (Kaspa.run evs w)
    /\ Kaspa.lastTimeRef w <= Kaspa.lastTimeRef (Kaspa.run evs w).
Proof.
  induction evs as [| e rest IH]; intros w; simpl.
  - repeat split; auto; lia.
  - destruct (IH (Kaspa.step e w)) as [Hready [Hstart [Hid Htime]]].
    assert (Hstep : (Kaspa.hasStartedRef w = true -> Kaspa.hasStartedRef (Kaspa.step e w) = true)
                    /\ (Kaspa.started w = true -> Kaspa.started (Kaspa.step e w) = true)
                    /\ Kaspa.lastIdRef w <= Kaspa.lastIdRef (Kaspa.step e w)
                    /\ Kaspa.lastTimeRef w <= Kaspa.lastTimeRef (Kaspa.step e w)).
    { destruct e as [now | o | | i |]; simpl.
      - destruct (Kaspa.fires now w) eqn:Hf.
        + destruct (kaspa_frame_fires now w Hf)
            as [_ [_ [Hi [Ht [_ [Hs [Hr _]]]]]]].
          unfold Kaspa.useFrame. rewrite Hi, Ht, Hs, Hr.
          unfold Kaspa.fires in Hf. apply andb_prop in Hf. destruct Hf as [_ Hf].
          rewrite Z.gtb_ltb in Hf. apply Z.ltb_lt in Hf.
          repeat split; auto; lia.
        + unfold Kaspa.useFrame. rewrite (kaspa_frame_idle _ _ Hf). simpl.
          repeat split; auto; lia.
      - destruct (Kaspa.fetchPending w); [| repeat split; auto; lia].
        destruct o as [| status [data |]]; simpl; try (repeat split; auto; lia).
        unfold Kaspa.onData. destruct (_ && _); simpl; repeat split; auto; lia.
      - simpl. repeat split; auto; lia.
      - destruct (nth_error (Kaspa.blocks w) i); simpl; repeat split; auto; lia.
      - simpl. repeat split; auto; lia. }
    destruct Hstep as [Hready' [Hstart' [Hid' Htime']]].
    repeat split; auto; lia.
Qed.

Lemma kaspa_counter_nonneg (w : Kaspa.World) : KaspaInv w -> 0 <= Kaspa.lastIdRef w.
Proof.
  intros [_ [Hall [Hne _]]].
  destruct (Kaspa.blocks w) as [| b rest]; [congruence |].
  inversion Hall; subst. lia.
Qed.

(** The overlay of the mounted page: until the first block it shows its
    initial texts; from then on the rate is one fixed text and the count is
    the base height plus the id counter.  Blocks only exist once the fetch
    has settled, so the base height no longer changes under them. *)
Lemma kaspa_overlay (t0 t1 : Z) (src : nat -> float) (evs : list Kaspa.Event) :
  let w := Kaspa.run evs (Kaspa.mount t0 t1 src) in
  (Kaspa.hasStartedRef w = true -> Kaspa.fetchPending w = false)
  /\ (0 < Kaspa.lastIdRef w -> Kaspa.hasStartedRef w = true)
  /\ Js.bps (Kaspa.statsRefs w)
     = Some (if Kaspa.lastIdRef w =? 0 then "0.0 BPS"%string
             else (Js.Number_toFixed 1 (1000 / Js.num 300 * 1)%float ++ " BPS")%string)
  /\ Js.count (Kaspa.statsRefs w)
     = Some (if Kaspa.lastIdRef w =? 0 then "LOADING..."%string
             else Js.Number_toLocaleString
                    (match Js.baseHeight (Kaspa.statsRefs w) with
                     | Some h => h
                     | None => 0
                     end + Kaspa.lastIdRef w)).
Proof.
  apply (kaspa_run_invariant
           (fun w =>
              (Kaspa.hasStartedRef w = true -> Kaspa.fetchPending w = false)
              /\ (0 < Kaspa.lastIdRef w -> Kaspa.hasStartedRef w = true)
              /\ Js.bps (Kaspa.statsRefs w)
                 = Some (if Kaspa.lastIdRef w =? 0 then "0.0 BPS"%string
                         else (Js.Number_toFixed 1 (1000 / Js.num 300 * 1)%float
                               ++ " BPS")%string)
              /\ Js.count (Kaspa.statsRefs w)
                 = Some (if Kaspa.lastIdRef w =? 0 then "LOADING..."%string
                         else Js.Number_toLocaleString
                                (match Js.baseHeight (Kaspa.statsRefs w) with
                                 | Some h => h
                                 | None => 0
                                 end + Kaspa.lastIdRef w))));
    [| apply kaspa_mount_inv | simpl; repeat split; intros; discriminate].
  intros e w Hinv [Hsettled [Hready [Hbps Hcount]]].
  pose proof (kaspa_counter_nonneg w Hinv) as Hnonneg.
  destruct e as [now | o | | i |]; simpl.
  - destruct (Kaspa.fires now w) eqn:Hf.
    + destruct (kaspa_frame_fires now w Hf) as [_ [_ [Hid [_ [_ [_ [Hr Hp]]]]]]].
      destruct (kaspa_frame_env now w Hf) as [_ [_ [Hbase [Hbps' Hcount']]]].
      cbv zeta in Hid, Hr, Hp, Hbase, Hbps', Hcount'. fold (Kaspa.useFrame now w) in Hid, Hr, Hp.
      rewrite Hid, Hr, Hp, Hbps', Hcount', Hbase, Hbps, Hcount.
      destruct (Z.eqb_spec (Kaspa.lastIdRef w + 1) 0) as [Hz | _]; [lia |].
      repeat split; auto.
      intros _. unfold Kaspa.fires in Hf.
      destruct (Kaspa.hasStartedRef w); [reflexivity | discriminate].
    + unfold Kaspa.useFrame. rewrite (kaspa_frame_idle _ _ Hf). simpl.
      repeat split; auto.
  - destruct (Kaspa.fetchPending w) eqn:Hpending; [| repeat split; auto].
    assert (Hzero : Kaspa.lastIdRef w = 0).
    { destruct (Z.eq_dec (Kaspa.lastIdRef w) 0) as [| Hnz]; [assumption |].
      assert (Hr : Kaspa.hasStartedRef w = true) by (apply Hready; lia).
      apply Hsettled in Hr. congruence. }
    rewrite Hzero in Hbps, Hcount. simpl in Hbps, Hcount.
    assert (Hset : forall h,
               let w' := Kaspa.settle (Kaspa.set_ready h w) in
               (Kaspa.hasStartedRef w' = true -> Kaspa.fetchPending w' = false)
               /\ (0 < Kaspa.lastIdRef w' -> Kaspa.hasStartedRef w' = true)
               /\ Js.bps (Kaspa.statsRefs w') = Some "0.0 BPS"%string
               /\ Js.count (Kaspa.statsRefs w') = Some "LOADING..."%string
               /\ Kaspa.lastIdRef w' = 0).
    { intros h. cbv zeta.
      cbn [Kaspa.settle Kaspa.set_ready Kaspa.hasStartedRef Kaspa.fetchPending
           Kaspa.lastIdRef Kaspa.statsRefs Js.bps Js.count].
      repeat split; auto. }
    assert (Hkeep : let w' := Kaspa.settle w in
               (Kaspa.hasStartedRef w' = true -> Kaspa.fetchPending w' = false)
               /\ (0 < Kaspa.lastIdRef w' -> Kaspa.hasStartedRef w' = true)
               /\ Js.bps (Kaspa.statsRefs w') = Some "0.0 BPS"%string
               /\ Js.count (Kaspa.statsRefs w') = Some "LOADING..."%string
               /\ Kaspa.lastIdRef w' = 0).
    { cbv zeta.
      cbn [Kaspa.settle Kaspa.hasStartedRef Kaspa.fetchPending
           Kaspa.lastIdRef Kaspa.statsRefs Js.bps Js.count].
      repeat split; auto. }
    assert (Hgoal : forall w',
               (Kaspa.hasStartedRef w' = true -> Kaspa.fetchPending w' = false)
               /\ (0 < Kaspa.lastIdRef w' -> Kaspa.hasStartedRef w' = true)
               /\ Js.bps (Kaspa.statsRefs w') = Some "0.0 BPS"%string
               /\ Js.count (Kaspa.statsRefs w') = Some "LOADING..."%string
               /\ Kaspa.lastIdRef w' = 0 ->
               (Kaspa.hasStartedRef w' = true -> Kaspa.fetchPending w' = false)
               /\ (0 < Kaspa.lastIdRef w' -> Kaspa.hasStartedRef w' = true)
               /\ Js.bps (Kaspa.statsRefs w')
                  = Some (if Kaspa.lastIdRef w' =? 0 then "0.0 BPS"%string
                          else (Js.Number_toFixed 1 (1000 / Js.num 300 * 1)%float
                                ++ " BPS")%string)
               /\ Js.count (Kaspa.statsRefs w')
                  = Some (if Kaspa.lastIdRef w' =? 0 then "LOADING..."%string
                          else Js.Number_toLocaleString
                                 (match Js.baseHeight (Kaspa.statsRefs w') with
                                  | Some h => h
                                  | None => 0
                                  end + Kaspa.lastIdRef w'))).
    { intros w' [H1 [H2 [H3 [H4 H5]]]]. rewrite H5, H3, H4.
      repeat split; auto. intros C. discriminate C. }
    apply Hgoal.
    destruct o as [| status [data |]].
    + apply Hset.
    + unfold Kaspa.fetchSettled, Kaspa.onData.
      destruct (_ && _); [apply Hset | apply Hkeep].
    + apply Hset.
  - repeat split; auto.
  - destruct (nth_error (Kaspa.blocks w) i); simpl; repeat split; auto.
  - repeat split; auto.
Qed.


(** The start button and the fetch do not care which comes first. *)
Lemma kaspa_start_fetch_commute (o : Js.FetchOutcome) (w : Kaspa.World) :
  Kaspa.step Kaspa.ClickStart (Kaspa.step (Kaspa.FetchSettled o) w)
  = Kaspa.step (Kaspa.FetchSettled o) (Kaspa.step Kaspa.ClickStart w).
Proof.
  simpl. destruct (Kaspa.fetchPending w); [| reflexivity].
  destruct o as [| status [data |]]; simpl; try reflexivity.
  unfold Kaspa.onData. destruct (_ && _); reflexivity.
Qed.

(** The clock does not look at the selection. *)
Lemma kaspa_frame_selection (now : Z) (sel : option Kaspa.BlockData) (w : Kaspa.World) :
  Kaspa.frame now (Kaspa.setSelectedBlock sel w)
  = (Kaspa.setSelectedBlock sel (fst (Kaspa.frame now w)), snd (Kaspa.frame now w)).
Proof.
  unfold Kaspa.frame.
  cbn [Kaspa.setSelectedBlock Kaspa.hasStartedRef Kaspa.started Kaspa.lastTimeRef
       Kaspa.lastIdRef Kaspa.blocks Kaspa.rng Kaspa.statsRefs Kaspa.played
       Kaspa.fetchPending Kaspa.selectedBlock].
  destruct (negb (Kaspa.hasStartedRef w) || negb (Kaspa.started w)); [reflexivity |].
  destruct (now - Kaspa.lastTimeRef w >? 300); [| reflexivity].
  destruct (Kaspa.newBlock _ _ _ _) as [[b tone] g]. reflexivity.
Qed.

Lemma kaspa_selection_eta (w : Kaspa.World) :
  Kaspa.setSelectedBlock (Kaspa.selectedBlock w) (Kaspa.setSelectedBlock None w) = w.
Proof. destruct w; reflexivity. Qed.

(** Two worlds that differ at most in the selection stay so under every
    event, and a frame produces the same block in both. *)
Lemma kaspa_step_modulo_selection (e : Kaspa.Event) (w1 w2 : Kaspa.World) :
  Kaspa.setSelectedBlock None w1 = Kaspa.setSelectedBlock None w2 ->
  Kaspa.setSelectedBlock None (Kaspa.step e w1)
  = (if kaspa_clock_event e
     then Kaspa.setSelectedBlock None (Kaspa.step e w2)
     else Kaspa.setSelectedBlock None w2)
  /\ forall now, snd (Kaspa.frame now w1) = snd (Kaspa.frame now w2).
Proof.
  intros Heq.
  assert (Hframe : forall now,
             Kaspa.frame now w1
             = (Kaspa.setSelectedBlock (Kaspa.selectedBlock w1)
                  (Kaspa.setSelectedBlock None (fst (Kaspa.frame now w2))),
                snd (Kaspa.frame now w2))).
  { intros now.
    rewrite <- (kaspa_selection_eta w1) at 1. rewrite Heq.
    rewrite !kaspa_frame_selection. reflexivity. }
  split; [| intros now; rewrite Hframe; reflexivity].
  assert (Hfields : Kaspa.fetchPending w1 = Kaspa.fetchPending w2
                    /\ Kaspa.blocks w1 = Kaspa.blocks w2).
  { destruct w1, w2. simpl in *. injection Heq. intros. subst. auto. }
  destruct Hfields as [Hpending Hblocks].
  assert (Hset : forall h,
             Kaspa.setSelectedBlock None (Kaspa.settle (Kaspa.set_ready h w1))
             = Kaspa.setSelectedBlock None (Kaspa.settle (Kaspa.set_ready h w2))).
  { intros h. destruct w1, w2. simpl in *. injection Heq. intros. subst. reflexivity. }
  assert (Hsettle : Kaspa.setSelectedBlock None (Kaspa.settle w1)
                    = Kaspa.setSelectedBlock None (Kaspa.settle w2)).
  { destruct w1, w2. simpl in *. injection Heq. intros. subst. reflexivity. }
  destruct e as [now | o | | i |]; cbn [kaspa_clock_event Kaspa.step].
  - unfold Kaspa.useFrame. rewrite Hframe. destruct (Kaspa.frame now w2). reflexivity.
  - rewrite Hpending. destruct (Kaspa.fetchPending w2); [| exact Heq].
    destruct o as [| status [data |]]; cbn [Kaspa.fetchSettled].
    + apply Hset.
    + unfold Kaspa.onData. destruct (_ && _); [apply Hset | apply Hsettle].
    + apply Hset.
  - destruct w1, w2. simpl in *. injection Heq. intros. subst. reflexivity.
  - destruct (nth_error (Kaspa.blocks w1) i); exact Heq.
  - exact Heq.
Qed.

Lemma kaspa_selection_independent (evs : list Kaspa.Event) :
  forall w1 w2,
    Kaspa.setSelectedBlock None w1 = Kaspa.setSelectedBlock None w2 ->
    Kaspa.produced evs w1 = Kaspa.produced (filter kaspa_clock_event evs) w2
    /\ Kaspa.setSelectedBlock None (Kaspa.run evs w1)
       = Kaspa.setSelectedBlock None (Kaspa.run (filter kaspa_clock_event evs) w2).
Proof.
  induction evs as [| e rest IH]; intros w1 w2 Heq; [split; [reflexivity | exact Heq] |].
  destruct (kaspa_step_modulo_selection e w1 w2 Heq) as [Hstep Hsnd].
  cbn [filter Kaspa.run Kaspa.produced].
  destruct (kaspa_clock_event e) eqn:Hclock.
  - destruct (IH _ _ Hstep) as [Hp Hr].
    cbn [Kaspa.run Kaspa.produced]. split; [| exact Hr].
    rewrite Hp. f_equal.
    destruct e; try reflexivity. rewrite Hsnd. reflexivity.
  - destruct (IH _ _ Hstep) as [Hp Hr]. split; [| exact Hr].
    rewrite Hp. destruct e; try discriminate; reflexivity.
Qed.

(** Frames leave the selection alone. *)
Lemma kaspa_frames_keep_selection (times : list Z) :
  forall w, Kaspa.selectedBlock (Kaspa.run (map Kaspa.Frame times) w)
            = Kaspa.selectedBlock w.
Proof.
  induction times as [| now rest IH]; intros w; simpl; [reflexivity |].
  rewrite IH.
  destruct (kaspa_frame_cases now w) as [[_ [Hsame _]] | [Hf _]].
  - rewrite Hsame. reflexivity.
  - apply (kaspa_frame_fires now w Hf).
Qed.

(** A selection whose id is no longer in the history marks no block. *)
Lemma kaspa_stale_selection (w : Kaspa.World) (b : Kaspa.BlockData) :
  Kaspa.selectedBlock w = Some b ->
  existsb (fun a => Kaspa.id a =? Kaspa.id b) (Kaspa.blocks w) = false ->
  Forall (fun p => snd p = false) (Kaspa.render w).
Proof.
  intros Hsel Hgone. unfold Kaspa.render. rewrite Forall_map. simpl.
  unfold Kaspa.isSelected, Kaspa.selectedBlockId. rewrite Hsel.
  rewrite Forall_forall. intros a Ha.
  destruct (Z.eqb_spec (Kaspa.id b) (Kaspa.id a)) as [Heq | _]; [| reflexivity].
  exfalso.
  assert (Hex : existsb (fun a => Kaspa.id a =? Kaspa.id b) (Kaspa.blocks w) = true).
  { apply existsb_exists. exists a. split; [assumption |]. apply Z.eqb_eq. auto. }
  congruence.
Qed.

(** *** Edges *)

(** Each parent id of a block gives one entry: nothing when no block of the
    history has that id, and otherwise a line to a block with that id. *)
Lemma kaspa_edges_entries (data : Kaspa.BlockData) (allBlocks : list Kaspa.BlockData)
    (sel : bool) :
  Forall2 (fun p e =>
             match e with
             | None => ~ In p (map Kaspa.id allBlocks)
             | Some line =>
                 exists parent, In parent allBlocks
                                /\ Kaspa.id parent = p
                                /\ key line = (Kaspa.id data, p)
                                /\ points line = (Kaspa.position data, Kaspa.position parent)
             end)
          (Kaspa.parents data) (KaspaView.edges data allBlocks sel).
Proof.
  unfold KaspaView.edges.
  induction (Kaspa.parents data) as [| p ps IH]; simpl; constructor; auto.
  destruct (find (fun b => Kaspa.id b =? p) allBlocks) as [parent |] eqn:Hfind.
  - apply find_some in Hfind. destruct Hfind as [Hin Hid].
    apply Z.eqb_eq in Hid. exists parent. auto.
  - intros Hin. apply in_map_iff in Hin. destruct Hin as [a [Ha Hina]].
    pose proof (find_none _ _ Hfind a Hina) as Hno. simpl in Hno.
    apply Z.eqb_neq in Hno. congruence.
Qed.

(** In every reachable history the parents of a block are distinct and
    have smaller ids than the block. *)
Lemma kaspa_history_parents (t0 t1 : Z) (src : nat -> float) (evs : list Kaspa.Event) :
  Forall (fun b => NoDup (Kaspa.parents b)
                   /\ Forall (fun p => p < Kaspa.id b) (Kaspa.parents b))
         (Kaspa.blocks (Kaspa.run evs (Kaspa.mount t0 t1 src))).
Proof.
  apply kaspa_history_Forall.
  - simpl. split; constructor.
  - intros now w b Hinv Hb.
    destruct (proj1 produced_block_id now w b Hb) as [Hid [_ [_ [_ Hp]]]].
    destruct (kaspa_findParents_spec (Kaspa.blocks w) (advance 2 (Kaspa.rng w)))
      as [Hsub _].
    destruct (parents_of_history Kaspa.id 8 75 (Kaspa.lastIdRef w) (Kaspa.blocks w)
                (fst (Kaspa.findParents (Kaspa.blocks w) (advance 2 (Kaspa.rng w))))
                Hinv Hsub) as [Hall [Hnd _]].
    rewrite Hp, Hid. split; [exact Hnd |].
    eapply Forall_impl; [| exact Hall]. simpl. intros p [a [_ [_ Hlt]]]. exact Hlt.
Qed.

(** In every reachable history the depth of a block is 1.5 times its id. *)
Lemma kaspa_history_depth (t0 t1 : Z) (src : nat -> float) (evs : list Kaspa.Event) :
  Forall (fun b => snd (Kaspa.position b) = (Js.num (Kaspa.id b) * 1.5)%float)
         (Kaspa.blocks (Kaspa.run evs (Kaspa.mount t0 t1 src))).
Proof.
  apply kaspa_history_Forall.
  - reflexivity.
  - intros now w b Hinv Hb.
    destruct (kaspa_frame_fires now w (kaspa_frame_some _ _ _ Hb)) as [Hsome _].
    rewrite Hsome in Hb. injection Hb as <-.
    destruct (kaspa_newBlock_spec now (Kaspa.lastIdRef w + 1) (Kaspa.blocks w) (Kaspa.rng w))
      as [Hid _].
    destruct (kaspa_newBlock_rest now (Kaspa.lastIdRef w + 1) (Kaspa.blocks w) (Kaspa.rng w))
      as [Hpos _].
    rewrite Hpos, Hid. reflexivity.
Qed.

(** The newest block of a reachable history is its last element and carries
    the id counter. *)
Lemma kaspa_newest (t0 t1 : Z) (src : nat -> float) (evs : list Kaspa.Event) :
  let w := Kaspa.run evs (Kaspa.mount t0 t1 src) in
  exists front newest,
    Kaspa.blocks w = front ++ [newest]
    /\ Kaspa.id newest = Kaspa.lastIdRef w
    /\ Forall (fun b => Kaspa.id b < Kaspa.lastIdRef w) front.
Proof.
  intros w.
  pose proof (kaspa_reachable_inv t0 t1 src evs) as Hinv. fold w in Hinv.
  destruct (kaspa_newest_first_inv t0 t1 src evs) as [Hids _]. fold w in Hids.
  destruct Hinv as [Hsorted [_ [Hne _]]].
  destruct (exists_last Hne) as [front [newest Hblocks]].
  exists front, newest. rewrite Hblocks in *.
  rewrite rev_app_distr, length_app in Hids. simpl in Hids.
  replace (length front + 1)%nat with (S (length front)) in Hids by lia.
  simpl in Hids. injection Hids as Hid _.
  assert (Hid' : Kaspa.id newest = Kaspa.lastIdRef w) by lia.
  repeat split; auto.
  rewrite map_app in Hsorted. simpl in Hsorted.
  apply sorted_before_last in Hsorted. rewrite Forall_map in Hsorted.
  rewrite <- Hid'. exact Hsorted.
Qed.

End KaspaHistory.

(** ** More about the second theme *)

Section SuiHistory.
Context {RT : Js.Runtime}.

(** Every event that is not a frame leaves the scene, the overlay, the
    random source and the sound log alone. *)
Lemma sui_step_other (e : Sui.Event) (w : Sui.World) :
  (forall now, e <> Sui.Frame now) ->
  Sui.blocks (Sui.step e w) = Sui.blocks w
  /\ Sui.lastIdRef (Sui.step e w) = Sui.lastIdRef w
  /\ Sui.lastTimeRef (Sui.step e w) = Sui.lastTimeRef w
  /\ Sui.rng (Sui.step e w) = Sui.rng w
  /\ Sui.played (Sui.step e w) = Sui.played w.
Proof.
  intros Hnf. destruct e as [now | | i |]; simpl.
  - exfalso. apply (Hnf now). reflexivity.
  - repeat split.
  - destruct (nth_error (Sui.blocks w) i); repeat split.
  - repeat split.
Qed.

Ltac sui_other_event w :=
  match goal with
  | |- context [Sui.step ?e w] =>
      destruct (sui_step_other e w ltac:(intros; discriminate))
        as [?Hblocks [?Hlast [?Htime [?Hrng ?Hplayed]]]]
  end.

(** A frame either changes nothing or fires. *)
Lemma sui_frame_cases (now : Z) (w : Sui.World) :
  (Sui.fires now w = false /\ Sui.useFrame now w = w /\ snd (Sui.frame now w) = None)
  \/ (Sui.fires now w = true
      /\ exists b, snd (Sui.frame now w) = Some b
                   /\ Sui.id b = Sui.lastIdRef w + 1
                   /\ Sui.createdAt b = now
                   /\ Sui.blocks (Sui.useFrame now w) = Sui.appendBlock b (Sui.blocks w)
                   /\ Sui.lastIdRef (Sui.useFrame now w) = Sui.lastIdRef w + 1
                   /\ Sui.lastTimeRef (Sui.useFrame now w) = now).
Proof.
  destruct (Sui.fires now w) eqn:Hf.
  - right. split; [reflexivity |].
    destruct (sui_frame_fires now w Hf) as [Hsome [Hblocks [Hid [Htime _]]]].
    destruct (sui_newBlock_spec now (Sui.lastIdRef w + 1) (Sui.blocks w) (Sui.rng w))
      as [Hi [Hc _]].
    eexists. split; [exact Hsome |]. unfold Sui.useFrame. auto.
  - left. unfold Sui.useFrame. rewrite (sui_frame_idle _ _ Hf). auto.
Qed.

(** Induction over the runs of the mounted page. *)
Lemma sui_run_invariant (I : Sui.World -> Prop) :
  (forall e w, SuiInv w -> I w -> I (Sui.step e w)) ->
  forall evs w, SuiInv w -> I w -> I (Sui.run evs w).
Proof.
  intros Hstep. induction evs as [| e rest IH]; intros w Hinv HI; simpl; auto.
  apply IH; [apply sui_step_inv | apply Hstep]; assumption.
Qed.

(** A property of single blocks that the genesis block has, and that every
    block produced in a well-formed world has, holds throughout every
    reachable history. *)
Lemma sui_history_Forall (P : Sui.BlockData -> Prop) (t0 t1 : Z) (src : nat -> float) :
  P (Sui.genesis t1) ->
  (forall now w b, SuiInv w -> snd (Sui.frame now w) = Some b -> P b) ->
  forall evs, Forall P (Sui.blocks (Sui.run evs (Sui.mount t0 t1 src))).
Proof.
  intros Hgen Hnew evs.
  apply (sui_run_invariant (fun w => Forall P (Sui.blocks w)));
    [| apply sui_mount_inv | repeat constructor; exact Hgen].
  intros e w Hinv Hall.
  destruct e as [now | | i |];
    try (sui_other_event w; rewrite Hblocks; exact Hall).
  simpl. destruct (sui_frame_cases now w) as [[_ [Hsame _]] | [_ [b [Hb [_ [_ [Hblocks _]]]]]]].
  - rewrite Hsame. exact Hall.
  - rewrite Hblocks. apply (Forall_appended 40); [exact Hall |].
    eapply Hnew; eauto.
Qed.

Lemma sui_newest_first_inv (t0 t1 : Z) (src : nat -> float) (evs : list Sui.Event) :
  let w := Sui.run evs (Sui.mount t0 t1 src) in
  map Sui.id (rev (Sui.blocks w))
  = map (fun k => Sui.lastIdRef w - Z.of_nat k) (seq 0 (length (Sui.blocks w)))
  /\ Z.of_nat (length (Sui.blocks w)) = Z.min 40 (Sui.lastIdRef w + 1).
Proof.
  apply (sui_run_invariant
           (fun w => map Sui.id (rev (Sui.blocks w))
                     = map (fun k => Sui.lastIdRef w - Z.of_nat k)
                           (seq 0 (length (Sui.blocks w)))
                     /\ Z.of_nat (length (Sui.blocks w))
                        = Z.min 40 (Sui.lastIdRef w + 1)));
    [| apply sui_mount_inv | split; reflexivity].
  intros e w Hinv [Hids Hlen].
  destruct e as [now | | i |];
    try (sui_other_event w; rewrite Hblocks, Hlast; split; assumption).
  simpl.
  destruct (sui_frame_cases now w)
    as [[_ [Hsame _]] | [_ [b [Hb [Hid [_ [Hblocks [Hlast _]]]]]]]].
  - rewrite Hsame. split; assumption.
  - rewrite Hblocks, Hlast.
    apply (newest_first_append Sui.id 40); auto. lia.
Qed.


(** The rest of what [newBlock] computes: the position, the random source
    it leaves, and the sound that goes with the color. *)
Lemma sui_newBlock_rest (now newId : Z) (blocks : list Sui.BlockData) (g : Js.Rng) :
  let r := Sui.newBlock now newId blocks g in
  let win := length (Js.slice_last 6 blocks) in
  let rnd := Js.draws g (win + (2 + Js.cursor g)) in
  Sui.position (fst (fst r))
  = ((Js.draws g (Js.cursor g) - 0.5) * 8,
     (Js.draws g (S (Js.cursor g)) - 0.5) * 4,
     Js.num newId * 1.5)%float
  /\ snd r = advance (5 + win + match snd (Sui.colorLogic rnd) with
                                | Sui.normal => 1
                                | _ => 0
                                end) g
  /\ sui_sound_of (fst (fst r)) (snd (fst r)).
Proof.
  cbv zeta. unfold Sui.newBlock, Js.bind, Js.Math_random.
  cbn [Js.draws Js.cursor].
  change {| Js.draws := Js.draws g; Js.cursor := S (S (Js.cursor g)) |}
    with (advance 2 g).
  destruct (sui_findParents_spec blocks (advance 2 g)) as [_ [Hrng _]].
  destruct (Sui.findParents blocks (advance 2 g)) as [ps g3].
  simpl in Hrng. subst g3. cbn [Js.draws Js.cursor advance fst].
  unfold sui_sound_of.
  unfold Sui.colorLogic.
  destruct (Js.gtb _ 0.95) eqn:H95; [| destruct (Js.gtb _ 0.98) eqn:H98]; simpl.
  - repeat split; [unfold advance; simpl; f_equal; lia | left; auto].
  - apply gtb_098_095 in H98. congruence.
  - repeat split; [unfold advance; simpl; f_equal; lia |].
    right. split; [reflexivity |]. eexists. reflexivity.
Qed.

(** What a firing frame does to the environment and to the overlay: the
    rate shown is computed from one more draw, the last one of the frame. *)
Lemma sui_frame_env (now : Z) (w : Sui.World) :
  Sui.fires now w = true ->
  let r := Sui.newBlock now (Sui.lastIdRef w + 1) (Sui.blocks w) (Sui.rng w) in
  let w' := Sui.useFrame now w in
  Sui.rng w' = advance 1 (snd r)
  /\ Sui.played w' = Sui.played w ++ [snd (fst r)]
  /\ Js.baseHeight (Sui.statsRefs w') = Js.baseHeight (Sui.statsRefs w)
  /\ Js.bps (Sui.statsRefs w')
     = match Js.bps (Sui.statsRefs w) with
       | Some _ =>
           Some (Js.Number_toFixed 0
                   (2000 + Js.draws (snd r) (Js.cursor (snd r)) * 3000)%float
                 ++ " TPS")%string
       | None => None
       end
  /\ Js.count (Sui.statsRefs w')
     = match Js.count (Sui.statsRefs w) with
       | Some _ => Some (Js.Number_toLocaleString
                           (match Js.baseHeight (Sui.statsRefs w) with
                            | Some h => h
                            | None => 0
                            end + (Sui.lastIdRef w + 1)))
       | None => None
       end.
Proof.
  unfold Sui.fires, Sui.useFrame, Sui.frame.
  destruct (Sui.hasStartedRef w), (Sui.isRunning w); simpl; try discriminate.
  intros ->.
  destruct (Sui.newBlock _ _ _ _) as [[b tone] g]. simpl.
  repeat split.
Qed.


(** Two blocks are never produced within 600 ms of each other. *)
Lemma sui_produced_times (evs : list Sui.Event) :
  forall w,
    StronglySorted (fun a b => a + 600 < b) (map Sui.createdAt (Sui.produced evs w))
    /\ Forall (fun t => Sui.lastTimeRef w + 600 < t)
              (map Sui.createdAt (Sui.produced evs w)).
Proof.
  induction evs as [| e rest IH]; intros w; simpl.
  - split; constructor.
  - destruct (IH (Sui.step e w)) as [Hsorted Hafter].
    destruct e as [now | | i |];
      try (sui_other_event w; rewrite Htime in Hafter; simpl; split; assumption).
    simpl in Hsorted, Hafter. simpl.
    destruct (sui_frame_cases now w)
      as [[_ [Hsame Hnone]] | [Hf [b [Hb [_ [Hc [_ [_ Htime]]]]]]]].
    + rewrite Hnone. rewrite Hsame in *. simpl. split; assumption.
    + rewrite Hb. rewrite Htime in Hafter. simpl. rewrite Hc.
      assert (Hgap : Sui.lastTimeRef w + 600 < now).
      { unfold Sui.fires in Hf.
        apply andb_prop in Hf. destruct Hf as [_ Hf].
        rewrite Z.gtb_ltb in Hf. apply Z.ltb_lt in Hf. lia. }
      split.
      * constructor; assumption.
      * constructor; [exact Hgap |].
        eapply Forall_impl; [| exact Hafter]. simpl. intros t Ht. lia.
Qed.


(** The readiness flag is never lowered, and the id counter and the time of
    the last fire never decrease. *)
Lemma sui_monotone (evs : list Sui.Event) :
  forall w,
    (Sui.hasStartedRef w = true -> Sui.hasStartedRef (Sui.run evs w) = true)
    /\ Sui.lastIdRef w <= Sui.lastIdRef (Sui.run evs w)
    /\ Sui.lastTimeRef w <= Sui.lastTimeRef (Sui.run evs w).
Proof.
  induction evs as [| e rest IH]; intros w; simpl.
  - repeat split; auto; lia.
  - destruct (IH (Sui.step e w)) as [Hready [Hid Htime]].
    assert (Hstep : (Sui.hasStartedRef w = true -> Sui.hasStartedRef (Sui.step e w) = true)
                    /\ Sui.lastIdRef w <= Sui.lastIdRef (Sui.step e w)
                    /\ Sui.lastTimeRef w <= Sui.lastTimeRef (Sui.step e w)).
    { destruct e as [now | | i |]; simpl.
      - destruct (Sui.fires now w) eqn:Hf.
        + destruct (sui_frame_fires now w Hf)
            as [_ [_ [Hi [Ht [_ [_ Hr]]]]]].
          unfold Sui.useFrame. rewrite Hi, Ht, Hr.
          unfold Sui.fires in Hf. apply andb_prop in Hf. destruct Hf as [_ Hf].
          rewrite Z.gtb_ltb in Hf. apply Z.ltb_lt in Hf.
          repeat split; auto; lia.
        + unfold Sui.useFrame. rewrite (sui_frame_idle _ _ Hf). simpl.
          repeat split; auto; lia.
      - simpl. repeat split; auto; lia.
      - destruct (nth_error (Sui.blocks w) i); simpl; repeat split; auto; lia.
      - simpl. repeat split; auto; lia. }
    destruct Hstep as [Hready' [Hid' Htime']].
    repeat split; auto; lia.
Qed.

Lemma sui_counter_nonneg (w : Sui.World) : SuiInv w -> 0 <= Sui.lastIdRef w.
Proof.
  intros [_ [Hall [Hne _]]].
  destruct (Sui.blocks w) as [| b rest]; [congruence |].
  inversion Hall; subst. lia.
Qed.

(** The overlay of the mounted page: the base height stays 0 (the effect
    that would install the mock height tests the height it is about to
    replace, which is 0), so the count is the id counter alone; the rate is
    recomputed from the last draw of each firing frame. *)
Lemma sui_overlay (t0 t1 : Z) (src : nat -> float) (evs : list Sui.Event) :
  let w := Sui.run evs (Sui.mount t0 t1 src) in
  Js.baseHeight (Sui.statsRefs w) = Some 0
  /\ Js.bps (Sui.statsRefs w)
     = Some (if Sui.lastIdRef w =? 0 then "0"%string
             else (Js.Number_toFixed 0
                     (2000 + Js.draws (Sui.rng w) (Js.cursor (Sui.rng w) - 1) * 3000)%float
                   ++ " TPS")%string)
  /\ Js.count (Sui.statsRefs w)
     = Some (if Sui.lastIdRef w =? 0 then "LOADING..."%string
             else Js.Number_toLocaleString (Sui.lastIdRef w)).
Proof.
  apply (sui_run_invariant
           (fun w =>
              Js.baseHeight (Sui.statsRefs w) = Some 0
              /\ Js.bps (Sui.statsRefs w)
                 = Some (if Sui.lastIdRef w =? 0 then "0"%string
                         else (Js.Number_toFixed 0
                                 (2000 + Js.draws (Sui.rng w)
                                           (Js.cursor (Sui.rng w) - 1) * 3000)%float
                               ++ " TPS")%string)
              /\ Js.count (Sui.statsRefs w)
                 = Some (if Sui.lastIdRef w =? 0 then "LOADING..."%string
                         else Js.Number_toLocaleString (Sui.lastIdRef w))));
    [| apply sui_mount_inv | simpl; repeat split].
  intros e w Hinv [Hbase [Hbps Hcount]].
  pose proof (sui_counter_nonneg w Hinv) as Hnonneg.
  destruct e as [now | | i |]; simpl.
  - destruct (Sui.fires now w) eqn:Hf.
    + destruct (sui_frame_fires now w Hf) as [_ [_ [Hid _]]].
      destruct (sui_frame_env now w Hf) as [Hrng [_ [Hbase' [Hbps' Hcount']]]].
      cbv zeta in Hid, Hrng, Hbase', Hbps', Hcount'.
      fold (Sui.useFrame now w) in Hid.
      rewrite Hid, Hrng, Hbps', Hcount', Hbase', Hbps, Hcount, Hbase.
      destruct (Z.eqb_spec (Sui.lastIdRef w + 1) 0) as [Hz | _]; [lia |].
      cbn [advance Js.draws Js.cursor Nat.add Nat.sub].
      rewrite Nat.sub_0_r. repeat split.
    + unfold Sui.useFrame. rewrite (sui_frame_idle _ _ Hf). simpl.
      repeat split; auto.
  - repeat split; auto.
  - destruct (nth_error (Sui.blocks w) i); simpl; repeat split; auto.
  - repeat split; auto.
Qed.





(** The clock does not look at the selection. *)
Lemma sui_frame_selection (now : Z) (sel : option Sui.BlockData) (w : Sui.World) :
  Sui.frame now (Sui.setSelectedBlock sel w)
  = (Sui.setSelectedBlock sel (fst (Sui.frame now w)), snd (Sui.frame now w)).
Proof.
  unfold Sui.frame.
  cbn [Sui.setSelectedBlock Sui.hasStartedRef Sui.isRunning Sui.lastTimeRef
       Sui.lastIdRef Sui.blocks Sui.rng Sui.statsRefs Sui.played
       Sui.selectedBlock].
  destruct (negb (Sui.hasStartedRef w) || negb (Sui.isRunning w)); [reflexivity |].
  destruct (now - Sui.lastTimeRef w >? 600); [| reflexivity].
  destruct (Sui.newBlock _ _ _ _) as [[b tone] g].
  destruct (Js.Math_random g) as [r g']. reflexivity.
Qed.

Lemma sui_selection_eta (w : Sui.World) :
  Sui.setSelectedBlock (Sui.selectedBlock w) (Sui.setSelectedBlock None w) = w.
Proof. destruct w; reflexivity. Qed.

(** Two worlds that differ at most in the selection stay so under every
    event, and a frame produces the same block in both. *)
Lemma sui_step_modulo_selection (e : Sui.Event) (w1 w2 : Sui.World) :
  Sui.setSelectedBlock None w1 = Sui.setSelectedBlock None w2 ->
  Sui.setSelectedBlock None (Sui.step e w1)
  = (if sui_clock_event e
     then Sui.setSelectedBlock None (Sui.step e w2)
     else Sui.setSelectedBlock None w2)
  /\ forall now, snd (Sui.frame now w1) = snd (Sui.frame now w2).
Proof.
  intros Heq.
  assert (Hframe : forall now,
             Sui.frame now w1
             = (Sui.setSelectedBlock (Sui.selectedBlock w1)
                  (Sui.setSelectedBlock None (fst (Sui.frame now w2))),
                snd (Sui.frame now w2))).
  { intros now.
    rewrite <- (sui_selection_eta w1) at 1. rewrite Heq.
    rewrite !sui_frame_selection. reflexivity. }
  split; [| intros now; rewrite Hframe; reflexivity].
  assert (Hblocks : Sui.blocks w1 = Sui.blocks w2).
  { destruct w1, w2. simpl in *. injection Heq. intros. subst. auto. }
  destruct e as [now | | i |]; cbn [sui_clock_event Sui.step].
  - unfold Sui.useFrame. rewrite Hframe. destruct (Sui.frame now w2). reflexivity.
  - destruct w1, w2. simpl in *. injection Heq. intros. subst. reflexivity.
  - destruct (nth_error (Sui.blocks w1) i); exact Heq.
  - exact Heq.
Qed.

Lemma sui_selection_independent (evs : list Sui.Event) :
  forall w1 w2,
    Sui.setSelectedBlock None w1 = Sui.setSelectedBlock None w2 ->
    Sui.produced evs w1 = Sui.produced (filter sui_clock_event evs) w2
    /\ Sui.setSelectedBlock None (Sui.run evs w1)
       = Sui.setSelectedBlock None (Sui.run (filter sui_clock_event evs) w2).
Proof.
  induction evs as [| e rest IH]; intros w1 w2 Heq; [split; [reflexivity | exact Heq] |].
  destruct (sui_step_modulo_selection e w1 w2 Heq) as [Hstep Hsnd].
  cbn [filter Sui.run Sui.produced].
  destruct (sui_clock_event e) eqn:Hclock.
  - destruct (IH _ _ Hstep) as [Hp Hr].
    cbn [Sui.run Sui.produced]. split; [| exact Hr].
    rewrite Hp. f_equal.
    destruct e; try reflexivity. rewrite Hsnd. reflexivity.
  - destruct (IH _ _ Hstep) as [Hp Hr]. split; [| exact Hr].
    rewrite Hp. destruct e; try discriminate; reflexivity.
Qed.

(** Frames leave the selection alone. *)
Lemma sui_frames_keep_selection (times : list Z) :
  forall w, Sui.selectedBlock (Sui.run (map Sui.Frame times) w)
            = Sui.selectedBlock w.
Proof.
  induction times as [| now rest IH]; intros w; simpl; [reflexivity |].
  rewrite IH.
  destruct (sui_frame_cases now w) as [[_ [Hsame _]] | [Hf _]].
  - rewrite Hsame. reflexivity.
  - apply (sui_frame_fires now w Hf).
Qed.

(** A selection whose id is no longer in the history marks no block. *)
Lemma sui_stale_selection (w : Sui.World) (b : Sui.BlockData) :
  Sui.selectedBlock w = Some b ->
  existsb (fun a => Sui.id a =? Sui.id b) (Sui.blocks w) = false ->
  Forall (fun p => snd p = false) (Sui.render w).
Proof.
  intros Hsel Hgone. unfold Sui.render. rewrite Forall_map. simpl.
  unfold Sui.isSelected, Sui.selectedBlockId. rewrite Hsel.
  rewrite Forall_forall. intros a Ha.
  destruct (Sui.id b =? 0); [reflexivity |].
  destruct (Z.eqb_spec (Sui.id b) (Sui.id a)) as [Heq | _]; [| reflexivity].
  exfalso.
  assert (Hex : existsb (fun a => Sui.id a =? Sui.id b) (Sui.blocks w) = true).
  { apply existsb_exists. exists a. split; [assumption |]. apply Z.eqb_eq. auto. }
  congruence.
Qed.

(** *** Edges *)

(** Each parent id of a block gives one entry: nothing when no block of the
    history has that id, and otherwise a line to a block with that id. *)
Lemma sui_edges_entries (data : Sui.BlockData) (allBlocks : list Sui.BlockData)
    (sel : bool) :
  Forall2 (fun p e =>
             match e with
             | None => ~ In p (map Sui.id allBlocks)
             | Some line =>
                 exists parent, In parent allBlocks
                                /\ Sui.id parent = p
                                /\ key line = (Sui.id data, p)
                                /\ points line = (Sui.position data, Sui.position parent)
             end)
          (Sui.parents data) (SuiView.edges data allBlocks sel).
Proof.
  unfold SuiView.edges.
  induction (Sui.parents data) as [| p ps IH]; simpl; constructor; auto.
  destruct (find (fun b => Sui.id b =? p) allBlocks) as [parent |] eqn:Hfind.
  - apply find_some in Hfind. destruct Hfind as [Hin Hid].
    apply Z.eqb_eq in Hid. exists parent. auto.
  - intros Hin. apply in_map_iff in Hin. destruct Hin as [a [Ha Hina]].
    pose proof (find_none _ _ Hfind a Hina) as Hno. simpl in Hno.
    apply Z.eqb_neq in Hno. congruence.
Qed.

(** In every reachable history the parents of a block are distinct and
    have smaller ids than the block. *)
Lemma sui_history_parents (t0 t1 : Z) (src : nat -> float) (evs : list Sui.Event) :
  Forall (fun b => NoDup (Sui.parents b)
                   /\ Forall (fun p => p < Sui.id b) (Sui.parents b))
         (Sui.blocks (Sui.run evs (Sui.mount t0 t1 src))).
Proof.
  apply sui_history_Forall.
  - simpl. split; constructor.
  - intros now w b Hinv Hb.
    destruct (proj2 produced_block_id now w b Hb) as [Hid [_ [_ [_ Hp]]]].
    destruct (sui_findParents_spec (Sui.blocks w) (advance 2 (Sui.rng w)))
      as [Hsub _].
    destruct (parents_of_history Sui.id 6 40 (Sui.lastIdRef w) (Sui.blocks w)
                (fst (Sui.findParents (Sui.blocks w) (advance 2 (Sui.rng w))))
                Hinv Hsub) as [Hall [Hnd _]].
    rewrite Hp, Hid. split; [exact Hnd |].
    eapply Forall_impl; [| exact Hall]. simpl. intros p [a [_ [_ Hlt]]]. exact Hlt.
Qed.

(** In every reachable history the depth of a block is 1.5 times its id. *)
Lemma sui_history_depth (t0 t1 : Z) (src : nat -> float) (evs : list Sui.Event) :
  Forall (fun b => snd (Sui.position b) = (Js.num (Sui.id b) * 1.5)%float)
         (Sui.blocks (Sui.run evs (Sui.mount t0 t1 src))).
Proof.
  apply sui_history_Forall.
  - reflexivity.
  - intros now w b Hinv Hb.
    destruct (sui_frame_fires now w (sui_frame_some _ _ _ Hb)) as [Hsome _].
    rewrite Hsome in Hb. injection Hb as <-.
    destruct (sui_newBlock_spec now (Sui.lastIdRef w + 1) (Sui.blocks w) (Sui.rng w))
      as [Hid _].
    destruct (sui_newBlock_rest now (Sui.lastIdRef w + 1) (Sui.blocks w) (Sui.rng w))
      as [Hpos _].
    rewrite Hpos, Hid. reflexivity.
Qed.

(** The newest block of a reachable history is its last element and carries
    the id counter. *)
Lemma sui_newest (t0 t1 : Z) (src : nat -> float) (evs : list Sui.Event) :
  let w := Sui.run evs (Sui.mount t0 t1 src) in
  exists front newest,
    Sui.blocks w = front ++ [newest]
    /\ Sui.id newest = Sui.lastIdRef w
    /\ Forall (fun b => Sui.id b < Sui.lastIdRef w) front.
Proof.
  intros w.
  pose proof (sui_reachable_inv t0 t1 src evs) as Hinv. fold w in Hinv.
  destruct (sui_newest_first_inv t0 t1 src evs) as [Hids _]. fold w in Hids.
  destruct Hinv as [Hsorted [_ [Hne _]]].
  destruct (exists_last Hne) as [front [newest Hblocks]].
  exists front, newest. rewrite Hblocks in *.
  rewrite rev_app_distr, length_app in Hids. simpl in Hids.
  replace (length front + 1)%nat with (S (length front)) in Hids by lia.
  simpl in Hids. injection Hids as Hid _.
  assert (Hid' : Sui.id newest = Sui.lastIdRef w) by lia.
  repeat split; auto.
  rewrite map_app in Hsorted. simpl in Hsorted.
  apply sorted_before_last in Hsorted. rewrite Forall_map in Hsorted.
  rewrite <- Hid'. exact Hsorted.
Qed.

End SuiHistory.

(** ** The window, the cap and the edges *)

(** A block of the parent window is still in the history after the append,
    because the window is narrower than the cap. *)
Lemma window_survives {B : Type} (K cap : nat) (blocks : list B) (a b : B) :
  (K < cap)%nat -> (length blocks <= cap)%nat ->
  In a (Js.slice_last K blocks) ->
  In a (let updated := blocks ++ [b] in
        if (cap <? length updated)%nat then Js.shift updated else updated).
Proof.
  intros HK Hlen Hin. cbv zeta.
  destruct (Nat.ltb_spec cap (length (blocks ++ [b]))) as [Hover | Hfit].
  - rewrite length_app in Hover. simpl in Hover.
    destruct blocks as [| oldest rest]; [contradiction |].
    simpl. apply in_or_app. left.
    unfold Js.slice_last in Hin. simpl length in *.
    replace (S (length rest) - K)%nat with (S (length rest - K)) in Hin by lia.
    simpl in Hin.
    rewrite <- (firstn_skipn (length rest - K) rest).
    apply in_or_app. right. exact Hin.
  - apply in_or_app. left. eapply slice_last_In; eauto.
Qed.

(** The keys of the drawn lines of a block follow its parent list. *)
Lemma drawn_keys_subseq (j : Z) (g : Z -> option Line) (ps : list Z) :
  (forall p line, g p = Some line -> key line = (j, p)) ->
  Subseq (map key (drawn (map g ps))) (map (fun p => (j, p)) ps).
Proof.
  intros Hkey. induction ps as [| p ps IH]; simpl; [constructor |].
  destruct (g p) as [line |] eqn:Hg; simpl.
  - rewrite (Hkey p line Hg). apply Subseq_take. exact IH.
  - apply Subseq_skip. exact IH.
Qed.

Lemma NoDup_pair_with {A : Type} (j : A) (ps : list Z) :
  NoDup ps -> NoDup (map (fun p => (j, p)) ps).
Proof.
  induction 1 as [| p ps Hnotin Hnd IH]; simpl; constructor; auto.
  intros Hin. apply in_map_iff in Hin. destruct Hin as [q [Hq Hinq]].
  injection Hq as ->. contradiction.
Qed.

Lemma flags_newest_only {B : Type} (id : B -> Z) (lastId : Z) (front : list B) (newest : B) :
  id newest = lastId -> Forall (fun b => id b < lastId) front ->
  map (fun b => id b =? lastId) (front ++ [newest])
  = repeat false (length (front ++ [newest]) - 1) ++ [true].
Proof.
  intros Hid Hfront. rewrite map_app, length_app. simpl.
  replace (length front + 1 - 1)%nat with (length front) by lia.
  rewrite (proj2 (Z.eqb_eq _ _) Hid). f_equal.
  induction Hfront as [| b front Hb _ IH]; simpl; [reflexivity |].
  rewrite IH. f_equal. apply Z.eqb_neq. lia.
Qed.

(** ** Further properties of both themes *)

(** X1: the bounded history always holds the most recent blocks: read from
    the newest block backwards its ids are the id counter, the counter
    minus one, and so on without a gap, and its length is the smaller of the
    cap (75 / 40) and the number of blocks created so far (the counter plus
    one for the genesis block). *)
Theorem history_holds_latest_ids {RT : Js.Runtime} :
  (forall t0 t1 src evs,
     let w := Kaspa.run evs (Kaspa.mount t0 t1 src) in
     map Kaspa.id (rev (Kaspa.blocks w))
     = map (fun k => Kaspa.lastIdRef w - Z.of_nat k) (seq 0 (length (Kaspa.blocks w)))
     /\ Z.of_nat (length (Kaspa.blocks w)) = Z.min 75 (Kaspa.lastIdRef w + 1))
  /\ (forall t0 t1 src evs,
        let w := Sui.run evs (Sui.mount t0 t1 src) in
        map Sui.id (rev (Sui.blocks w))
        = map (fun k => Sui.lastIdRef w - Z.of_nat k) (seq 0 (length (Sui.blocks w)))
        /\ Z.of_nat (length (Sui.blocks w)) = Z.min 40 (Sui.lastIdRef w + 1)).
Proof.
  split; intros t0 t1 src evs.
  - apply kaspa_newest_first_inv.
  - apply sui_newest_first_inv.
Qed.

(** X2: the clock is a rate limiter: the creation times of the blocks
    produced in any run of the mounted page are more than 300 ms (first
    theme) / 600 ms (second theme) apart, each from every earlier one. *)
Theorem production_is_rate_limited {RT : Js.Runtime} :
  (forall t0 t1 src evs,
     StronglySorted (fun a b => a + 300 < b)
       (map Kaspa.createdAt (Kaspa.produced evs (Kaspa.mount t0 t1 src))))
  /\ (forall t0 t1 src evs,
        StronglySorted (fun a b => a + 600 < b)
          (map Sui.createdAt (Sui.produced evs (Sui.mount t0 t1 src)))).
Proof.
  split; intros t0 t1 src evs.
  - apply (kaspa_produced_times evs (Kaspa.mount t0 t1 src)).
  - apply (sui_produced_times evs (Sui.mount t0 t1 src)).
Qed.


(** X4: a firing frame consumes the random source in a fixed order and
    amount: x, y, one draw per block of the parent window, the category,
    one more draw only when the category is normal (the pitch of the
    sound), and three further draws (hash halves and difficulty in the
    first theme; hash, tps and the displayed rate in the second).  The
    sequence of values itself is never altered. *)
Theorem frame_draw_count {RT : Js.Runtime} :
  (forall now w,
     Kaspa.fires now w = true ->
     let win := length (Js.slice_last 8 (Kaspa.blocks w)) in
     let rnd := Js.draws (Kaspa.rng w) (win + (2 + Js.cursor (Kaspa.rng w))) in
     Kaspa.rng (Kaspa.useFrame now w)
     = advance (6 + win + match snd (Kaspa.colorLogic rnd) with
                          | Kaspa.normal => 1
                          | _ => 0
                          end) (Kaspa.rng w))
  /\ (forall now w,
        Sui.fires now w = true ->
        let win := length (Js.slice_last 6 (Sui.blocks w)) in
        let rnd := Js.draws (Sui.rng w) (win + (2 + Js.cursor (Sui.rng w))) in
        Sui.rng (Sui.useFrame now w)
        = advance (6 + win + match snd (Sui.colorLogic rnd) with
                             | Sui.normal => 1
                             | _ => 0
                             end) (Sui.rng w)).
Proof.
  split; intros now w Hf win rnd.
  - destruct (kaspa_frame_env now w Hf) as [Hrng _].
    destruct (kaspa_newBlock_rest now (Kaspa.lastIdRef w + 1) (Kaspa.blocks w) (Kaspa.rng w))
      as [_ [Hrest _]].
    cbv zeta in Hrng, Hrest. rewrite Hrng, Hrest. reflexivity.
  - destruct (sui_frame_env now w Hf) as [Hrng _].
    destruct (sui_newBlock_rest now (Sui.lastIdRef w + 1) (Sui.blocks w) (Sui.rng w))
      as [_ [Hrest _]].
    cbv zeta in Hrng, Hrest. rewrite Hrng, Hrest, advance_advance. reflexivity.
Qed.

(** X5: what the overlay shows in any run of the mounted page.  Before the
    first block: the initial texts.  Afterwards, first theme: the count is
    the base height plus the id counter, and the block rate is always the
    text of 1000 / 300, whatever the real time between blocks (the last-fire
    time has just been set to now when the rate is computed).  Second
    theme: the base height is 0 for ever (the mock height is never
    installed), so the count is the id counter alone, and the rate is
    2000 + 3000 times the last draw consumed. *)
Theorem overlay_texts {RT : Js.Runtime} :
  (forall t0 t1 src evs,
     let w := Kaspa.run evs (Kaspa.mount t0 t1 src) in
     Js.bps (Kaspa.statsRefs w)
     = Some (if Kaspa.lastIdRef w =? 0 then "0.0 BPS"%string
             else (Js.Number_toFixed 1 (1000 / Js.num 300 * 1)%float ++ " BPS")%string)
     /\ Js.count (Kaspa.statsRefs w)
        = Some (if Kaspa.lastIdRef w =? 0 then "LOADING..."%string
                else Js.Number_toLocaleString
                       (match Js.baseHeight (Kaspa.statsRefs w) with
                        | Some h => h
                        | None => 0
                        end + Kaspa.lastIdRef w)))
  /\ (forall t0 t1 src evs,
        let w := Sui.run evs (Sui.mount t0 t1 src) in
        Js.baseHeight (Sui.statsRefs w) = Some 0
        /\ Js.bps (Sui.statsRefs w)
           = Some (if Sui.lastIdRef w =? 0 then "0"%string
                   else (Js.Number_toFixed 0
                           (2000 + Js.draws (Sui.rng w) (Js.cursor (Sui.rng w) - 1) * 3000)%float
                         ++ " TPS")%string)
        /\ Js.count (Sui.statsRefs w)
           = Some (if Sui.lastIdRef w =? 0 then "LOADING..."%string
                   else Js.Number_toLocaleString (Sui.lastIdRef w))).
Proof.
  split; intros t0 t1 src evs.
  - destruct (kaspa_overlay t0 t1 src evs) as [_ [_ H]]. exact H.
  - apply sui_overlay.
Qed.

(** X6: what a run never undoes, from any world: the readiness flag stays
    up once it is up, the start flag of the first theme stays up once it
    is up, and the id counter and the last-fire time never decrease. *)
Theorem flags_and_counters_never_go_back {RT : Js.Runtime} :
  (forall evs w,
     (Kaspa.hasStartedRef w = true -> Kaspa.hasStartedRef (Kaspa.run evs w) = true)
     /\ (Kaspa.started w = true -> Kaspa.started (Kaspa.run evs w) = true)
     /\ Kaspa.lastIdRef w <= Kaspa.lastIdRef (Kaspa.run evs w)
     /\ Kaspa.lastTimeRef w <= Kaspa.lastTimeRef (Kaspa.run evs w))
  /\ (forall evs w,
        (Sui.hasStartedRef w = true -> Sui.hasStartedRef (Sui.run evs w) = true)
        /\ Sui.lastIdRef w <= Sui.lastIdRef (Sui.run evs w)
        /\ Sui.lastTimeRef w <= Sui.lastTimeRef (Sui.run evs w)).
Proof.
  split; intros evs w.
  - apply kaspa_monotone.
  - apply sui_monotone.
Qed.


(** X8: in the first theme the start button and the settling of the fetch
    commute: whichever comes first, the page ends in the same world. *)
Theorem start_and_fetch_commute {RT : Js.Runtime} :
  forall o w,
    Kaspa.run [Kaspa.FetchSettled o; Kaspa.ClickStart] w
    = Kaspa.run [Kaspa.ClickStart; Kaspa.FetchSettled o] w.
Proof. intros o w. simpl. apply kaspa_start_fetch_commute. Qed.

(** X9: the selection never influences the simulation: dropping every
    selection event (block clicks and deselections) from a run changes
    neither the blocks produced nor anything of the final world except the
    selection itself. *)
Theorem selection_never_influences_the_clock {RT : Js.Runtime} :
  (forall evs w,
     Kaspa.produced evs w = Kaspa.produced (filter kaspa_clock_event evs) w
     /\ Kaspa.setSelectedBlock None (Kaspa.run evs w)
        = Kaspa.setSelectedBlock None (Kaspa.run (filter kaspa_clock_event evs) w))
  /\ (forall evs w,
        Sui.produced evs w = Sui.produced (filter sui_clock_event evs) w
        /\ Sui.setSelectedBlock None (Sui.run evs w)
           = Sui.setSelectedBlock None (Sui.run (filter sui_clock_event evs) w)).
Proof.
  split; intros evs w.
  - apply kaspa_selection_independent. reflexivity.
  - apply sui_selection_independent. reflexivity.
Qed.

(** X10: a stale selection is kept and is harmless: frames never change the
    selected block, and when no block of the history carries the id of the
    selected block (it has been evicted) no block is rendered as
    selected. *)
Theorem stale_selection_is_kept_and_marks_nothing {RT : Js.Runtime} :
  (forall times w b,
     Kaspa.selectedBlock w = Some b ->
     let w' := Kaspa.run (map Kaspa.Frame times) w in
     Kaspa.selectedBlock w' = Some b
     /\ (existsb (fun a => Kaspa.id a =? Kaspa.id b) (Kaspa.blocks w') = false ->
         Forall (fun p => snd p = false) (Kaspa.render w')))
  /\ (forall times w b,
        Sui.selectedBlock w = Some b ->
        let w' := Sui.run (map Sui.Frame times) w in
        Sui.selectedBlock w' = Some b
        /\ (existsb (fun a => Sui.id a =? Sui.id b) (Sui.blocks w') = false ->
            Forall (fun p => snd p = false) (Sui.render w'))).
Proof.
  split; intros times w b Hsel w'.
  - assert (Hkept : Kaspa.selectedBlock w' = Some b).
    { unfold w'. rewrite kaspa_frames_keep_selection. exact Hsel. }
    split; [exact Hkept |]. apply kaspa_stale_selection. exact Hkept.
  - assert (Hkept : Sui.selectedBlock w' = Some b).
    { unfold w'. rewrite sui_frames_keep_selection. exact Hsel. }
    split; [exact Hkept |]. apply sui_stale_selection. exact Hkept.
Qed.

(** X11: the edges of a block of a reachable history: each parent id gives
    one entry; the entry is empty exactly when no block of the history
    carries that id (the parent was evicted), and otherwise it is a line
    from the block to the block with that id, whose id is strictly smaller,
    so the drawn graph has no cycle. *)
Theorem edges_lead_to_older_blocks {RT : Js.Runtime} :
  (forall t0 t1 src evs b sel,
     let w := Kaspa.run evs (Kaspa.mount t0 t1 src) in
     In b (Kaspa.blocks w) ->
     Forall2 (fun p e =>
                match e with
                | None => ~ In p (map Kaspa.id (Kaspa.blocks w))
                | Some line =>
                    exists parent,
                      In parent (Kaspa.blocks w)
                      /\ Kaspa.id parent = p
                      /\ Kaspa.id parent < Kaspa.id b
                      /\ points line = (Kaspa.position b, Kaspa.position parent)
                end)
             (Kaspa.parents b) (KaspaView.edges b (Kaspa.blocks w) sel))
  /\ (forall t0 t1 src evs b sel,
        let w := Sui.run evs (Sui.mount t0 t1 src) in
        In b (Sui.blocks w) ->
        Forall2 (fun p e =>
                   match e with
                   | None => ~ In p (map Sui.id (Sui.blocks w))
                   | Some line =>
                       exists parent,
                         In parent (Sui.blocks w)
                         /\ Sui.id parent = p
                         /\ Sui.id parent < Sui.id b
                         /\ points line = (Sui.position b, Sui.position parent)
                   end)
                (Sui.parents b) (SuiView.edges b (Sui.blocks w) sel)).
Proof.
  split; intros t0 t1 src evs b sel w Hb.
  - pose proof (kaspa_history_parents t0 t1 src evs) as Hall. fold w in Hall.
    rewrite Forall_forall in Hall. destruct (Hall b Hb) as [_ Hlt].
    pose proof (kaspa_edges_entries b (Kaspa.blocks w) sel) as Hentries.
    revert Hlt Hentries.
    generalize (KaspaView.edges b (Kaspa.blocks w) sel) as es.
    induction (Kaspa.parents b) as [| p ps IH]; intros es Hlt Hentries;
      inversion Hentries as [| ? e ? es' He Hrest]; subst; constructor.
    + destruct e as [line |]; [| exact He].
      destruct He as [parent [Hin [Hid [_ Hpoints]]]].
      exists parent. repeat split; auto.
      inversion Hlt; subst. lia.
    + apply IH; [inversion Hlt; assumption | exact Hrest].
  - pose proof (sui_history_parents t0 t1 src evs) as Hall. fold w in Hall.
    rewrite Forall_forall in Hall. destruct (Hall b Hb) as [_ Hlt].
    pose proof (sui_edges_entries b (Sui.blocks w) sel) as Hentries.
    revert Hlt Hentries.
    generalize (SuiView.edges b (Sui.blocks w) sel) as es.
    induction (Sui.parents b) as [| p ps IH]; intros es Hlt Hentries;
      inversion Hentries as [| ? e ? es' He Hrest]; subst; constructor.
    + destruct e as [line |]; [| exact He].
      destruct He as [parent [Hin [Hid [_ Hpoints]]]].
      exists parent. repeat split; auto.
      inversion Hlt; subst. lia.
    + apply IH; [inversion Hlt; assumption | exact Hrest].
Qed.

(** X12: right after a block is produced every one of its edges is drawn:
    its parents come from the last 8 (6) blocks, the cap is 75 (40), so the
    block evicted by the same append is never one of them. *)
Theorem new_block_has_all_its_edges {RT : Js.Runtime} :
  (forall t0 t1 src evs now b sel,
     let w := Kaspa.run evs (Kaspa.mount t0 t1 src) in
     snd (Kaspa.frame now w) = Some b ->
     Kaspa.parents b <> []
     /\ length (drawn (KaspaView.edges b (Kaspa.blocks (Kaspa.useFrame now w)) sel))
        = length (Kaspa.parents b))
  /\ (forall t0 t1 src evs now b sel,
        let w := Sui.run evs (Sui.mount t0 t1 src) in
        snd (Sui.frame now w) = Some b ->
        Sui.parents b <> []
        /\ length (drawn (SuiView.edges b (Sui.blocks (Sui.useFrame now w)) sel))
           = length (Sui.parents b)).
Proof.
  split; intros t0 t1 src evs now b sel w Hb.
  - pose proof (kaspa_reachable_inv t0 t1 src evs) as Hinv. fold w in Hinv.
    destruct (proj1 produced_block_id now w b Hb) as [_ [Hblocks [_ [_ Hp]]]].
    destruct (kaspa_findParents_spec (Kaspa.blocks w) (advance 2 (Kaspa.rng w)))
      as [Hsub [_ Hne]].
    split; [rewrite Hp; apply Hne; apply Hinv |].
    assert (Hall : Forall (fun p => In p (map Kaspa.id (Kaspa.blocks (Kaspa.useFrame now w))))
                          (Kaspa.parents b)).
    { rewrite Forall_forall. intros p Hin. rewrite Hp in Hin.
      pose proof (Subseq_In _ _ _ Hsub Hin) as Hwin.
      apply in_map_iff in Hwin. destruct Hwin as [a [Ha Hina]].
      apply in_map_iff. exists a. split; [exact Ha |].
      rewrite Hblocks. apply (window_survives 8 75); [lia | apply Hinv | exact Hina]. }
    clear Hp.
    pose proof (kaspa_edges_entries b (Kaspa.blocks (Kaspa.useFrame now w)) sel) as Hentries.
    revert Hall Hentries.
    generalize (KaspaView.edges b (Kaspa.blocks (Kaspa.useFrame now w)) sel) as es.
    induction (Kaspa.parents b) as [| p ps IH]; intros es Hall Hentries;
      inversion Hentries as [| ? e ? es' He Hrest]; subst; [reflexivity |].
    inversion Hall; subst.
    destruct e as [line |]; [| contradiction].
    simpl. f_equal. apply IH; assumption.
  - pose proof (sui_reachable_inv t0 t1 src evs) as Hinv. fold w in Hinv.
    destruct (proj2 produced_block_id now w b Hb) as [_ [Hblocks [_ [_ Hp]]]].
    destruct (sui_findParents_spec (Sui.blocks w) (advance 2 (Sui.rng w)))
      as [Hsub [_ Hne]].
    split; [rewrite Hp; apply Hne; apply Hinv |].
    assert (Hall : Forall (fun p => In p (map Sui.id (Sui.blocks (Sui.useFrame now w))))
                          (Sui.parents b)).
    { rewrite Forall_forall. intros p Hin. rewrite Hp in Hin.
      pose proof (Subseq_In _ _ _ Hsub Hin) as Hwin.
      apply in_map_iff in Hwin. destruct Hwin as [a [Ha Hina]].
      apply in_map_iff. exists a. split; [exact Ha |].
      rewrite Hblocks. apply (window_survives 6 40); [lia | apply Hinv | exact Hina]. }
    clear Hp.
    pose proof (sui_edges_entries b (Sui.blocks (Sui.useFrame now w)) sel) as Hentries.
    revert Hall Hentries.
    generalize (SuiView.edges b (Sui.blocks (Sui.useFrame now w)) sel) as es.
    induction (Sui.parents b) as [| p ps IH]; intros es Hall Hentries;
      inversion Hentries as [| ? e ? es' He Hrest]; subst; [reflexivity |].
    inversion Hall; subst.
    destruct e as [line |]; [| contradiction].
    simpl. f_equal. apply IH; assumption.
Qed.

(** X13: the keys handed to React are unique: in every reachable world no
    two blocks of the history share an id (the key of [<Block>]), and for
    every block of the history no two of its drawn lines share a key. *)
Theorem react_keys_are_unique {RT : Js.Runtime} :
  (forall t0 t1 src evs,
     let w := Kaspa.run evs (Kaspa.mount t0 t1 src) in
     NoDup (map Kaspa.id (Kaspa.blocks w))
     /\ forall sel,
          Forall (fun b => NoDup (map key (drawn (KaspaView.edges b (Kaspa.blocks w) sel))))
                 (Kaspa.blocks w))
  /\ (forall t0 t1 src evs,
        let w := Sui.run evs (Sui.mount t0 t1 src) in
        NoDup (map Sui.id (Sui.blocks w))
        /\ forall sel,
             Forall (fun b => NoDup (map key (drawn (SuiView.edges b (Sui.blocks w) sel))))
                    (Sui.blocks w)).
Proof.
  split; intros t0 t1 src evs w.
  - split; [apply (history_ok_NoDup Kaspa.id _ _ _ (kaspa_reachable_inv t0 t1 src evs)) |].
    intros sel.
    pose proof (kaspa_history_parents t0 t1 src evs) as Hall. fold w in Hall.
    eapply Forall_impl; [| exact Hall]. simpl. intros b [Hnd _].
    eapply Subseq_NoDup; [| apply (NoDup_pair_with (Kaspa.id b)); exact Hnd].
    unfold KaspaView.edges. apply drawn_keys_subseq.
    intros p line Hline.
    destruct (find _ _); [| discriminate]. injection Hline as <-. reflexivity.
  - split; [apply (history_ok_NoDup Sui.id _ _ _ (sui_reachable_inv t0 t1 src evs)) |].
    intros sel.
    pose proof (sui_history_parents t0 t1 src evs) as Hall. fold w in Hall.
    eapply Forall_impl; [| exact Hall]. simpl. intros b [Hnd _].
    eapply Subseq_NoDup; [| apply (NoDup_pair_with (Sui.id b)); exact Hnd].
    unfold SuiView.edges. apply drawn_keys_subseq.
    intros p line Hline.
    destruct (find _ _); [| discriminate]. injection Hline as <-. reflexivity.
Qed.

(** X14: in every reachable world exactly the last block of the history is
    flagged new, and the depth the lights and the camera follow is 1.5
    times the id counter. *)
Theorem newest_block_is_the_last {RT : Js.Runtime} :
  (forall t0 t1 src evs,
     let w := Kaspa.run evs (Kaspa.mount t0 t1 src) in
     map (KaspaView.isNew w) (Kaspa.blocks w)
     = repeat false (length (Kaspa.blocks w) - 1) ++ [true]
     /\ KaspaView.newestZ w = (Js.num (Kaspa.lastIdRef w) * 1.5)%float)
  /\ (forall t0 t1 src evs,
        let w := Sui.run evs (Sui.mount t0 t1 src) in
        map (SuiView.isNew w) (Sui.blocks w)
        = repeat false (length (Sui.blocks w) - 1) ++ [true]
        /\ SuiView.newestZ w = (Js.num (Sui.lastIdRef w) * 1.5)%float).
Proof.
  split; intros t0 t1 src evs w.
  - destruct (kaspa_newest t0 t1 src evs) as [front [newest [Hblocks [Hid Hfront]]]].
    fold w in Hblocks, Hid, Hfront.
    pose proof (kaspa_history_depth t0 t1 src evs) as Hdepth. fold w in Hdepth.
    unfold KaspaView.newestZ, KaspaView.isNew. rewrite Hblocks in *. split.
    + apply (flags_newest_only Kaspa.id); assumption.
    + rewrite nth_error_newest.
      replace (0 <? length (front ++ [newest]))%nat with true.
      * apply Forall_app in Hdepth. destruct Hdepth as [_ Hn].
        inversion Hn; subst. rewrite <- Hid. assumption.
      * symmetry. apply Nat.ltb_lt. rewrite length_app. simpl. lia.
  - destruct (sui_newest t0 t1 src evs) as [front [newest [Hblocks [Hid Hfront]]]].
    fold w in Hblocks, Hid, Hfront.
    pose proof (sui_history_depth t0 t1 src evs) as Hdepth. fold w in Hdepth.
    unfold SuiView.newestZ, SuiView.isNew. rewrite Hblocks in *. split.
    + apply (flags_newest_only Sui.id); assumption.
    + rewrite nth_error_newest.
      replace (0 <? length (front ++ [newest]))%nat with true.
      * apply Forall_app in Hdepth. destruct Hdepth as [_ Hn].
        inversion Hn; subst. rewrite <- Hid. assumption.
      * symmetry. apply Nat.ltb_lt. rewrite length_app. simpl. lia.
Qed.

(** ** Pausing the second theme *)

Lemma sui_paused_frame {RT : Js.Runtime} (now : Z) (w : Sui.World) :
  Sui.isRunning w = false -> Sui.frame now w = (w, None).
Proof.
  intros Hpaused. apply sui_frame_idle. unfold Sui.fires.
  rewrite Hpaused, andb_false_r. reflexivity.
Qed.

Lemma sui_run_app {RT : Js.Runtime} (evs1 evs2 : list Sui.Event) :
  forall w,
    Sui.run (evs1 ++ evs2) w = Sui.run evs2 (Sui.run evs1 w)
    /\ Sui.produced (evs1 ++ evs2) w
       = Sui.produced evs1 w ++ Sui.produced evs2 (Sui.run evs1 w).
Proof.
  induction evs1 as [| e rest IH]; intros w; simpl; [split; reflexivity |].
  destruct (IH (Sui.step e w)) as [Hrun Hprod].
  split; [exact Hrun |]. rewrite Hprod, app_assoc. reflexivity.
Qed.

(** X15: while the second theme is paused nothing is produced and nothing
    but the selection changes, whatever frames and clicks arrive and
    however long the pause lasts, until the pause button is pressed
    again. *)
Theorem paused_page_produces_nothing {RT : Js.Runtime} :
  forall evs w,
    Sui.isRunning w = false ->
    forallb (fun e => match e with Sui.ClickPause => false | _ => true end) evs = true ->
    Sui.produced evs w = []
    /\ Sui.setSelectedBlock None (Sui.run evs w) = Sui.setSelectedBlock None w.
Proof.
  induction evs as [| e rest IH]; intros w Hpaused Hevs; simpl; [split; reflexivity |].
  simpl in Hevs. apply andb_prop in Hevs. destruct Hevs as [He Hrest].
  destruct e as [now | | i |]; try discriminate; simpl.
  - unfold Sui.useFrame. rewrite (sui_paused_frame now w Hpaused). simpl.
    apply IH; assumption.
  - destruct (nth_error (Sui.blocks w) i) as [data |]; [| apply IH; assumption].
    destruct (IH (Sui.setSelectedBlock (Some data) w) Hpaused Hrest) as [Hp Hr].
    split; assumption.
  - destruct (IH (Sui.setSelectedBlock None w) Hpaused Hrest) as [Hp Hr].
    split; assumption.
Qed.

(** X16: pausing the running second theme, letting any number of frames
    pass, and resuming gives back the very world that was paused: a pause
    leaves no trace, and in particular the last-fire time is not moved, so
    the first frame after a long pause fires at once (and, by the clock,
    produces a single block). *)
Theorem pause_then_resume_restores_the_world {RT : Js.Runtime} :
  forall times w,
    Sui.isRunning w = true ->
    Sui.run (Sui.ClickPause :: map Sui.Frame times ++ [Sui.ClickPause]) w = w
    /\ Sui.produced (Sui.ClickPause :: map Sui.Frame times ++ [Sui.ClickPause]) w = [].
Proof.
  intros times w Hrunning.
  assert (Hpaused : Sui.isRunning (Sui.toggleRunning w) = false).
  { simpl. rewrite Hrunning. reflexivity. }
  assert (Hframes : forall ts w', Sui.isRunning w' = false ->
                                  Sui.run (map Sui.Frame ts) w' = w'
                                  /\ Sui.produced (map Sui.Frame ts) w' = []).
  { induction ts as [| now ts IH]; intros w' Hp; simpl; [split; reflexivity |].
    unfold Sui.useFrame. rewrite (sui_paused_frame now w' Hp). simpl.
    apply IH. exact Hp. }
  destruct (Hframes times (Sui.toggleRunning w) Hpaused) as [Hrun Hprod].
  destruct (sui_run_app (map Sui.Frame times) [Sui.ClickPause] (Sui.toggleRunning w))
    as [Happ Happ'].
  cbn [Sui.run Sui.produced Sui.step app].
  rewrite Happ, Happ', Hrun, Hprod. simpl. split; [| reflexivity].
  destruct w. simpl in *. rewrite Hrunning. reflexivity.
Qed.

(** ** Concrete runs for the further properties *)

(** The fourth frame of each theme: 6 draws plus one per block of the
    window, plus one when the category is normal. *)
Lemma frame_draw_count_witness :
  (let w := kaspa_after 3 in
   let win := length (Js.slice_last 8 (Kaspa.blocks w)) in
   let rnd := Js.draws (Kaspa.rng w) (win + (2 + Js.cursor (Kaspa.rng w))) in
   Kaspa.rng (Kaspa.useFrame (RT := plain_runtime) 1300 w)
   = advance (6 + win + match snd (Kaspa.colorLogic rnd) with
                        | Kaspa.normal => 1
                        | _ => 0
                        end) (Kaspa.rng w))
  /\ (let w := sui_after 3 in
      let win := length (Js.slice_last 6 (Sui.blocks w)) in
      let rnd := Js.draws (Sui.rng w) (win + (2 + Js.cursor (Sui.rng w))) in
      Sui.rng (Sui.useFrame (RT := plain_runtime) 2500 w)
      = advance (6 + win + match snd (Sui.colorLogic rnd) with
                           | Sui.normal => 1
                           | _ => 0
                           end) (Sui.rng w)).
Proof.
  split.
  - apply (proj1 (frame_draw_count (RT := plain_runtime)) 1300 (kaspa_after 3)).
    vm_compute. reflexivity.
  - apply (proj2 (frame_draw_count (RT := plain_runtime)) 2500 (sui_after 3)).
    vm_compute. reflexivity.
Defined.

(** Ready and started worlds stay so through further frames and clicks. *)
Lemma flags_and_counters_never_go_back_witness :
  (Kaspa.hasStartedRef
     (Kaspa.run (RT := plain_runtime) [Kaspa.Frame 1300; Kaspa.SelectNone] (kaspa_after 3))
   = true
   /\ Kaspa.started
        (Kaspa.run (RT := plain_runtime) [Kaspa.Frame 1300; Kaspa.SelectNone] (kaspa_after 3))
      = true)
  /\ Sui.hasStartedRef
       (Sui.run (RT := plain_runtime) [Sui.Frame 2500; Sui.ClickPause] (sui_after 3))
     = true.
Proof.
  destruct (flags_and_counters_never_go_back (RT := plain_runtime)) as [HK HS].
  destruct (HK [Kaspa.Frame 1300; Kaspa.SelectNone] (kaspa_after 3)) as [Hready [Hstart _]].
  destruct (HS [Sui.Frame 2500; Sui.ClickPause] (sui_after 3)) as [Hready' _].
  split; [split |].
  - apply Hready. vm_compute. reflexivity.
  - apply Hstart. vm_compute. reflexivity.
  - apply Hready'. vm_compute. reflexivity.
Defined.

(** The genesis block of the first theme is selected and then evicted by
    75 frames; block 1 of the second theme is selected and then evicted by
    40 frames. *)
Lemma stale_selection_is_kept_and_marks_nothing_witness :
  (let w := Kaspa.step (RT := plain_runtime) (Kaspa.ClickBlock 0) (kaspa_after 0) in
   let w' := Kaspa.run (RT := plain_runtime) (map Kaspa.Frame (frame_times 301 1 75)) w in
   Kaspa.selectedBlock w' = Some (Kaspa.genesis 0)
   /\ Forall (fun p => snd p = false) (Kaspa.render w'))
  /\ (let w := Sui.step (RT := plain_runtime) (Sui.ClickBlock 1) (sui_after 1) in
      let w' := Sui.run (RT := plain_runtime) (map Sui.Frame (frame_times 601 2 40)) w in
      Sui.selectedBlock w' = Some (sui_block_at 601 (sui_after 0))
      /\ Forall (fun p => snd p = false) (Sui.render w')).
Proof.
  destruct (stale_selection_is_kept_and_marks_nothing (RT := plain_runtime)) as [HK HS].
  split; cbv zeta.
  - destruct (HK (frame_times 301 1 75)
                (Kaspa.step (RT := plain_runtime) (Kaspa.ClickBlock 0) (kaspa_after 0))
                (Kaspa.genesis 0)) as [Hkept Hstale].
    + vm_compute. reflexivity.
    + split; [exact Hkept |]. apply Hstale. vm_compute. reflexivity.
  - destruct (HS (frame_times 601 2 40)
                (Sui.step (RT := plain_runtime) (Sui.ClickBlock 1) (sui_after 1))
                (sui_block_at 601 (sui_after 0))) as [Hkept Hstale].
    + vm_compute. reflexivity.
    + split; [exact Hkept |]. apply Hstale. vm_compute. reflexivity.
Defined.

(** The edges of the newest block after three frames. *)
Lemma edges_lead_to_older_blocks_witness :
  (let w := kaspa_after 3 in
   let b := nth 3 (Kaspa.blocks w) (Kaspa.genesis 0) in
   Forall2 (fun p e =>
              match e with
              | None => ~ In p (map Kaspa.id (Kaspa.blocks w))
              | Some line =>
                  exists parent,
                    In parent (Kaspa.blocks w)
                    /\ Kaspa.id parent = p
                    /\ Kaspa.id parent < Kaspa.id b
                    /\ points line = (Kaspa.position b, Kaspa.position parent)
              end)
           (Kaspa.parents b) (KaspaView.edges b (Kaspa.blocks w) false))
  /\ (let w := sui_after 3 in
      let b := nth 3 (Sui.blocks w) (Sui.genesis 0) in
      Forall2 (fun p e =>
                 match e with
                 | None => ~ In p (map Sui.id (Sui.blocks w))
                 | Some line =>
                     exists parent,
                       In parent (Sui.blocks w)
                       /\ Sui.id parent = p
                       /\ Sui.id parent < Sui.id b
                       /\ points line = (Sui.position b, Sui.position parent)
                 end)
              (Sui.parents b) (SuiView.edges b (Sui.blocks w) false)).
Proof.
  split; cbv zeta; unfold kaspa_after, sui_after.
  - apply (proj1 (edges_lead_to_older_blocks (RT := plain_runtime))
             0 0 cycling_source
             (Kaspa.FetchSettled Js.NetworkError :: Kaspa.ClickStart
                :: kaspa_frames 301 3)).
    apply nth_In. vm_compute. apply le_n.
  - apply (proj2 (edges_lead_to_older_blocks (RT := plain_runtime))
             0 0 cycling_source (sui_frames 601 3)).
    apply nth_In. vm_compute. apply le_n.
Defined.

(** The frame that evicts the genesis block draws every edge of the block
    it produces. *)
Lemma new_block_has_all_its_edges_witness :
  (let b := kaspa_block_at 22575 (kaspa_after 74) in
   Kaspa.parents b <> []
   /\ length (drawn (KaspaView.edges b
                       (Kaspa.blocks (Kaspa.useFrame (RT := plain_runtime) 22575 (kaspa_after 74)))
                       false))
      = length (Kaspa.parents b))
  /\ (let b := sui_block_at 24040 (sui_after 39) in
      Sui.parents b <> []
      /\ length (drawn (SuiView.edges b
                          (Sui.blocks (Sui.useFrame (RT := plain_runtime) 24040 (sui_after 39)))
                          false))
         = length (Sui.parents b)).
Proof.
  split; cbv zeta.
  - apply (proj1 (new_block_has_all_its_edges (RT := plain_runtime))
             0 0 cycling_source
             (Kaspa.FetchSettled Js.NetworkError :: Kaspa.ClickStart
                :: kaspa_frames 301 74) 22575).
    vm_compute. reflexivity.
  - apply (proj2 (new_block_has_all_its_edges (RT := plain_runtime))
             0 0 cycling_source (sui_frames 601 39) 24040).
    vm_compute. reflexivity.
Defined.

(** A paused page seeing two late frames and a click. *)
Lemma paused_page_produces_nothing_witness :
  let w := Sui.step (RT := plain_runtime) Sui.ClickPause (sui_after 3) in
  let evs := [Sui.Frame 5000; Sui.ClickBlock 0; Sui.Frame 900000] in
  Sui.produced (RT := plain_runtime) evs w = []
  /\ Sui.setSelectedBlock None (Sui.run (RT := plain_runtime) evs w)
     = Sui.setSelectedBlock None w.
Proof.
  cbv zeta.
  apply (paused_page_produces_nothing (RT := plain_runtime)).
  - vm_compute. reflexivity.
  - vm_compute. reflexivity.
Defined.

(** A pause of a quarter of an hour. *)
Lemma pause_then_resume_restores_the_world_witness :
  let evs := Sui.ClickPause :: map Sui.Frame [2000; 5000; 900000] ++ [Sui.ClickPause] in
  Sui.run (RT := plain_runtime) evs (sui_after 3) = sui_after 3
  /\ Sui.produced (RT := plain_runtime) evs (sui_after 3) = [].
Proof.
  cbv zeta.
  apply (pause_then_resume_restores_the_world (RT := plain_runtime)).
  vm_compute. reflexivity.
Defined.

(** Clicking the third block of the first theme and the second block of the
    second theme. *)
Lemma selection_marks_the_block_witness :
  (let w' := Kaspa.step (RT := plain_runtime) (Kaspa.ClickBlock 2) (kaspa_after 3) in
   let b := nth 2 (Kaspa.blocks (kaspa_after 3)) (Kaspa.genesis 0) in
   Kaspa.selectedBlock w' = Some b
   /\ forall a, In a (Kaspa.blocks w') -> (Kaspa.isSelected w' a = true <-> a = b))
  /\ (let w' := Sui.step (RT := plain_runtime) (Sui.ClickBlock 1) (sui_after 3) in
      let b := nth 1 (Sui.blocks (sui_after 3)) (Sui.genesis 0) in
      Sui.selectedBlock w' = Some b
      /\ forall a, In a (Sui.blocks w') -> (Sui.isSelected w' a = true <-> a = b)).
Proof.
  split; cbv zeta.
  - apply (proj1 (selection_marks_the_block (RT := plain_runtime))
             0 0 cycling_source
             (Kaspa.FetchSettled Js.NetworkError :: Kaspa.ClickStart
                :: kaspa_frames 301 3) 2%nat).
    vm_compute. reflexivity.
  - apply (proj2 (selection_marks_the_block (RT := plain_runtime))
             0 0 cycling_source (sui_frames 601 3) 1%nat).
    + vm_compute. reflexivity.
    + vm_compute. discriminate.
Defined.

(** The category draw of the fourth frame. *)
Lemma category_from_draw_witness :
  (let w := kaspa_after 3 in
   Kaspa.color (kaspa_block_at 1300 w)
   = fst (Kaspa.colorLogic
            (Js.draws (Kaspa.rng w)
               (length (Js.slice_last 8 (Kaspa.blocks w))
                + (2 + Js.cursor (Kaspa.rng w))))))
  /\ (let w := sui_after 3 in
      Sui.color (sui_block_at 2500 w)
      = fst (Sui.colorLogic
               (Js.draws (Sui.rng w)
                  (length (Js.slice_last 6 (Sui.blocks w))
                   + (2 + Js.cursor (Sui.rng w)))))).
Proof.
  split; cbv zeta.
  - apply (proj1 (category_from_draw (RT := plain_runtime)) 1300 (kaspa_after 3)).
    vm_compute. reflexivity.
  - apply (proj2 (category_from_draw (RT := plain_runtime)) 2500 (sui_after 3)).
    vm_compute. reflexivity.
Defined.

(** The start button and two frames before the fetch has settled. *)
Lemma kaspa_waits_for_fetch_witness :
  let evs := [Kaspa.ClickStart; Kaspa.Frame 301; Kaspa.Frame 700] in
  Kaspa.produced (RT := plain_runtime) evs (Kaspa.mount 0 0 cycling_source) = []
  /\ Kaspa.blocks (Kaspa.run (RT := plain_runtime) evs (Kaspa.mount 0 0 cycling_source))
     = Kaspa.blocks (Kaspa.mount 0 0 cycling_source).
Proof.
  cbv zeta.
  apply (kaspa_waits_for_fetch (RT := plain_runtime)); reflexivity.
Defined.
